(** * while-game: session progression engine, retry policy, time tracker,
    emotion normaliser

  A shallow embedding of the TypeScript sources

  - [src/utils/emotionUtils.ts]      (module [EmotionUtils])
  - [src/utils/gameTimeTracker.ts]   (module [GameTimeTracker])
  - [src/services/api.ts], [src/utils/errorHandler.ts] (module [ErrorHandler])
  - [src/hooks/useGameState.ts]      (module [UseGameState])
  - [src/pages/GamePage/index.tsx]   (module [GamePage])

  followed by the properties of the specification that were checked
  against them. *)

From Stdlib Require Import ZArith QArith Qround String Ascii List Bool Lia.
From Stdlib Require Import DecimalString.
Import ListNotations.

Local Open Scope string_scope.
Local Open Scope Z_scope.
Local Open Scope list_scope.

(** [a === b] on strings. *)
Notation "a === b" := (String.eqb a b) (at level 70, no associativity).

(* ================================================================== *)
(** * JavaScript values *)
(* ================================================================== *)

Module JS.

(** A JavaScript [number]. Every finite double is a rational, and the
    operations used by the sources ([Math.round], [Math.min],
    [Math.max], [<], [>]) are exact on doubles, so finite numbers are
    modelled by [Q]; the three non-finite numbers are kept apart. The
    sign of zero is not observable through the functions below. *)
Inductive number : Type :=
| NaN
| PosInf
| NegInf
| Fin (q : Q).

Definition of_Z (z : Z) : number := Fin (inject_Z z).

(** [a < b] of JavaScript: false as soon as one side is [NaN]. *)
Definition lt (a b : number) : bool :=
  match a, b with
  | NaN, _ | _, NaN => false
  | _, NegInf => false
  | NegInf, _ => true
  | PosInf, _ => false
  | Fin _, PosInf => true
  | Fin x, Fin y => negb (Qle_bool y x)
  end.

Definition gt (a b : number) : bool := lt b a.

(** [Math.round]: the nearest integer, a half going towards +infinity. *)
Definition Math_round (x : number) : number :=
  match x with
  | Fin q => of_Z (Qfloor (q + (1 # 2)))
  | other => other
  end.

Definition Math_min (a b : number) : number :=
  match a, b with
  | NaN, _ | _, NaN => NaN
  | _, _ => if lt b a then b else a
  end.

Definition Math_max (a b : number) : number :=
  match a, b with
  | NaN, _ | _, NaN => NaN
  | _, _ => if lt a b then b else a
  end.

(** [x === 0] for a number. *)
Definition is_zero (x : number) : bool :=
  match x with
  | Fin q => Qeq_bool q 0
  | _ => false
  end.

(** A JavaScript value as it arrives from JSON or from a caller typed
    [unknown]. An object is the list of its own properties. *)
#[warnings="-register-all"]
Inductive value : Type :=
| VUndefined
| VNull
| VBool (b : bool)
| VNum (n : number)
| VStr (s : string)
| VArr (items : list value)
| VObj (fields : list (string * value)).

(** The result of [typeof v]. *)
Definition typeof (v : value) : string :=
  match v with
  | VUndefined => "undefined"
  | VNull => "object"
  | VBool _ => "boolean"
  | VNum _ => "number"
  | VStr _ => "string"
  | VArr _ => "object"
  | VObj _ => "object"
  end.

(** Truthiness, as used by [!v] and [if (v)]. *)
Definition truthy (v : value) : bool :=
  match v with
  | VUndefined | VNull => false
  | VBool b => b
  | VNum NaN => false
  | VNum n => negb (is_zero n)
  | VStr s => negb (s === "")
  | VArr _ | VObj _ => true
  end.

Fixpoint lookup (key : string) (fields : list (string * value)) : option value :=
  match fields with
  | [] => None
  | (k, v) :: rest => if k === key then Some v else lookup key rest
  end.

(** [obj[key]] for a property name that is not an array index: an
    absent property reads as [undefined]. *)
Definition get (obj : value) (key : string) : value :=
  match obj with
  | VObj fields =>
      match lookup key fields with
      | Some v => v
      | None => VUndefined
      end
  | VArr items =>
      if key === "length" then VNum (of_Z (Z.of_nat (length items))) else VUndefined
  | _ => VUndefined
  end.

(** [key in obj] for an object of own properties. *)
Definition has_key (key : string) (fields : list (string * value)) : bool :=
  match lookup key fields with
  | Some _ => true
  | None => false
  end.

(** [s.includes(needle)]. *)
Fixpoint includes (s needle : string) : bool :=
  if String.prefix needle s then true
  else match s with
       | EmptyString => false
       | String _ rest => includes rest needle
       end.

(** [n.toString()] for a safe integer (at most [2 ^ 53 - 1] in
    magnitude), which JavaScript writes in plain decimal. *)
Definition toString (n : Z) : string := NilZero.string_of_int (Z.to_int n).

End JS.

(* ================================================================== *)
(** * src/utils/emotionUtils.ts *)
(* ================================================================== *)

Module EmotionUtils.
Import JS.

(** [interface EmotionData] of [src/types/api-v2.ts]. *)
Record EmotionData : Type := mkEmotionData {
  angry : number;
  disgust : number;
  fear : number;
  happy : number;
  sad : number;
  surprise : number;
  neutral : number
}.

Definition clampEmotionValue (value : number) : number :=
  Math_max (of_Z 0) (Math_min (of_Z 100) (Math_round value)).

Definition getDefaultEmotionData : EmotionData :=
  {| angry := of_Z 0;
     disgust := of_Z 0;
     fear := of_Z 0;
     happy := of_Z 0;
     sad := of_Z 0;
     surprise := of_Z 0;
     neutral := of_Z 100 |}.

(** The local helper [getEmotionValue] of [normalizeEmotionData]. *)
Fixpoint getEmotionValue (raw : value) (keys : list string) : number :=
  match keys with
  | [] => of_Z 0
  | key :: rest =>
      match get raw key with
      | VNum value => clampEmotionValue value
      | _ => getEmotionValue raw rest
      end
  end.

Definition normalizeEmotionData (raw : value) : EmotionData :=
  if negb (truthy raw) || negb (typeof raw === "object") then
    getDefaultEmotionData
  else
    {| angry := getEmotionValue raw ["angry"; "anger"; "Angry"; "Anger"];
       disgust := getEmotionValue raw ["disgust"; "Disgust"];
       fear := getEmotionValue raw ["fear"; "Fear"];
       happy := getEmotionValue raw ["happy"; "happiness"; "Happy"; "Happiness"];
       sad := getEmotionValue raw ["sad"; "sadness"; "Sad"; "Sadness"];
       surprise := getEmotionValue raw ["surprise"; "surprised"; "Surprise"; "Surprised"];
       neutral := getEmotionValue raw ["neutral"; "Neutral"] |}.

(** The JSON object of an [EmotionData]. *)
Definition EmotionData_to_value (e : EmotionData) : value :=
  VObj [("angry", VNum (angry e)); ("disgust", VNum (disgust e));
        ("fear", VNum (fear e)); ("happy", VNum (happy e));
        ("sad", VNum (sad e)); ("surprise", VNum (surprise e));
        ("neutral", VNum (neutral e))].

End EmotionUtils.

(* ================================================================== *)
(** * src/utils/gameTimeTracker.ts *)
(* ================================================================== *)

Module GameTimeTracker.

(** The private fields of [class GameTimeTracker]; instants are the
    integer milliseconds of [Date.now()]. *)
Record t : Type := mkTracker {
  startTime : option Z;
  pausedTime : Z;
  lastPauseStart : option Z
}.

(** [new GameTimeTracker()]. *)
Definition new : t :=
  {| startTime := None; pausedTime := 0; lastPauseStart := None |}.

(** Every method takes the value [now] that [Date.now()] returns
    during the call and gives back the object after the call. *)
Definition start (now : Z) (this : t) : t :=
  {| startTime := Some now; pausedTime := 0; lastPauseStart := None |}.

Definition pause (now : Z) (this : t) : t :=
  match startTime this with
  | None => this
  | Some _ =>
      match lastPauseStart this with
      | Some _ => this
      | None =>
          {| startTime := startTime this;
             pausedTime := pausedTime this;
             lastPauseStart := Some now |}
      end
  end.

Definition resume (now : Z) (this : t) : t :=
  match lastPauseStart this with
  | None => this
  | Some lastPauseStart0 =>
      let pauseDuration := now - lastPauseStart0 in
      {| startTime := startTime this;
         pausedTime := pausedTime this + pauseDuration;
         lastPauseStart := None |}
  end.

(** The result and the object after the call. [Math.floor] of an
    integer quotient by 1000 is [Z.div]. *)
Definition getElapsedSeconds (now : Z) (this : t) : Z * t :=
  match startTime this with
  | None => (0, this)
  | Some startTime0 =>
      let totalElapsed := now - startTime0 in
      let currentPauseDuration :=
        match lastPauseStart this with
        | Some lastPauseStart0 => now - lastPauseStart0
        | None => 0
        end in
      let activeTime := totalElapsed - pausedTime this - currentPauseDuration in
      (activeTime / 1000, this)
  end.

Definition reset (this : t) : t :=
  {| startTime := None; pausedTime := 0; lastPauseStart := None |}.

(** One call on the tracker, with the instant at which it happens. *)
Inductive call : Type :=
| Start (now : Z)
| Pause (now : Z)
| Resume (now : Z)
| Reset.

Definition step (this : t) (c : call) : t :=
  match c with
  | Start now => start now this
  | Pause now => pause now this
  | Resume now => resume now this
  | Reset => reset this
  end.

(** A sequence of calls on a fresh tracker. *)
Definition run (calls : list call) : t := fold_left step calls new.

End GameTimeTracker.

(* ================================================================== *)
(** * src/services/api.ts and src/utils/errorHandler.ts *)
(* ================================================================== *)

Module ErrorHandler.
Import JS.

Inductive GameErrorCode : Type :=
| INVALID_SCENE
| MISSING_SESSION
| INVALID_CHOICE
| INVALID_SCENE_TYPE
| NETWORK_ERROR
| AUTH_ERROR
| VALIDATION_ERROR
| SERVER_ERROR
| UNKNOWN_ERROR.

Definition GameErrorCode_eqb (a b : GameErrorCode) : bool :=
  match a, b with
  | INVALID_SCENE, INVALID_SCENE
  | MISSING_SESSION, MISSING_SESSION
  | INVALID_CHOICE, INVALID_CHOICE
  | INVALID_SCENE_TYPE, INVALID_SCENE_TYPE
  | NETWORK_ERROR, NETWORK_ERROR
  | AUTH_ERROR, AUTH_ERROR
  | VALIDATION_ERROR, VALIDATION_ERROR
  | SERVER_ERROR, SERVER_ERROR
  | UNKNOWN_ERROR, UNKNOWN_ERROR => true
  | _, _ => false
  end.

(** What a [throw] or a rejected promise carries. [ApiError] is the
    class of [src/services/api.ts] (its optional [status] is an HTTP
    status, an integer, when present); [GameStateError] is the class of
    this file; [TypeError] and [Error] are the built-in classes; [Other]
    is any value that is not an instance of these, e.g. [undefined].
    The [data] and [originalError] fields, which no function below
    reads, are left out. *)
Inductive thrown : Type :=
| ApiError (message : string) (status : option Z)
| TypeError (message : string)
| GameStateError (message : string) (code : GameErrorCode)
| Error (message : string)
| Other (v : value).

(** [err instanceof Error ? err.message : fallback]. *)
Definition message_or (err : thrown) (fallback : string) : string :=
  match err with
  | ApiError m _ | TypeError m | GameStateError m _ | Error m => m
  | Other _ => fallback
  end.

(** The table [ERROR_MESSAGES]. *)
Definition ERROR_MESSAGES (code : GameErrorCode) : string :=
  match code with
  | INVALID_SCENE => "유효하지 않은 씬입니다. 게임을 다시 시작해주세요."
  | MISSING_SESSION => "세션 데이터를 찾을 수 없습니다. 게임을 다시 시작해주세요."
  | INVALID_CHOICE => "유효하지 않은 선택입니다. 다시 선택해주세요."
  | INVALID_SCENE_TYPE => "알 수 없는 씬 타입입니다. 게임을 다시 시작해주세요."
  | NETWORK_ERROR => "네트워크 연결에 문제가 있습니다. 인터넷 연결을 확인해주세요."
  | AUTH_ERROR => "인증에 실패했습니다. 다시 로그인해주세요."
  | VALIDATION_ERROR => "입력 데이터가 올바르지 않습니다. 다시 시도해주세요."
  | SERVER_ERROR => "서버에 문제가 발생했습니다. 잠시 후 다시 시도해주세요."
  | UNKNOWN_ERROR => "알 수 없는 오류가 발생했습니다. 다시 시도해주세요."
  end.

Definition getErrorMessage (code : GameErrorCode) : string :=
  let message := ERROR_MESSAGES code in
  if message === "" then ERROR_MESSAGES UNKNOWN_ERROR else message.

(** [!error.status]: the status is absent or zero. *)
Definition no_status (status : option Z) : bool :=
  match status with
  | None => true
  | Some s => (s =? 0)%Z
  end.

(** The [if (error instanceof ApiError) { ... }] block of
    [classifyApiError]: the code it returns, if it returns. *)
Definition classify_ApiError_block (error : thrown) : option GameErrorCode :=
  match error with
  | ApiError _ status =>
      if no_status status then Some NETWORK_ERROR
      else
        match status with
        | Some s =>
            if ((s =? 401) || (s =? 403))%Z then Some AUTH_ERROR
            else if ((s =? 422) || (s =? 400))%Z then Some VALIDATION_ERROR
            else if (s >=? 500)%Z then Some SERVER_ERROR
            else None
        | None => None
        end
  | _ => None
  end.

Definition classifyApiError (error : thrown) : GameErrorCode :=
  match classify_ApiError_block error with
  | Some code => code
  | None =>
      match error with
      | TypeError message =>
          if includes message "fetch" then NETWORK_ERROR else UNKNOWN_ERROR
      | _ => UNKNOWN_ERROR
      end
  end.

Definition handleApiError (error : thrown) : string :=
  let errorCode := classifyApiError error in
  getErrorMessage errorCode.

(** [v === 'text']. *)
Definition is_string (v : value) (text : string) : bool :=
  match v with
  | VStr s => s === text
  | _ => false
  end.

(** [v !== null && v !== undefined && typeof v !== 'string']. *)
Definition neither_absent_nor_string (v : value) : bool :=
  match v with
  | VNull | VUndefined | VStr _ => false
  | _ => true
  end.

Definition validateSceneData (scene : value) : bool :=
  if negb (truthy scene) || negb (typeof scene === "object") then false
  else
    let sceneObj := scene in
    if negb (typeof (get sceneObj "scene_id") === "number") then false
    else if negb (typeof (get sceneObj "type") === "string") then false
    else if negb (is_string (get sceneObj "type") "dialogue")
            && negb (is_string (get sceneObj "type") "selection")
            && negb (is_string (get sceneObj "type") "selections") then false
    else if is_string (get sceneObj "type") "dialogue"
            && neither_absent_nor_string (get sceneObj "dialogue") then false
    else if (is_string (get sceneObj "type") "selection"
             || is_string (get sceneObj "type") "selections")
            && (negb (truthy (get sceneObj "selections"))
                || negb (typeof (get sceneObj "selections") === "object")) then false
    else if neither_absent_nor_string (get sceneObj "character_filename") then false
    else true.

Definition validateSessionData (session : value) : bool :=
  if negb (truthy session) || negb (typeof session === "object") then false
  else
    let sessionObj := session in
    if negb (typeof (get sessionObj "session_id") === "number") then false
    else
      match get sessionObj "scenes" with
      | VArr scenes =>
          if (length scenes =? 0)%nat then false
          else forallb validateSceneData scenes
      | _ => false
      end.

Definition requiredFields : list string :=
  ["angry"; "disgust"; "fear"; "happy"; "sad"; "surprise"; "neutral"].

(** The test of the loop body of [validateEmotionData]:
    [typeof value !== 'number' || value < 0 || value > 100]. *)
Definition emotion_field_rejected (value : value) : bool :=
  match value with
  | VNum n => lt n (of_Z 0) || gt n (of_Z 100)
  | _ => true
  end.

Definition validateEmotionData (emotion : value) : bool :=
  if negb (truthy emotion) || negb (typeof emotion === "object") then false
  else
    let emotionObj := emotion in
    forallb (fun field => negb (emotion_field_rejected (get emotionObj field)))
            requiredFields.

Definition createInvalidSceneTypeError (sceneType : string) : thrown :=
  GameStateError
    ("Invalid scene type: " ++ sceneType ++ ". Expected 'dialogue' or 'selections'.")%string
    INVALID_SCENE_TYPE.

Definition createMissingSessionError : thrown :=
  GameStateError "Session data is missing or invalid." MISSING_SESSION.

Definition createInvalidSceneError : thrown :=
  GameStateError "Scene data is invalid or corrupted." INVALID_SCENE.

Definition createInvalidChoiceError (selectionId : Z) : thrown :=
  GameStateError ("Invalid selection ID: " ++ toString selectionId)%string INVALID_CHOICE.

(** The settlement of a promise. *)
Inductive outcome (A : Type) : Type :=
| Resolved (a : A)
| Rejected (e : thrown).
Arguments Resolved {A} a.
Arguments Rejected {A} e.

(** What [retryWithBackoff] does, in order: a call of [fn] during the
    iteration [attempt], or a [setTimeout] wait of [delay] ms. This
    trace is an observation of the run; the code does not read it. *)
Inductive retry_event : Type :=
| Invoked (attempt : Z)
| Waited (delay : Z).

Section Retry.

(** [W] is the state of everything outside the function (network,
    clock); an asynchronous operation is a transition on it that ends
    resolved or rejected. [sleep delay] is the effect of
    [await new Promise(resolve => setTimeout(resolve, delay))]. *)
Context {W T : Type}.
Variable sleep : Z -> W -> W.

(** The [for] loop of [retryWithBackoff], entered at the loop test with
    the current [attempt] and [lastError]. [fuel] bounds the number of
    iterations; [None] means the bound was reached with the loop test
    still true. *)
Fixpoint retry_loop (fuel : nat) (fn : W -> outcome T * W)
    (maxRetries initialDelay attempt : Z) (lastError : thrown)
    (w : W) (trace : list retry_event)
    : option (outcome T * W * list retry_event) :=
  if (attempt <? maxRetries)%Z then
    match fuel with
    | O => None
    | S fuel' =>
        match fn w with
        | (Resolved result, w1) =>
            Some (Resolved result, w1, trace ++ [Invoked attempt])
        | (Rejected error, w1) =>
            let lastError := error in
            let trace := trace ++ [Invoked attempt] in
            let errorCode := classifyApiError error in
            if negb (GameErrorCode_eqb errorCode NETWORK_ERROR)
               && negb (GameErrorCode_eqb errorCode SERVER_ERROR) then
              Some (Rejected error, w1, trace)
            else if (attempt <? maxRetries - 1)%Z then
              let delay := initialDelay * 2 ^ attempt in
              retry_loop fuel' fn maxRetries initialDelay (attempt + 1) lastError
                         (sleep delay w1) (trace ++ [Waited delay])
            else
              retry_loop fuel' fn maxRetries initialDelay (attempt + 1) lastError
                         w1 trace
        end
    end
  else Some (Rejected lastError, w, trace).

(** [lastError] starts [undefined]; the loop starts at [attempt = 0]. *)
Definition retryWithBackoff (fn : W -> outcome T * W)
    (maxRetries initialDelay : Z) (w : W)
    : option (outcome T * W * list retry_event) :=
  retry_loop (Z.to_nat maxRetries) fn maxRetries initialDelay 0
             (Other VUndefined) w [].

End Retry.

Definition isRecoverableError (error : thrown) : bool :=
  let errorCode := classifyApiError error in
  GameErrorCode_eqb errorCode NETWORK_ERROR || GameErrorCode_eqb errorCode SERVER_ERROR.

Definition requiresReauth (error : thrown) : bool :=
  let errorCode := classifyApiError error in
  GameErrorCode_eqb errorCode AUTH_ERROR.

End ErrorHandler.

(* ================================================================== *)
(** * src/types/api-v2.ts *)
(* ================================================================== *)

(** One module per interface, so that the fields keep their names. A
    field that the code tests for absence is an [option]; [null] and
    an absent property are not told apart. The [type] of a scene is the
    string that arrived, which need not be one of the three of
    [SceneType]. *)

Module SceneData.
Record t : Type := mk {
  role : string;
  scene_id : Z;
  type : string;
  dialogue : option string;
  selections : option (list (string * string));
  character_filename : option string
}.
End SceneData.

Module SessionData.
Record t : Type := mk {
  session_id : Z;
  content : string;
  scenes : list SceneData.t;
  background_url : option string
}.
End SessionData.

Module CreateGameRequest.
Record t : Type := mk {
  personality : string;
  genre : string;
  playtime : Z
}.
End CreateGameRequest.

Module CreateGameResponse.
Record t : Type := mk {
  game_id : Z;
  personality : string;
  genre : string;
  title : string;
  playtime : Z;
  sessions : option (list SessionData.t)
}.
End CreateGameResponse.

Module NextSceneRequest.
Record t : Type := mk {
  emotion : EmotionUtils.EmotionData;
  time : Z
}.
End NextSceneRequest.

Module NextSceneResponse.
Record t : Type := mk {
  session_id : Z;
  content : string;
  scenes : option (list SceneData.t);
  background_url : option string
}.
End NextSceneResponse.

(* ================================================================== *)
(** * src/services/gameServiceV2.ts and src/hooks/useGameState.ts *)
(* ================================================================== *)

Module UseGameState.
Import JS ErrorHandler.

(** The JSON object that a typed scene or session is at run time,
    which is what the validators inspect. *)
Definition nullable_string (s : option string) : value :=
  match s with
  | Some text => VStr text
  | None => VNull
  end.

Definition SceneData_to_value (scene : SceneData.t) : value :=
  VObj ([("role", VStr (SceneData.role scene));
         ("scene_id", VNum (of_Z (SceneData.scene_id scene)));
         ("type", VStr (SceneData.type scene));
         ("dialogue", nullable_string (SceneData.dialogue scene))]
        ++ match SceneData.selections scene with
           | Some choices =>
               [("selections", VObj (map (fun kv => (fst kv, VStr (snd kv))) choices))]
           | None => []
           end
        ++ [("character_filename", nullable_string (SceneData.character_filename scene))]).

Definition SessionData_to_value (session : SessionData.t) : value :=
  VObj [("session_id", VNum (of_Z (SessionData.session_id session)));
        ("content", VStr (SessionData.content session));
        ("scenes", VArr (map SceneData_to_value (SessionData.scenes session)));
        ("background_url", nullable_string (SessionData.background_url session))].

(** A request as it reaches the transport. *)
Inductive request : Type :=
| CreateGame (data : CreateGameRequest.t) (token : string)
| GenerateNextScene (gameId sessionId sceneId : Z)
    (data : NextSceneRequest.t) (token : string)
| GenerateSceneAfterSelection (gameId sessionId sceneId selectionId : Z)
    (data : NextSceneRequest.t) (token : string).

(** Everything outside the hook: the clock read by [Date.now()] and
    the requests sent so far, oldest first. *)
Record World : Type := mkWorld {
  now : Z;
  requests : list request
}.

(** The server and the network. The settlement of a request may depend
    on the request and on how many requests came before it;
    [latency k] is the time the request number [k] takes. A request
    that resolves carries a response object, as the return types of
    [src/services/gameServiceV2.ts] say. *)
Record Backend : Type := mkBackend {
  on_createGame :
    nat -> CreateGameRequest.t -> string -> outcome CreateGameResponse.t;
  on_generateNextScene :
    nat -> Z -> Z -> Z -> NextSceneRequest.t -> string -> outcome NextSceneResponse.t;
  on_generateSceneAfterSelection :
    nat -> Z -> Z -> Z -> Z -> NextSceneRequest.t -> string
    -> outcome NextSceneResponse.t;
  latency : nat -> Z
}.

(** [interface GameState]. *)
Record GameState : Type := mkGameState {
  gameId : option Z;
  sessionId : option Z;
  currentSceneId : option Z;
  scenes : list SceneData.t;
  currentSceneIndex : Z;
  backgroundUrl : option string;
  isLoading : bool;
  error : option string
}.

Definition initialGameState : GameState :=
  {| gameId := None;
     sessionId := None;
     currentSceneId := None;
     scenes := [];
     currentSceneIndex := 0;
     backgroundUrl := None;
     isLoading := false;
     error := None |}.

(** What one mounted [useGameState] holds: the [useState] cell and the
    [useRef] tracker. *)
Record Hook : Type := mkHook {
  gameState : GameState;
  timeTracker : GameTimeTracker.t
}.

Definition initialHook : Hook :=
  {| gameState := initialGameState; timeTracker := GameTimeTracker.new |}.

(** [setGameState(update)] with a functional update. *)
Definition setGameState (update : GameState -> GameState) (h : Hook) : Hook :=
  {| gameState := update (gameState h); timeTracker := timeTracker h |}.

(** [(prev) => ({ ...prev, isLoading: true, error: null })]. *)
Definition loading_started (prev : GameState) : GameState :=
  {| gameId := gameId prev;
     sessionId := sessionId prev;
     currentSceneId := currentSceneId prev;
     scenes := scenes prev;
     currentSceneIndex := currentSceneIndex prev;
     backgroundUrl := backgroundUrl prev;
     isLoading := true;
     error := None |}.

(** [(prev) => ({ ...prev, isLoading: false, error: errorMessage })]. *)
Definition loading_failed (errorMessage : string) (prev : GameState) : GameState :=
  {| gameId := gameId prev;
     sessionId := sessionId prev;
     currentSceneId := currentSceneId prev;
     scenes := scenes prev;
     currentSceneIndex := currentSceneIndex prev;
     backgroundUrl := backgroundUrl prev;
     isLoading := false;
     error := Some errorMessage |}.

(** The update of [proceedToNextScene] and [selectChoice] after a valid
    response whose first scene is [scene0]. *)
Definition scenes_replaced (response : NextSceneResponse.t)
    (newScenes : list SceneData.t) (scene0 : SceneData.t)
    (prev : GameState) : GameState :=
  {| gameId := gameId prev;
     sessionId := Some (NextSceneResponse.session_id response);
     currentSceneId := Some (SceneData.scene_id scene0);
     scenes := newScenes;
     currentSceneIndex := 0;
     backgroundUrl :=
       match NextSceneResponse.background_url response with
       | Some url => Some url
       | None => backgroundUrl prev
       end;
     isLoading := false;
     error := None |}.

(** [scenes[currentSceneIndex] ?? null]. *)
Definition getCurrentScene (state : GameState) : option SceneData.t :=
  if currentSceneIndex state <? 0 then None
  else nth_error (scenes state) (Z.to_nat (currentSceneIndex state)).

Definition isLastScene (state : GameState) : bool :=
  currentSceneIndex state >=? Z.of_nat (length (scenes state)) - 1.

Definition is_selection_type (type : string) : bool :=
  (type === "selection") || (type === "selections").

Definition hasChoices (state : GameState) : bool :=
  match getCurrentScene state with
  | Some currentScene =>
      is_selection_type (SceneData.type currentScene)
      && match SceneData.selections currentScene with
         | Some _ => true
         | None => false
         end
  | None => false
  end.

Definition resetGame (h : Hook) : Hook :=
  {| gameState := initialGameState;
     timeTracker := GameTimeTracker.reset (timeTracker h) |}.

(** [!accessToken] is false exactly for a non-empty token. *)
Definition usable_token (accessToken : option string) : option string :=
  match accessToken with
  | Some token => if token === "" then None else Some token
  | None => None
  end.

Definition auth_required : thrown :=
  Error "인증이 필요합니다. 다시 로그인해주세요.".

(** The wait between two attempts moves the clock. *)
Definition sleep (delay : Z) (w : World) : World :=
  {| now := now w + delay; requests := requests w |}.

Section Engine.

Variable backend : Backend.

(** The [accessToken] that [useAuth()] gives. *)
Variable accessToken : option string.

(** One request through the transport: it is recorded, it takes its
    time, and the backend settles it. *)
Definition send (rq : request) (w : World) : World :=
  {| now := now w + latency backend (length (requests w));
     requests := requests w ++ [rq] |}.

Definition createGame (data : CreateGameRequest.t) (token : string)
    (w : World) : outcome CreateGameResponse.t * World :=
  (on_createGame backend (length (requests w)) data token,
   send (CreateGame data token) w).

Definition generateNextScene (gameId sessionId sceneId : Z)
    (data : NextSceneRequest.t) (token : string)
    (w : World) : outcome NextSceneResponse.t * World :=
  (on_generateNextScene backend (length (requests w))
     gameId sessionId sceneId data token,
   send (GenerateNextScene gameId sessionId sceneId data token) w).

Definition generateSceneAfterSelection (gameId sessionId sceneId selectionId : Z)
    (data : NextSceneRequest.t) (token : string)
    (w : World) : outcome NextSceneResponse.t * World :=
  (on_generateSceneAfterSelection backend (length (requests w))
     gameId sessionId sceneId selectionId data token,
   send (GenerateSceneAfterSelection gameId sessionId sceneId selectionId data token) w).

(** The checks of [createNewGame] between the response and the state
    update: the new state, or what is thrown. *)
Definition initial_state_of (response : CreateGameResponse.t)
    : outcome GameState :=
  match CreateGameResponse.sessions response with
  | None | Some [] => Rejected createMissingSessionError
  | Some (firstSession :: _) =>
      if negb (validateSessionData (SessionData_to_value firstSession)) then
        Rejected createMissingSessionError
      else
        match SessionData.scenes firstSession with
        | [] => Rejected createInvalidSceneError
        | scene0 :: _ =>
            if negb (validateSceneData (SceneData_to_value scene0)) then
              Rejected createInvalidSceneError
            else
              Resolved
                {| gameId := Some (CreateGameResponse.game_id response);
                   sessionId := Some (SessionData.session_id firstSession);
                   currentSceneId := Some (SceneData.scene_id scene0);
                   scenes := SessionData.scenes firstSession;
                   currentSceneIndex := 0;
                   backgroundUrl := SessionData.background_url firstSession;
                   isLoading := false;
                   error := None |}
        end
  end.

(** The result of a hook function is the settlement of its promise,
    the hook after it and the world after it; [None] only if the retry
    loop ran out of fuel. The state the callback closes over is the
    state at the time of the call. *)
Definition createNewGame (data : CreateGameRequest.t) (h : Hook) (w : World)
    : option (outcome unit * Hook * World) :=
  match usable_token accessToken with
  | None => Some (Rejected auth_required, h, w)
  | Some token =>
      let h1 := setGameState loading_started h in
      match retryWithBackoff sleep (createGame data token) 3 1000 w with
      | None => None
      | Some (settled, w1, _) =>
          let tried :=
            match settled with
            | Resolved response => initial_state_of response
            | Rejected error => Rejected error
            end in
          match tried with
          | Resolved state =>
              Some (Resolved tt,
                    {| gameState := state;
                       timeTracker :=
                         GameTimeTracker.start (now w1)
                           (GameTimeTracker.reset (timeTracker h1)) |},
                    w1)
          | Rejected error =>
              let errorMessage := handleApiError error in
              Some (Rejected error, setGameState (loading_failed errorMessage) h1, w1)
          end
      end
  end.

(** The checks of [proceedToNextScene] and [selectChoice] between the
    response and the state update. *)
Definition next_state_of (response : NextSceneResponse.t)
    : outcome (GameState -> GameState) :=
  match NextSceneResponse.scenes response with
  | None | Some [] => Rejected createInvalidSceneError
  | Some (scene0 :: rest) =>
      if negb (validateSceneData (SceneData_to_value scene0)) then
        Rejected createInvalidSceneError
      else Resolved (scenes_replaced response (scene0 :: rest) scene0)
  end.

(** The [try]/[catch] part shared by [proceedToNextScene] and
    [selectChoice], given the transport call to retry. *)
Definition advance_with
    (call : NextSceneRequest.t -> World -> outcome NextSceneResponse.t * World)
    (emotion : option EmotionUtils.EmotionData) (h : Hook) (w : World)
    : option (outcome unit * Hook * World) :=
  let h1 := setGameState loading_started h in
  let emotionData :=
    match emotion with
    | Some e => e
    | None => EmotionUtils.getDefaultEmotionData
    end in
  let elapsedTime := fst (GameTimeTracker.getElapsedSeconds (now w) (timeTracker h1)) in
  let data := {| NextSceneRequest.emotion := emotionData;
                 NextSceneRequest.time := elapsedTime |} in
  match retryWithBackoff sleep (call data) 3 1000 w with
  | None => None
  | Some (settled, w1, _) =>
      let tried :=
        match settled with
        | Resolved response => next_state_of response
        | Rejected error => Rejected error
        end in
      match tried with
      | Resolved update => Some (Resolved tt, setGameState update h1, w1)
      | Rejected error =>
          let errorMessage := handleApiError error in
          Some (Rejected error, setGameState (loading_failed errorMessage) h1, w1)
      end
  end.

Definition proceedToNextScene (emotion : option EmotionUtils.EmotionData)
    (h : Hook) (w : World) : option (outcome unit * Hook * World) :=
  match usable_token accessToken with
  | None => Some (Rejected auth_required, h, w)
  | Some token =>
      match gameId (gameState h), sessionId (gameState h),
            currentSceneId (gameState h) with
      | Some gameId0, Some sessionId0, Some currentSceneId0 =>
          match getCurrentScene (gameState h) with
          | Some currentScene =>
              if negb (SceneData.type currentScene === "dialogue") then
                Some (Rejected (createInvalidSceneTypeError (SceneData.type currentScene)),
                      h, w)
              else
                advance_with
                  (fun data => generateNextScene gameId0 sessionId0 currentSceneId0 data token)
                  emotion h w
          | None =>
              advance_with
                (fun data => generateNextScene gameId0 sessionId0 currentSceneId0 data token)
                emotion h w
          end
      | _, _, _ => Some (Rejected createInvalidSceneError, h, w)
      end
  end.

Definition selectChoice (selectionId : Z) (emotion : option EmotionUtils.EmotionData)
    (h : Hook) (w : World) : option (outcome unit * Hook * World) :=
  match usable_token accessToken with
  | None => Some (Rejected auth_required, h, w)
  | Some token =>
      match gameId (gameState h), sessionId (gameState h),
            currentSceneId (gameState h) with
      | Some gameId0, Some sessionId0, Some currentSceneId0 =>
          match getCurrentScene (gameState h) with
          | None => Some (Rejected createInvalidSceneError, h, w)
          | Some currentScene =>
              if negb (is_selection_type (SceneData.type currentScene)) then
                Some (Rejected (createInvalidSceneTypeError (SceneData.type currentScene)),
                      h, w)
              else
                let offered :=
                  match SceneData.selections currentScene with
                  | Some choices =>
                      existsb (fun kv => fst kv === toString selectionId) choices
                  | None => false
                  end in
                if negb offered then
                  Some (Rejected (createInvalidChoiceError selectionId), h, w)
                else
                  advance_with
                    (fun data =>
                       generateSceneAfterSelection gameId0 sessionId0 currentSceneId0
                         selectionId data token)
                    emotion h w
          end
      | _, _, _ => Some (Rejected createInvalidSceneError, h, w)
      end
  end.

End Engine.

End UseGameState.

(* ================================================================== *)
(** * src/pages/GamePage/index.tsx *)
(* ================================================================== *)

Module GamePage.
Import JS ErrorHandler UseGameState.

Record DialogueLogItem : Type := mkDialogueLogItem {
  characterName : string;
  text : string
}.

(** The [useState] cells of the page that [handleNextScene] writes. *)
Record PageState : Type := mkPageState {
  currentSceneIndex : Z;
  dialogueLog : list DialogueLogItem;
  error : option string
}.

(** What [useEmotionDetection] reports: a label and a confidence. *)
Record Expression : Type := mkExpression {
  label : string;
  confidence : number
}.

(** The table [emotionMap]; the labels are those of [EXPRESSION_LABEL]
    in [src/hooks/useEmotionDetection.ts]. *)
Definition emotionMap : list (string * value) :=
  [("무표정", VObj [("neutral", VNum (of_Z 100))]);
   ("행복", VObj [("happy", VNum (of_Z 100))]);
   ("슬픔", VObj [("sad", VNum (of_Z 100))]);
   ("분노", VObj [("angry", VNum (of_Z 100))]);
   ("두려움", VObj [("fear", VNum (of_Z 100))]);
   ("혐오", VObj [("disgust", VNum (of_Z 100))]);
   ("놀람", VObj [("surprise", VNum (of_Z 100))])].

Definition getCurrentEmotionData (emotionExpression : option Expression)
    : EmotionUtils.EmotionData :=
  match emotionExpression with
  | Some expression =>
      match lookup (label expression) emotionMap with
      | Some mappedEmotion => EmotionUtils.normalizeEmotionData mappedEmotion
      | None => EmotionUtils.getDefaultEmotionData
      end
  | None => EmotionUtils.getDefaultEmotionData
  end.

(** [a || b] on strings. *)
Definition or_else (a b : string) : string := if a === "" then b else a.

Section Page.

Variable backend : Backend.
Variable accessToken : option string.
Variable emotionExpression : option Expression.

(** [handleNextScene]: it catches what [proceedToNextScene] throws, so
    it always resolves; the result is the page, the hook and the world
    after it. *)
Definition handleNextScene (p : PageState) (h : Hook) (w : World)
    : option (PageState * Hook * World) :=
  match getCurrentScene (gameState h) with
  | None => Some (p, h, w)
  | Some currentScene =>
      let logged :=
        match SceneData.dialogue currentScene with
        | Some line =>
            if line === "" then dialogueLog p
            else dialogueLog p
                 ++ [{| characterName := or_else (SceneData.role currentScene) "캐릭터";
                        text := or_else line "" |}]
        | None => dialogueLog p
        end in
      if negb (isLastScene (gameState h)) then
        Some ({| currentSceneIndex := currentSceneIndex p + 1;
                 dialogueLog := logged;
                 error := error p |}, h, w)
      else if SceneData.type currentScene === "dialogue" then
        let emotionData := getCurrentEmotionData emotionExpression in
        match proceedToNextScene backend accessToken (Some emotionData) h w with
        | None => None
        | Some (Resolved _, h1, w1) =>
            Some ({| currentSceneIndex := 0;
                     dialogueLog := logged;
                     error := error p |}, h1, w1)
        | Some (Rejected err, h1, w1) =>
            Some ({| currentSceneIndex := currentSceneIndex p;
                     dialogueLog := logged;
                     error := Some (message_or err "다음 씬을 불러오는데 실패했습니다.") |},
                  h1, w1)
        end
      else
        Some ({| currentSceneIndex := currentSceneIndex p;
                 dialogueLog := logged;
                 error := error p |}, h, w)
  end.

End Page.

End GamePage.

(* ================================================================== *)
(** * The specification's own definitions *)
(* ================================================================== *)

Module Spec.
Import JS.

(** An integer between 0 and 100. *)
Definition percent_integer (v : number) : Prop :=
  exists z : Z, v = of_Z z /\ 0 <= z <= 100.

(** The specification's [clamp]: [round(min(100, max(0, value)))]. *)
Definition clamp (value : number) : number :=
  Math_round (Math_min (of_Z 100) (Math_max (of_Z 0) value)).

(** The accumulator as the specification describes it: three states,
    with the active (not paused) time gathered so far. *)
Inductive phase : Type :=
| Unstarted
| Running (since active : Z)
| Paused (active : Z).

Definition phase_step (p : phase) (c : GameTimeTracker.call) : phase :=
  match c, p with
  | GameTimeTracker.Start now, _ => Running now 0
  | GameTimeTracker.Pause now, Running since active => Paused (active + (now - since))
  | GameTimeTracker.Pause _, _ => p
  | GameTimeTracker.Resume now, Paused active => Running now active
  | GameTimeTracker.Resume _, _ => p
  | GameTimeTracker.Reset, _ => Unstarted
  end.

Definition phase_after (calls : list GameTimeTracker.call) : phase :=
  fold_left phase_step calls Unstarted.

(** The active time at the instant [now], in milliseconds. *)
Definition active_ms (now : Z) (p : phase) : Z :=
  match p with
  | Unstarted => 0
  | Running since active => active + (now - since)
  | Paused active => active
  end.

(** The fields of the tracker represent a phase of the specification:
    the active time is kept as the start instant and the sum of the
    finished pauses. *)
Definition represents (this : GameTimeTracker.t) (p : phase) : Prop :=
  match p with
  | Unstarted => GameTimeTracker.startTime this = None /\ GameTimeTracker.lastPauseStart this = None
  | Running since active =>
      exists s, GameTimeTracker.startTime this = Some s /\ GameTimeTracker.lastPauseStart this = None
                /\ active = since - s - GameTimeTracker.pausedTime this
  | Paused active =>
      exists s p0, GameTimeTracker.startTime this = Some s /\ GameTimeTracker.lastPauseStart this = Some p0
                   /\ active = p0 - s - GameTimeTracker.pausedTime this
  end.

(** The instants of a sequence of calls never go back, starting not
    before [from]. *)
Fixpoint monotone (from : Z) (calls : list GameTimeTracker.call) : Prop :=
  match calls with
  | [] => True
  | GameTimeTracker.Reset :: rest => monotone from rest
  | GameTimeTracker.Start now :: rest
  | GameTimeTracker.Pause now :: rest
  | GameTimeTracker.Resume now :: rest => from <= now /\ monotone now rest
  end.

(** The instant of the last timed call, or [from] if there is none. *)
Fixpoint last_instant (from : Z) (calls : list GameTimeTracker.call) : Z :=
  match calls with
  | [] => from
  | GameTimeTracker.Reset :: rest => last_instant from rest
  | GameTimeTracker.Start now :: rest
  | GameTimeTracker.Pause now :: rest
  | GameTimeTracker.Resume now :: rest => last_instant now rest
  end.

Section RetrySchedule.

Context {W T : Type}.
Variable sleep : Z -> W -> W.
Variable fn : W -> ErrorHandler.outcome T * W.
Variable initialDelayMs : Z.

(** The world in which the attempt [attempt + k] starts, when the
    attempt [attempt] starts in [w] and each attempt in between fails
    and is followed by its backoff wait. *)
Fixpoint world_before (attempt : Z) (k : nat) (w : W) : W :=
  match k with
  | O => w
  | S k' => world_before (attempt + 1) k' (sleep (initialDelayMs * 2 ^ attempt) (snd (fn w)))
  end.

(** The schedule of [k + 1] invocations from the attempt [attempt] on:
    a wait of [initialDelayMs * 2 ^ i] after the attempt [i], none
    after the last. *)
Fixpoint schedule (attempt : Z) (k : nat) : list ErrorHandler.retry_event :=
  match k with
  | O => [ErrorHandler.Invoked attempt]
  | S k' =>
      ErrorHandler.Invoked attempt
      :: ErrorHandler.Waited (initialDelayMs * 2 ^ attempt)
      :: schedule (attempt + 1) k'
  end.

(** An invocation that fails with a [NETWORK_ERROR] or a
    [SERVER_ERROR]. *)
Definition fails_recoverably (r : ErrorHandler.outcome T * W) : Prop :=
  exists e w1, r = (ErrorHandler.Rejected e, w1)
               /\ ErrorHandler.isRecoverableError e = true.

End RetrySchedule.

(** How many times the operation was invoked, and the waits in order. *)
Definition invocations (trace : list ErrorHandler.retry_event) : Z :=
  Z.of_nat (length (filter (fun ev => match ev with
                                      | ErrorHandler.Invoked _ => true
                                      | ErrorHandler.Waited _ => false
                                      end) trace)).

Fixpoint waits (trace : list ErrorHandler.retry_event) : list Z :=
  match trace with
  | [] => []
  | ErrorHandler.Invoked _ :: rest => waits rest
  | ErrorHandler.Waited delay :: rest => delay :: waits rest
  end.

(** The world [b] has every request of the world [a], in the same
    order, and possibly more after them. *)
Definition extends (a b : UseGameState.World) : Prop :=
  exists extra, UseGameState.requests b = UseGameState.requests a ++ extra.

End Spec.

(* ================================================================== *)
(** * src/hooks/useEmotionDetection.ts *)
(* ================================================================== *)

Module EmotionDetection.

(** [type ExpressionKey]: the expressions that the detector names. *)
Inductive ExpressionKey : Type :=
| neutral
| happy
| sad
| angry
| fearful
| disgusted
| surprised.

(** The table [EXPRESSION_LABEL]. *)
Definition EXPRESSION_LABEL (key : ExpressionKey) : string :=
  match key with
  | neutral => "무표정"
  | happy => "행복"
  | sad => "슬픔"
  | angry => "분노"
  | fearful => "두려움"
  | disgusted => "혐오"
  | surprised => "놀람"
  end.

End EmotionDetection.

(* ================================================================== *)
(** * src/pages/GamePage/index.tsx: the setup form *)
(* ================================================================== *)

Module GamePageSetup.
Import JS ErrorHandler UseGameState.

(** The code of a byte of a string; strings are the UTF-8 bytes of the
    JavaScript strings. *)
Definition code (c : ascii) : N := N_of_ascii c.

(** The white space and line terminators that [trim()] removes, by
    their UTF-8 bytes: U+0009 to U+000D and U+0020; U+00A0; U+1680,
    U+2000 to U+200A, U+2028, U+2029, U+202F, U+205F, U+3000 and
    U+FEFF. *)
Definition one_byte_space (c1 : ascii) : bool :=
  ((9 <=? code c1) && (code c1 <=? 13) || (code c1 =? 32))%N.

Definition two_byte_space (c1 c2 : ascii) : bool :=
  ((code c1 =? 194) && (code c2 =? 160))%N.

Definition three_byte_space (c1 c2 c3 : ascii) : bool :=
  ((code c1 =? 225) && (code c2 =? 154) && (code c3 =? 128)
   || (code c1 =? 226) && (code c2 =? 128)
      && ((128 <=? code c3) && (code c3 <=? 138)
          || (code c3 =? 168) || (code c3 =? 169) || (code c3 =? 175))
   || (code c1 =? 226) && (code c2 =? 129) && (code c3 =? 159)
   || (code c1 =? 227) && (code c2 =? 128) && (code c3 =? 128)
   || (code c1 =? 239) && (code c2 =? 187) && (code c3 =? 191))%N.

(** [!s.trim()]: nothing but white space in [s]. *)
Fixpoint is_blank (s : string) : bool :=
  match s with
  | EmptyString => true
  | String c1 rest1 =>
      if one_byte_space c1 then is_blank rest1
      else
        match rest1 with
        | EmptyString => false
        | String c2 rest2 =>
            if two_byte_space c1 c2 then is_blank rest2
            else
              match rest2 with
              | EmptyString => false
              | String c3 rest3 =>
                  if three_byte_space c1 c2 c3 then is_blank rest3 else false
              end
        end
  end.

(** The [useState] cells of the page that [handleCreateGame] writes. *)
Record SetupState : Type := mkSetupState {
  error : option string;
  isCreatingGame : bool;
  showStartConfirm : bool
}.

Section Setup.

Variable backend : Backend.
Variable accessToken : option string.

(** [handleCreateGame], with the form [gameForm] of the moment: it
    catches what [createNewGame] throws, so it always resolves. *)
Definition handleCreateGame (gameForm : CreateGameRequest.t)
    (p : SetupState) (h : Hook) (w : World)
    : option (SetupState * Hook * World) :=
  if is_blank (CreateGameRequest.personality gameForm) then
    Some ({| error := Some "성격 유형을 입력해주세요.";
             isCreatingGame := isCreatingGame p;
             showStartConfirm := showStartConfirm p |}, h, w)
  else if is_blank (CreateGameRequest.genre gameForm) then
    Some ({| error := Some "장르를 입력해주세요.";
             isCreatingGame := isCreatingGame p;
             showStartConfirm := showStartConfirm p |}, h, w)
  else if (CreateGameRequest.playtime gameForm <? 5)
          || (CreateGameRequest.playtime gameForm >? 100) then
    Some ({| error := Some "플레이 시간은 5분에서 100분 사이로 설정해주세요.";
             isCreatingGame := isCreatingGame p;
             showStartConfirm := showStartConfirm p |}, h, w)
  else
    match createNewGame backend accessToken gameForm h w with
    | None => None
    | Some (Resolved _, h1, w1) =>
        Some ({| error := None;
                 isCreatingGame := false;
                 showStartConfirm := true |}, h1, w1)
    | Some (Rejected err, h1, w1) =>
        Some ({| error := Some (message_or err "게임 생성에 실패했습니다.");
                 isCreatingGame := false;
                 showStartConfirm := showStartConfirm p |}, h1, w1)
    end.

End Setup.

End GamePageSetup.

(* ================================================================== *)
(** * src/pages/GamePage/components/GameTimer/index.tsx *)
(* ================================================================== *)

Module GameTimer.

(** The initial value of [remainingSeconds]. *)
Definition initial (durationMinutes : Z) : Z := durationMinutes * 60.

(** The update of [remainingSeconds] that the interval applies every
    second. *)
Definition tick (prev : Z) : Z := if prev <=? 1 then 0 else prev - 1.

(** The test of the effect that calls [onTimeUp]. *)
Definition time_is_up (remainingSeconds : Z) : bool := remainingSeconds <=? 0.

(** [Math.floor(remainingSeconds / 60)] and [remainingSeconds % 60]. *)
Definition minutes (remainingSeconds : Z) : Z := remainingSeconds / 60.
Definition seconds (remainingSeconds : Z) : Z := Z.rem remainingSeconds 60.

Definition isWarning (remainingSeconds : Z) : bool := remainingSeconds <=? 60.

(** [ticks] updates in a row. *)
Fixpoint after_ticks (ticks : nat) (remainingSeconds : Z) : Z :=
  match ticks with
  | O => remainingSeconds
  | S ticks' => after_ticks ticks' (tick remainingSeconds)
  end.

End GameTimer.

(* ================================================================== *)
(** * Vocabulary of the further properties *)
(* ================================================================== *)

Module Props.
Import JS ErrorHandler UseGameState.

(** A property of every field of an emotion vector. *)
Definition all_fields (P : number -> Prop) (e : EmotionUtils.EmotionData) : Prop :=
  P (EmotionUtils.angry e) /\ P (EmotionUtils.disgust e) /\ P (EmotionUtils.fear e)
  /\ P (EmotionUtils.happy e) /\ P (EmotionUtils.sad e)
  /\ P (EmotionUtils.surprise e) /\ P (EmotionUtils.neutral e).

(** The fields of a normalised vector with the aliases that
    [normalizeEmotionData] tries for each, in its order. *)
Definition alias_table : list ((EmotionUtils.EmotionData -> number) * list string) :=
  [(EmotionUtils.angry, ["angry"; "anger"; "Angry"; "Anger"]);
   (EmotionUtils.disgust, ["disgust"; "Disgust"]);
   (EmotionUtils.fear, ["fear"; "Fear"]);
   (EmotionUtils.happy, ["happy"; "happiness"; "Happy"; "Happiness"]);
   (EmotionUtils.sad, ["sad"; "sadness"; "Sad"; "Sadness"]);
   (EmotionUtils.surprise, ["surprise"; "surprised"; "Surprise"; "Surprised"]);
   (EmotionUtils.neutral, ["neutral"; "Neutral"])].

(** The vector whose fields are all 0. *)
Definition zero_vector : EmotionUtils.EmotionData :=
  {| EmotionUtils.angry := of_Z 0;
     EmotionUtils.disgust := of_Z 0;
     EmotionUtils.fear := of_Z 0;
     EmotionUtils.happy := of_Z 0;
     EmotionUtils.sad := of_Z 0;
     EmotionUtils.surprise := of_Z 0;
     EmotionUtils.neutral := of_Z 0 |}.

(** [typeof v === 'object'] for a value that is not [null]. *)
Definition is_object (v : value) : bool :=
  match v with
  | VObj _ | VArr _ => true
  | _ => false
  end.

(** A tracker whose instants all lie in the past of [upto]: it was
    started before [upto], its finished pauses are intervals after the
    start, and a running pause began after them. *)
Definition in_time (upto : Z) (this : GameTimeTracker.t) : Prop :=
  match GameTimeTracker.startTime this with
  | None => True
  | Some s =>
      s <= upto /\ 0 <= GameTimeTracker.pausedTime this
      /\ match GameTimeTracker.lastPauseStart this with
         | Some p => s + GameTimeTracker.pausedTime this <= p <= upto
         | None => s + GameTimeTracker.pausedTime this <= upto
         end
  end.

(** The time spent waiting in a trace of [retryWithBackoff]. *)
Definition total_wait (trace : list retry_event) : Z :=
  fold_right Z.add 0 (Spec.waits trace).

(** The body of the request of an advance called with [emotion] on
    the hook [h] in the world [w]: the emotion given or the default
    one, and the seconds elapsed when the call is made. *)
Definition request_data (emotion : option EmotionUtils.EmotionData)
    (h : Hook) (w : World) : NextSceneRequest.t :=
  {| NextSceneRequest.emotion :=
       match emotion with
       | Some e => e
       | None => EmotionUtils.getDefaultEmotionData
       end;
     NextSceneRequest.time :=
       fst (GameTimeTracker.getElapsedSeconds (now w) (timeTracker h)) |}.

(** The choice [selectionId], written in decimal, is a key of the
    choices of [scene]. *)
Definition offers (scene : SceneData.t) (selectionId : Z) : Prop :=
  exists choices,
    SceneData.selections scene = Some choices
    /\ exists text, In (toString selectionId, text) choices.

(** [Number.isSafeInteger(n)]: the integers that [toString()] writes
    digit for digit. *)
Definition safe_integer (n : Z) : Prop := Z.abs n <= 2 ^ 53 - 1.

(** The hook [h'] is the hook [h] advanced to the scenes of
    [response]: the buffer is the scenes of the response with the
    index at 0, the first of them is valid and is the current scene,
    the session is the one of the response, the game is the same, the
    background is the one of the response or else the previous one,
    nothing is loading, no error is stored, and the tracker is the
    same. *)
Definition advanced_to (response : NextSceneResponse.t) (h h' : Hook) : Prop :=
  exists scene0 rest,
    NextSceneResponse.scenes response = Some (scene0 :: rest)
    /\ validateSceneData (SceneData_to_value scene0) = true
    /\ gameState h'
       = {| gameId := gameId (gameState h);
            sessionId := Some (NextSceneResponse.session_id response);
            currentSceneId := Some (SceneData.scene_id scene0);
            scenes := scene0 :: rest;
            currentSceneIndex := 0;
            backgroundUrl :=
              match NextSceneResponse.background_url response with
              | Some url => Some url
              | None => backgroundUrl (gameState h)
              end;
            isLoading := false;
            error := None |}
    /\ getCurrentScene (gameState h') = Some scene0
    /\ timeTracker h' = timeTracker h.

(** The six fields of the state that a failed call must not touch. *)
Definition same_progress (a b : GameState) : Prop :=
  gameId a = gameId b /\ sessionId a = sessionId b
  /\ currentSceneId a = currentSceneId b /\ scenes a = scenes b
  /\ currentSceneIndex a = currentSceneIndex b
  /\ backgroundUrl a = backgroundUrl b.

(** What the hook keeps between two calls: the index is 0, the current
    scene identifier is the one of the first scene of the buffer, that
    scene is valid, nothing is loading, and there are identifiers
    exactly when there is a buffer. *)
Definition well_formed (state : GameState) : Prop :=
  currentSceneIndex state = 0
  /\ isLoading state = false
  /\ match scenes state with
     | [] => gameId state = None /\ sessionId state = None
             /\ currentSceneId state = None
     | scene0 :: _ =>
         gameId state <> None /\ sessionId state <> None
         /\ currentSceneId state = Some (SceneData.scene_id scene0)
         /\ validateSceneData (SceneData_to_value scene0) = true
     end.

(** One call on the hook by its user, with the backend and the token
    of the moment. *)
Inductive hook_call : Type :=
| CallCreateNewGame (backend : Backend) (accessToken : option string)
    (data : CreateGameRequest.t)
| CallProceedToNextScene (backend : Backend) (accessToken : option string)
    (emotion : option EmotionUtils.EmotionData)
| CallSelectChoice (backend : Backend) (accessToken : option string)
    (selectionId : Z) (emotion : option EmotionUtils.EmotionData)
| CallResetGame.

(** The hook and the world after a call, whether it resolved or
    rejected. *)
Definition after_call (c : hook_call) (h : Hook) (w : World) : option (Hook * World) :=
  match c with
  | CallCreateNewGame backend accessToken data =>
      option_map (fun r => (snd (fst r), snd r))
                 (createNewGame backend accessToken data h w)
  | CallProceedToNextScene backend accessToken emotion =>
      option_map (fun r => (snd (fst r), snd r))
                 (proceedToNextScene backend accessToken emotion h w)
  | CallSelectChoice backend accessToken selectionId emotion =>
      option_map (fun r => (snd (fst r), snd r))
                 (selectChoice backend accessToken selectionId emotion h w)
  | CallResetGame => Some (resetGame h, w)
  end.

(** A sequence of calls, one settled before the next starts; the
    clock may move between two calls. *)
Fixpoint after_calls (calls : list (hook_call * Z)) (h : Hook) (w : World)
    : option (Hook * World) :=
  match calls with
  | [] => Some (h, w)
  | (c, idle) :: rest =>
      match after_call c h (sleep idle w) with
      | Some (h1, w1) => after_calls rest h1 w1
      | None => None
      end
  end.

(** [handleNextScene] called again and again, each call after the one
    before has settled. *)
Fixpoint handleNextScene_times (backend : Backend) (accessToken : option string)
    (emotionExpression : option GamePage.Expression) (times : nat)
    (p : GamePage.PageState) (h : Hook) (w : World)
    : option (GamePage.PageState * Hook * World) :=
  match times with
  | O => Some (p, h, w)
  | S times' =>
      match GamePage.handleNextScene backend accessToken emotionExpression p h w with
      | Some (p1, h1, w1) =>
          handleNextScene_times backend accessToken emotionExpression times' p1 h1 w1
      | None => None
      end
  end.

(** The vector that has 100 in the field of an expression and 0 in
    the others. *)
Definition one_hot (key : EmotionDetection.ExpressionKey) : EmotionUtils.EmotionData :=
  let at_ (k : EmotionDetection.ExpressionKey) : number :=
    match key, k with
    | EmotionDetection.neutral, EmotionDetection.neutral
    | EmotionDetection.happy, EmotionDetection.happy
    | EmotionDetection.sad, EmotionDetection.sad
    | EmotionDetection.angry, EmotionDetection.angry
    | EmotionDetection.fearful, EmotionDetection.fearful
    | EmotionDetection.disgusted, EmotionDetection.disgusted
    | EmotionDetection.surprised, EmotionDetection.surprised => of_Z 100
    | _, _ => of_Z 0
    end in
  {| EmotionUtils.angry := at_ EmotionDetection.angry;
     EmotionUtils.disgust := at_ EmotionDetection.disgusted;
     EmotionUtils.fear := at_ EmotionDetection.fearful;
     EmotionUtils.happy := at_ EmotionDetection.happy;
     EmotionUtils.sad := at_ EmotionDetection.sad;
     EmotionUtils.surprise := at_ EmotionDetection.surprised;
     EmotionUtils.neutral := at_ EmotionDetection.neutral |}.

End Props.

(* ================================================================== *)
(** * Concrete inputs *)
(* ================================================================== *)

Module Examples.
Import JS ErrorHandler UseGameState.

(** [{ angry: 10, anger: 20 }] and [{ Anger: 15, Angry: 25 }]. *)
Definition raw_angry_anger : value :=
  VObj [("angry", VNum (of_Z 10)); ("anger", VNum (of_Z 20))].

Definition raw_Anger_Angry : value :=
  VObj [("Anger", VNum (of_Z 15)); ("Angry", VNum (of_Z 25))].

(** A vector whose [happy] is 50.5, and one with an eighth field. *)
Definition emotion_with_half : value :=
  VObj [("angry", VNum (of_Z 10)); ("disgust", VNum (of_Z 20));
        ("fear", VNum (of_Z 30)); ("happy", VNum (Fin (101 # 2)));
        ("sad", VNum (of_Z 50)); ("surprise", VNum (of_Z 60));
        ("neutral", VNum (of_Z 70))].

Definition emotion_with_extra_field : value :=
  VObj [("angry", VNum (of_Z 10)); ("disgust", VNum (of_Z 20));
        ("fear", VNum (of_Z 30)); ("happy", VNum (of_Z 40));
        ("sad", VNum (of_Z 50)); ("surprise", VNum (of_Z 60));
        ("neutral", VNum (of_Z 70)); ("joy", VNum (of_Z 5))].

Definition emotion_with_NaN : value :=
  VObj [("angry", VNum (of_Z 10)); ("disgust", VNum (of_Z 20));
        ("fear", VNum (of_Z 30)); ("happy", VNum NaN);
        ("sad", VNum (of_Z 50)); ("surprise", VNum (of_Z 60));
        ("neutral", VNum (of_Z 70))].

Definition emotion_valid : value :=
  VObj [("angry", VNum (of_Z 10)); ("disgust", VNum (of_Z 20));
        ("fear", VNum (of_Z 30)); ("happy", VNum (of_Z 40));
        ("sad", VNum (of_Z 50)); ("surprise", VNum (of_Z 60));
        ("neutral", VNum (of_Z 70))].

(** A world that is only a clock, and an operation that fails with a
    500 whenever it is invoked. *)
Definition clock_sleep (delay : Z) (clock : Z) : Z := clock + delay.

Definition always_down (clock : Z) : outcome unit * Z :=
  (Rejected (ApiError "Server error" (Some 500)), clock).

(** An operation that fails with a network error until a wait has
    moved the clock, and one that is always refused. *)
Definition flaky (clock : Z) : outcome Z * Z :=
  if clock =? 0 then (Rejected (ApiError "Network failed" None), clock)
  else (Resolved 7, clock).

Definition unauthorized (clock : Z) : outcome Z * Z :=
  (Rejected (ApiError "Unauthorized" (Some 401)), clock).

(** The request of the end-to-end scenarios, a token and a world in
    which nothing has been sent yet. *)
Definition brave_fantasy : CreateGameRequest.t :=
  {| CreateGameRequest.personality := "brave";
     CreateGameRequest.genre := "fantasy";
     CreateGameRequest.playtime := 30 |}.

Definition token : option string := Some "test-token".

Definition world0 : World := {| now := 1000; requests := [] |}.

Definition dialogue_scene (id : Z) (line : string) : SceneData.t :=
  {| SceneData.role := "narrator";
     SceneData.scene_id := id;
     SceneData.type := "dialogue";
     SceneData.dialogue := Some line;
     SceneData.selections := None;
     SceneData.character_filename := None |}.

Definition game_with (sessions : option (list SessionData.t)) : CreateGameResponse.t :=
  {| CreateGameResponse.game_id := 123;
     CreateGameResponse.personality := "brave";
     CreateGameResponse.genre := "fantasy";
     CreateGameResponse.title := "Epic Adventure";
     CreateGameResponse.playtime := 30;
     CreateGameResponse.sessions := sessions |}.

Definition not_found {A : Type} : outcome A := Rejected (ApiError "Not found" (Some 404)).

(** Scenario D: the game is created with [sessions: []]. *)
Definition backend_no_sessions : Backend :=
  {| on_createGame := fun _ _ _ => Resolved (game_with (Some []));
     on_generateNextScene := fun _ _ _ _ _ _ => not_found;
     on_generateSceneAfterSelection := fun _ _ _ _ _ _ _ => not_found;
     latency := fun _ => 40 |}.

(** Scenario A: the game is created with one session of two dialogue
    scenes; a later advance is answered with one new scene. *)
Definition first_session : SessionData.t :=
  {| SessionData.session_id := 1;
     SessionData.content := "Session 1 content";
     SessionData.scenes := [dialogue_scene 1 "Welcome!"; dialogue_scene 2 "Go on."];
     SessionData.background_url := None |}.

Definition next_session : NextSceneResponse.t :=
  {| NextSceneResponse.session_id := 1;
     NextSceneResponse.content := "Session 1 content";
     NextSceneResponse.scenes := Some [dialogue_scene 3 "Further."];
     NextSceneResponse.background_url := None |}.

Definition backend_two_scenes : Backend :=
  {| on_createGame := fun _ _ _ => Resolved (game_with (Some [first_session]));
     on_generateNextScene := fun _ _ _ _ _ _ => Resolved next_session;
     on_generateSceneAfterSelection := fun _ _ _ _ _ _ _ => not_found;
     latency := fun _ => 40 |}.

(** The hook and the world after the game of scenario A was created:
    two scenes in the buffer, the index at 0. *)
Definition hook_two_scenes : Hook :=
  {| gameState :=
       {| gameId := Some 123;
          sessionId := Some 1;
          currentSceneId := Some 1;
          scenes := [dialogue_scene 1 "Welcome!"; dialogue_scene 2 "Go on."];
          currentSceneIndex := 0;
          backgroundUrl := None;
          isLoading := false;
          error := None |};
     timeTracker := GameTimeTracker.start 1040 GameTimeTracker.new |}.

Definition world_two_scenes : World :=
  {| now := 1040; requests := [CreateGame brave_fantasy "test-token"] |}.

(** An advance from the last scene that is answered with no scene. *)
Definition empty_session : NextSceneResponse.t :=
  {| NextSceneResponse.session_id := 1;
     NextSceneResponse.content := "Session 1 content";
     NextSceneResponse.scenes := Some [];
     NextSceneResponse.background_url := None |}.

Definition backend_no_scene : Backend :=
  {| on_createGame := fun _ _ _ => not_found;
     on_generateNextScene := fun _ _ _ _ _ _ => Resolved empty_session;
     on_generateSceneAfterSelection := fun _ _ _ _ _ _ _ => not_found;
     latency := fun _ => 40 |}.

Definition hook_last_scene : Hook :=
  {| gameState :=
       {| gameId := Some 123;
          sessionId := Some 1;
          currentSceneId := Some 3;
          scenes := [dialogue_scene 3 "Further."];
          currentSceneIndex := 0;
          backgroundUrl := None;
          isLoading := false;
          error := None |};
     timeTracker := GameTimeTracker.start 1040 GameTimeTracker.new |}.

(** Scenario C: the current scene offers the choices 1 and 2. *)
Definition choice_scene : SceneData.t :=
  {| SceneData.role := "player";
     SceneData.scene_id := 5;
     SceneData.type := "selections";
     SceneData.dialogue := None;
     SceneData.selections := Some [("1", "Go left"); ("2", "Go right")];
     SceneData.character_filename := None |}.

Definition hook_choice : Hook :=
  {| gameState :=
       {| gameId := Some 123;
          sessionId := Some 1;
          currentSceneId := Some 5;
          scenes := [choice_scene];
          currentSceneIndex := 0;
          backgroundUrl := None;
          isLoading := false;
          error := None |};
     timeTracker := GameTimeTracker.start 1040 GameTimeTracker.new |}.

Definition backend_after_choice : Backend :=
  {| on_createGame := fun _ _ _ => not_found;
     on_generateNextScene := fun _ _ _ _ _ _ => not_found;
     on_generateSceneAfterSelection := fun _ _ _ _ _ _ _ => Resolved next_session;
     latency := fun _ => 40 |}.

Definition happy_emotion : EmotionUtils.EmotionData :=
  EmotionUtils.normalizeEmotionData (VObj [("happy", VNum (of_Z 100))]).

Definition page0 : GamePage.PageState :=
  {| GamePage.currentSceneIndex := 0;
     GamePage.dialogueLog := [];
     GamePage.error := None |}.

End Examples.

(* ================================================================== *)
(** * Further concrete inputs *)
(* ================================================================== *)

Module MoreExamples.
Import JS ErrorHandler UseGameState.

(** [{ angry: 'not a number', happy: 50, sad: null }]. *)
Definition raw_with_strings : value :=
  VObj [("angry", VStr "not a number"); ("happy", VNum (of_Z 50)); ("sad", VNull)].

(** A session with one dialogue scene, and a selection scene that
    offers nothing. *)
Definition one_scene_session : SessionData.t :=
  {| SessionData.session_id := 7;
     SessionData.content := "Content";
     SessionData.scenes := [Examples.dialogue_scene 1 "Hello"];
     SessionData.background_url := Some "bg.png" |}.

Definition empty_choice_scene : SceneData.t :=
  {| SceneData.role := "player";
     SceneData.scene_id := 9;
     SceneData.type := "selections";
     SceneData.dialogue := None;
     SceneData.selections := Some [];
     SceneData.character_filename := None |}.

(** A game whose first session has a valid first scene and a second
    scene of an unknown type. *)
Definition odd_scene : SceneData.t :=
  {| SceneData.role := "narrator";
     SceneData.scene_id := 2;
     SceneData.type := "cutscene";
     SceneData.dialogue := None;
     SceneData.selections := None;
     SceneData.character_filename := None |}.

Definition bad_session : SessionData.t :=
  {| SessionData.session_id := 1;
     SessionData.content := "Session 1 content";
     SessionData.scenes := [Examples.dialogue_scene 1 "Welcome!"; odd_scene];
     SessionData.background_url := None |}.

Definition backend_bad_session : Backend :=
  {| on_createGame := fun _ _ _ => Resolved (Examples.game_with (Some [bad_session]));
     on_generateNextScene := fun _ _ _ _ _ _ => Examples.not_found;
     on_generateSceneAfterSelection := fun _ _ _ _ _ _ _ => Examples.not_found;
     latency := fun _ => 40 |}.

Definition world_after_one_request : World :=
  {| now := 1040; requests := [CreateGame Examples.brave_fantasy "test-token"] |}.

Definition hook_after_bad_session : Hook :=
  {| gameState :=
       {| gameId := None;
          sessionId := None;
          currentSceneId := None;
          scenes := [];
          currentSceneIndex := 0;
          backgroundUrl := None;
          isLoading := false;
          error := Some (getErrorMessage UNKNOWN_ERROR) |};
     timeTracker := GameTimeTracker.new |}.


Definition after_advance : Hook * World :=
  match proceedToNextScene Examples.backend_two_scenes Examples.token None
          Examples.hook_two_scenes Examples.world_two_scenes with
  | Some (_, h, w) => (h, w)
  | None => (Examples.hook_two_scenes, Examples.world_two_scenes)
  end.

(** A form whose personality is an ideographic space and a tab. *)
Definition blank_form : CreateGameRequest.t :=
  {| CreateGameRequest.personality := "　	";
     CreateGameRequest.genre := "fantasy";
     CreateGameRequest.playtime := 30 |}.

Definition setup0 : GamePageSetup.SetupState :=
  {| GamePageSetup.error := None;
     GamePageSetup.isCreatingGame := false;
     GamePageSetup.showStartConfirm := false |}.

End MoreExamples.

(* ================================================================== *)
(** * Numbers *)
(* ================================================================== *)

Section Numbers.
Import JS.

Lemma Math_min_Fin (a b : Q) :
  Math_min (Fin a) (Fin b) = if Qle_bool a b then Fin a else Fin b.
Proof. unfold Math_min, lt. now destruct (Qle_bool a b). Qed.

Lemma Math_max_Fin (a b : Q) :
  Math_max (Fin a) (Fin b) = if Qle_bool b a then Fin a else Fin b.
Proof. unfold Math_max, lt. now destruct (Qle_bool b a). Qed.

Lemma Qle_bool_inject_Z (a b : Z) : Qle_bool (inject_Z a) (inject_Z b) = (a <=? b).
Proof. unfold Qle_bool, inject_Z; simpl. now rewrite !Z.mul_1_r. Qed.

Lemma Math_min_of_Z (a b : Z) : Math_min (of_Z a) (of_Z b) = of_Z (Z.min a b).
Proof.
  unfold of_Z. rewrite Math_min_Fin, Qle_bool_inject_Z.
  destruct (Z.leb_spec a b); do 2 f_equal; lia.
Qed.

Lemma Math_max_of_Z (a b : Z) : Math_max (of_Z a) (of_Z b) = of_Z (Z.max a b).
Proof.
  unfold of_Z. rewrite Math_max_Fin, Qle_bool_inject_Z.
  destruct (Z.leb_spec b a); do 2 f_equal; lia.
Qed.

Lemma Qle_bool_false (a b : Q) : Qle_bool a b = false -> (b < a)%Q.
Proof.
  intros H. apply Qnot_le_lt. intros Hc. apply Qle_bool_iff in Hc. congruence.
Qed.

Lemma of_Z_inj (a b : Z) : of_Z a = of_Z b -> a = b.
Proof. unfold of_Z, inject_Z. intros H. now inversion H. Qed.

(** [Math.round] of a rational below one half is at most 0, and so on:
    the facts about [Qfloor (q + 1/2)] that clamping needs. *)
Lemma round_nonpos (q : Q) : (q <= 0)%Q -> Qfloor (q + (1 # 2)) <= 0.
Proof.
  intros H.
  assert (Hle : (q + (1 # 2) <= 1 # 2)%Q).
  { rewrite <- (Qplus_0_l (1 # 2)) at 2. apply Qplus_le_compat; [exact H | apply Qle_refl]. }
  apply Qfloor_resp_le in Hle. now vm_compute (Qfloor (1 # 2)) in Hle.
Qed.

Lemma round_nonneg (q : Q) : (0 <= q)%Q -> 0 <= Qfloor (q + (1 # 2)).
Proof.
  intros H.
  assert (Hle : (0 + (1 # 2) <= q + (1 # 2))%Q).
  { apply Qplus_le_compat; [exact H | apply Qle_refl]. }
  apply Qfloor_resp_le in Hle. now vm_compute (Qfloor (0 + (1 # 2))) in Hle.
Qed.

Lemma round_at_most_100 (q : Q) : (q <= 100)%Q -> Qfloor (q + (1 # 2)) <= 100.
Proof.
  intros H.
  assert (Hle : (q + (1 # 2) <= 100 + (1 # 2))%Q).
  { apply Qplus_le_compat; [exact H | apply Qle_refl]. }
  apply Qfloor_resp_le in Hle. now vm_compute (Qfloor (100 + (1 # 2))) in Hle.
Qed.

Lemma round_at_least_100 (q : Q) : (100 <= q)%Q -> 100 <= Qfloor (q + (1 # 2)).
Proof.
  intros H.
  assert (Hle : (100 + (1 # 2) <= q + (1 # 2))%Q).
  { apply Qplus_le_compat; [exact H | apply Qle_refl]. }
  apply Qfloor_resp_le in Hle. now vm_compute (Qfloor (100 + (1 # 2))) in Hle.
Qed.

End Numbers.

(* ================================================================== *)
(** * The emotion normaliser *)
(* ================================================================== *)

Section EmotionProperties.
Import JS EmotionUtils.

Lemma clampEmotionValue_Fin (q : Q) :
  clampEmotionValue (Fin q) = of_Z (Z.max 0 (Z.min 100 (Qfloor (q + (1 # 2))))).
Proof.
  unfold clampEmotionValue. cbn [Math_round].
  now rewrite Math_min_of_Z, Math_max_of_Z.
Qed.

Lemma Spec_clamp_Fin (q : Q) :
  Spec.clamp (Fin q) = of_Z (Z.max 0 (Z.min 100 (Qfloor (q + (1 # 2))))).
Proof.
  unfold Spec.clamp, of_Z. rewrite Math_max_Fin.
  destruct (Qle_bool q (inject_Z 0)) eqn:H0.
  - (* q <= 0 *)
    apply Qle_bool_iff in H0. pose proof (round_nonpos q H0).
    rewrite Math_min_Fin. change (Qle_bool (inject_Z 100) (inject_Z 0)) with false.
    cbn [Math_round]. change (Qfloor (inject_Z 0 + (1 # 2))) with 0.
    unfold of_Z. do 2 f_equal. lia.
  - (* 0 < q *)
    apply Qle_bool_false in H0. apply Qlt_le_weak in H0.
    pose proof (round_nonneg q H0).
    rewrite Math_min_Fin.
    destruct (Qle_bool (inject_Z 100) q) eqn:H100; cbn [Math_round].
    + apply Qle_bool_iff in H100. pose proof (round_at_least_100 q H100).
      change (Qfloor (inject_Z 100 + (1 # 2))) with 100.
      unfold of_Z. do 2 f_equal. lia.
    + apply Qle_bool_false in H100. apply Qlt_le_weak in H100.
      pose proof (round_at_most_100 q H100).
      unfold of_Z. do 2 f_equal. lia.
Qed.

(** For every number that is not [NaN], the round-then-clamp of the
    code is the clamp-then-round of the specification, and the result
    is an integer between 0 and 100. *)
Lemma clampEmotionValue_agrees (value : number) :
  value <> NaN ->
  clampEmotionValue value = Spec.clamp value
  /\ Spec.percent_integer (clampEmotionValue value).
Proof.
  intros Hnan. destruct value as [ | | | q].
  - congruence.
  - split; [reflexivity | exists 100; split; [reflexivity | lia]].
  - split; [reflexivity | exists 0; split; [reflexivity | lia]].
  - rewrite clampEmotionValue_Fin, Spec_clamp_Fin. split; [reflexivity | ].
    eexists; split; [reflexivity | lia].
Qed.

(** The examples of the specification: a negative number gives 0,
    150 gives 100, and 50.5 gives 51. *)
Lemma clampEmotionValue_examples :
  (forall q : Q, (q < 0)%Q -> clampEmotionValue (Fin q) = of_Z 0)
  /\ clampEmotionValue (of_Z 150) = of_Z 100
  /\ clampEmotionValue (Fin (101 # 2)) = of_Z 51.
Proof.
  repeat split; try reflexivity.
  intros q Hq. rewrite clampEmotionValue_Fin.
  pose proof (round_nonpos q (Qlt_le_weak _ _ Hq)). f_equal. lia.
Qed.

(** C9. [clampEmotionValue(NaN)] is [NaN]: [Math.round], [Math.min]
    and [Math.max] all propagate it, so the result is not an integer
    between 0 and 100, although the function is documented to return
    a value in that range for every number. *)
Theorem clampEmotionValue_NaN :
  clampEmotionValue NaN = NaN
  /\ ~ Spec.percent_integer (clampEmotionValue NaN).
Proof.
  split; [reflexivity | ].
  intros [z [Hz _]]. discriminate Hz.
Qed.

(** The first alias bound to a number decides a field. *)
Lemma getEmotionValue_first_numeric (raw : value) (before after : list string)
    (key : string) (n : number) :
  (forall k, In k before -> forall m, get raw k <> VNum m) ->
  get raw key = VNum n ->
  getEmotionValue raw (before ++ key :: after) = clampEmotionValue n.
Proof.
  intros Hbefore Hkey. induction before as [ | k before IH]; simpl.
  - now rewrite Hkey.
  - destruct (get raw k) eqn:Hk;
      try (apply IH; intros k' Hin; apply Hbefore; now right).
    exfalso. apply (Hbefore k (or_introl eq_refl) n0). exact Hk.
Qed.

(** C6, as stated, fails: [normalize({Anger:15, Angry:25})] has
    [angry = 25], not 15, because ['Angry'] comes before ['Anger'] in
    the list of aliases. *)
Lemma normalize_Anger_Angry_not_15 :
  angry (normalizeEmotionData Examples.raw_Anger_Angry) = of_Z 25
  /\ angry (normalizeEmotionData Examples.raw_Anger_Angry) <> of_Z 15.
Proof.
  split; [reflexivity | ].
  intros H. apply of_Z_inj in H. discriminate H.
Qed.

(** Each field of the vector that an object normalises to is
    [getEmotionValue] of the aliases the code lists for it. *)
Lemma normalizeEmotionData_object (raw : value) :
  Props.is_object raw = true ->
  forall proj keys, In (proj, keys) Props.alias_table ->
    proj (normalizeEmotionData raw) = getEmotionValue raw keys.
Proof.
  intros Hobj proj keys Hin.
  assert (Hn : normalizeEmotionData raw
               = {| angry := getEmotionValue raw ["angry"; "anger"; "Angry"; "Anger"];
                    disgust := getEmotionValue raw ["disgust"; "Disgust"];
                    fear := getEmotionValue raw ["fear"; "Fear"];
                    happy := getEmotionValue raw ["happy"; "happiness"; "Happy"; "Happiness"];
                    sad := getEmotionValue raw ["sad"; "sadness"; "Sad"; "Sadness"];
                    surprise :=
                      getEmotionValue raw ["surprise"; "surprised"; "Surprise"; "Surprised"];
                    neutral := getEmotionValue raw ["neutral"; "Neutral"] |}).
  { destruct raw; try discriminate Hobj; reflexivity. }
  rewrite Hn. simpl in Hin.
  repeat (destruct Hin as [Hin | Hin]; [injection Hin as <- <-; reflexivity | ]).
  destruct Hin.
Qed.

(** C6, amended. Each of the seven fields is resolved by trying its
    aliases in the order the code lists them (for [angry]: ['angry'],
    ['anger'], ['Angry'], ['Anger']), the first alias bound to a
    number winning, whatever the aliases before it are bound to and
    whatever the aliases after it are; [normalize({angry:10,
    anger:20})] has [angry = 10] and [normalize({Anger:15, Angry:25})]
    has [angry = 25]. *)
Theorem normalize_alias_priority :
  (forall (fields : list (string * value))
          (field : EmotionData -> number) (aliases : list string)
          (before after : list string) (key : string) (n : number),
      In (field, aliases)
         [(angry, ["angry"; "anger"; "Angry"; "Anger"]);
          (disgust, ["disgust"; "Disgust"]);
          (fear, ["fear"; "Fear"]);
          (happy, ["happy"; "happiness"; "Happy"; "Happiness"]);
          (sad, ["sad"; "sadness"; "Sad"; "Sadness"]);
          (surprise, ["surprise"; "surprised"; "Surprise"; "Surprised"]);
          (neutral, ["neutral"; "Neutral"])] ->
      aliases = before ++ key :: after ->
      (forall k, In k before -> forall m, get (VObj fields) k <> VNum m) ->
      get (VObj fields) key = VNum n ->
      field (normalizeEmotionData (VObj fields)) = clampEmotionValue n)
  /\ angry (normalizeEmotionData Examples.raw_angry_anger) = of_Z 10
  /\ angry (normalizeEmotionData Examples.raw_Anger_Angry) = of_Z 25.
Proof.
  split; [ | split; reflexivity].
  intros fields field aliases before after key n Hin Hkeys Hbefore Hkey.
  rewrite (normalizeEmotionData_object (VObj fields) eq_refl field aliases Hin).
  rewrite Hkeys. now apply getEmotionValue_first_numeric.
Qed.

(** The priority rule at [{ Anger: 15, Angry: 25 }], where ['Angry']
    is the first alias of [angry] bound to a number, and at
    [{ happy: 'no', Happy: 150, Happiness: 3 }], where ['Happy'] is
    the first alias of [happy] bound to a number. *)
Lemma normalize_alias_priority_witness :
  angry (normalizeEmotionData Examples.raw_Anger_Angry) = clampEmotionValue (of_Z 25)
  /\ happy (normalizeEmotionData
              (VObj [("happy", VStr "no"); ("Happy", VNum (of_Z 150));
                     ("Happiness", VNum (of_Z 3))]))
     = clampEmotionValue (of_Z 150).
Proof.
  split.
  - apply (proj1 normalize_alias_priority
             [("Anger", VNum (of_Z 15)); ("Angry", VNum (of_Z 25))]
             angry ["angry"; "anger"; "Angry"; "Anger"]
             ["angry"; "anger"] ["Anger"] "Angry" (of_Z 25)).
    + simpl. tauto.
    + reflexivity.
    + intros k [Hk | [Hk | []]] m; subst k; discriminate.
    + reflexivity.
  - apply (proj1 normalize_alias_priority
             [("happy", VStr "no"); ("Happy", VNum (of_Z 150));
              ("Happiness", VNum (of_Z 3))]
             happy ["happy"; "happiness"; "Happy"; "Happiness"]
             ["happy"; "happiness"] ["Happiness"] "Happy" (of_Z 150)).
    + simpl. tauto.
    + reflexivity.
    + intros k [Hk | [Hk | []]] m; subst k; discriminate.
    + reflexivity.
Defined.

End EmotionProperties.

(* ================================================================== *)
(** * The error classifier and the validators *)
(* ================================================================== *)

Section ClassifierProperties.
Import JS ErrorHandler.

(** C4, as stated, fails: a [TypeError] whose message speaks of a
    failed fetch, and which carries no status, is classified as
    [NETWORK_ERROR], not as [UNKNOWN_ERROR]. *)
Lemma classify_fetch_TypeError_is_network :
  classifyApiError (TypeError "Failed to fetch") = NETWORK_ERROR
  /\ classifyApiError (TypeError "Failed to fetch") <> UNKNOWN_ERROR.
Proof. split; [reflexivity | discriminate]. Qed.

(** C4, amended. A [TypeError] whose message contains ["fetch"] is
    classified as [NETWORK_ERROR], like an [ApiError] without status;
    [UNKNOWN_ERROR] is the class of every failure that is neither an
    [ApiError] nor such a [TypeError]. *)
Theorem classifyApiError_without_status :
  (forall message, includes message "fetch" = true ->
     classifyApiError (TypeError message) = NETWORK_ERROR)
  /\ (forall message, classifyApiError (ApiError message None) = NETWORK_ERROR)
  /\ (forall error,
        (forall message status, error <> ApiError message status) ->
        (forall message, error = TypeError message -> includes message "fetch" = false) ->
        classifyApiError error = UNKNOWN_ERROR).
Proof.
  repeat split.
  - intros message H. unfold classifyApiError. cbn. now rewrite H.
  - intros error Hapi Htype. destruct error as [m s | m | m c | m | v];
      try reflexivity.
    + now destruct (Hapi m s).
    + unfold classifyApiError. cbn. now rewrite (Htype m eq_refl).
Qed.

(** The classes of [new TypeError('fetch failed')] and of
    [new Error('Unknown')]. *)
Lemma classifyApiError_without_status_witness :
  classifyApiError (TypeError "fetch failed") = NETWORK_ERROR
  /\ classifyApiError (Error "Unknown") = UNKNOWN_ERROR.
Proof.
  split.
  - apply (proj1 classifyApiError_without_status "fetch failed"). reflexivity.
  - apply (proj2 (proj2 classifyApiError_without_status) (Error "Unknown")).
    + intros message status. discriminate.
    + intros message H. discriminate H.
Defined.

(** The classes of an [ApiError] that has a status, in the order of
    the tests. *)
Lemma classifyApiError_status (message : string) (s : Z) :
  s <> 0 ->
  classifyApiError (ApiError message (Some s)) =
    if (s =? 401) || (s =? 403) then AUTH_ERROR
    else if (s =? 422) || (s =? 400) then VALIDATION_ERROR
    else if s >=? 500 then SERVER_ERROR
    else UNKNOWN_ERROR.
Proof.
  intros Hs. unfold classifyApiError, classify_ApiError_block, no_status.
  destruct (Z.eqb_spec s 0); [contradiction | ].
  destruct ((s =? 401) || (s =? 403)); [reflexivity | ].
  destruct ((s =? 422) || (s =? 400)); [reflexivity | ].
  now destruct (s >=? 500).
Qed.

(** A structural failure of the engine carries its own code, but the
    classifier has no case for it. *)
Lemma handleApiError_GameStateError (message : string) (code : GameErrorCode) :
  handleApiError (GameStateError message code) = getErrorMessage UNKNOWN_ERROR.
Proof. reflexivity. Qed.

End ClassifierProperties.

Section ValidatorProperties.
Import JS ErrorHandler.

(** A value that the loop body rejects and that is no finite number. *)
Ltac not_a_finite_number :=
  split; [discriminate | intros [? [Hfin _]]; discriminate Hfin].

Lemma value_eq_NaN_dec (v : value) : v = VNum NaN \/ v <> VNum NaN.
Proof.
  destruct v as [ | | b | n | s | items | fields]; try (right; discriminate).
  destruct n; try (right; discriminate). now left.
Qed.

Lemma emotion_field_accepted (v : value) :
  v <> VNum NaN ->
  (emotion_field_rejected v = false
   <-> exists q : Q, v = VNum (Fin q) /\ (0 <= q <= 100)%Q).
Proof.
  intros Hnan. destruct v as [ | | b | n | s | items | fields];
    try not_a_finite_number.
  destruct n as [ | | | q].
  - congruence.
  - not_a_finite_number.
  - not_a_finite_number.
  - unfold emotion_field_rejected, gt, lt, of_Z.
    change (inject_Z 0) with 0%Q. change (inject_Z 100) with 100%Q.
    split.
    + intros H. apply orb_false_iff in H. destruct H as [H0 H100].
      apply negb_false_iff in H0, H100. apply Qle_bool_iff in H0, H100.
      exists q. auto.
    + intros [q' [Hq [H0 H100]]]. injection Hq as <-.
      apply Qle_bool_iff in H0, H100. now rewrite H0, H100.
Qed.

(** C5, as stated, fails: a vector whose [happy] is 50.5 passes
    [validateEmotionData], and so does a vector with an eighth
    field. *)
Lemma validateEmotionData_accepts_half_and_extra :
  validateEmotionData Examples.emotion_with_half = true
  /\ get Examples.emotion_with_half "happy" = VNum (Fin (101 # 2))
  /\ validateEmotionData Examples.emotion_with_extra_field = true
  /\ get Examples.emotion_with_extra_field "joy" = VNum (of_Z 5).
Proof. repeat split. Qed.

(** The loop body accepts a value exactly when it is a number that
    is neither below 0 nor above 100: a finite number between 0 and
    100, or [NaN], for which both comparisons are false. *)
Lemma emotion_field_accepted_or_NaN (v : value) :
  emotion_field_rejected v = false
  <-> v = VNum NaN
      \/ exists q : Q, v = VNum (Fin q) /\ (0 <= q <= 100)%Q.
Proof.
  destruct (value_eq_NaN_dec v) as [-> | Hnan].
  - split; [now left | reflexivity].
  - rewrite (emotion_field_accepted v Hnan). split; [now right | ].
    intros [H | H]; [contradiction | exact H].
Qed.

(** C5, amended. [validateEmotionData] returns true if and only if
    its input is an object in which each of the seven canonical
    fields is of type number and is neither below 0 nor above 100,
    that is, a number between 0 and 100 inclusive, integer or not, or
    [NaN]; other fields are not looked at. *)
Theorem validateEmotionData_iff (emotion : value) :
  validateEmotionData emotion = true
  <-> (exists fields, emotion = VObj fields)
      /\ forall field, In field requiredFields ->
           get emotion field = VNum NaN
           \/ exists q : Q, get emotion field = VNum (Fin q) /\ (0 <= q <= 100)%Q.
Proof.
  destruct emotion as [ | | b | n | s | items | fields];
    try (split; [discriminate | intros [[fs Hfs] _]; discriminate Hfs]).
  - (* a boolean *)
    split; [destruct b; discriminate | intros [[fs Hfs] _]; discriminate Hfs].
  - (* a number *)
    split; [ | intros [[fs Hfs] _]; discriminate Hfs].
    unfold validateEmotionData. destruct (truthy (VNum n)); discriminate.
  - (* a string *)
    split; [ | intros [[fs Hfs] _]; discriminate Hfs].
    unfold validateEmotionData. destruct (truthy (VStr s)); discriminate.
  - (* an object *)
    unfold validateEmotionData. cbn [truthy typeof negb orb].
    change ("object" === "object") with true. cbn [negb].
    rewrite forallb_forall. split.
    + intros H. split; [now exists fields | ].
      intros field Hin. apply emotion_field_accepted_or_NaN.
      apply negb_true_iff. now apply H.
    + intros [_ H] field Hin. apply negb_true_iff.
      apply emotion_field_accepted_or_NaN. now apply H.
Qed.

(** The characterisation at the vector whose [happy] is [NaN]: it
    passes. *)
Lemma validateEmotionData_iff_witness :
  validateEmotionData Examples.emotion_with_NaN = true.
Proof.
  apply (proj2 (validateEmotionData_iff Examples.emotion_with_NaN)).
  split; [now eexists | ].
  intros field Hin. simpl in Hin.
  destruct Hin as [<- | [<- | [<- | [<- | [<- | [<- | [<- | []]]]]]]];
    try (right; eexists; split; [reflexivity | split; discriminate]).
  left. reflexivity.
Defined.

(** The validator cases that the specification lists. *)
Example validateSceneData_selection_without_choices :
  validateSceneData
    (VObj [("scene_id", VNum (of_Z 2)); ("type", VStr "selections");
           ("role", VStr "player")]) = false.
Proof. reflexivity. Qed.

Example validateSceneData_numeric_dialogue :
  validateSceneData
    (VObj [("scene_id", VNum (of_Z 1)); ("type", VStr "dialogue");
           ("role", VStr "narrator"); ("dialogue", VNum (of_Z 5))]) = false.
Proof. reflexivity. Qed.

Example validateSceneData_empty_choices :
  validateSceneData
    (VObj [("scene_id", VNum (of_Z 2)); ("type", VStr "selection");
           ("role", VStr "player"); ("selections", VObj [])]) = true.
Proof. reflexivity. Qed.

Example validateSessionData_no_scene :
  validateSessionData
    (VObj [("session_id", VNum (of_Z 1)); ("content", VStr "Content");
           ("scenes", VArr [])]) = false.
Proof. reflexivity. Qed.

Example validateEmotionData_cases :
  validateEmotionData Examples.emotion_valid = true
  /\ validateEmotionData VNull = false
  /\ validateEmotionData VUndefined = false
  /\ validateEmotionData (VObj [("angry", VNum (of_Z 10)); ("disgust", VNum (of_Z 20))])
     = false.
Proof. repeat split. Qed.

End ValidatorProperties.

(* ================================================================== *)
(** * The elapsed-time accumulator *)
(* ================================================================== *)

Section TrackerProperties.
Import GameTimeTracker.

Lemma step_represents (this : t) (p : Spec.phase) (c : call) :
  Spec.represents this p -> Spec.represents (step this c) (Spec.phase_step p c).
Proof.
  intros H. destruct c as [now | now | now | ]; destruct p as [ | since active | active];
    simpl in *.
  all: try (exists now; repeat split; lia).
  all: try (split; reflexivity).
  - destruct H as [Hs Hp]. unfold pause. rewrite Hs. auto.
  - destruct H as [s [Hs [Hp Ha]]]. unfold pause. rewrite Hs, Hp. simpl.
    exists s, now. repeat split; auto. lia.
  - destruct H as [s [p0 [Hs [Hp Ha]]]]. unfold pause. rewrite Hs, Hp.
    exists s, p0. auto.
  - destruct H as [Hs Hp]. unfold resume. rewrite Hp. auto.
  - destruct H as [s [Hs [Hp Ha]]]. unfold resume. rewrite Hp. exists s. auto.
  - destruct H as [s [p0 [Hs [Hp Ha]]]]. unfold resume. rewrite Hp. simpl.
    exists s. repeat split; auto. lia.
Qed.

Lemma fold_represents (calls : list call) (this : t) (p : Spec.phase) :
  Spec.represents this p ->
  Spec.represents (fold_left step calls this) (fold_left Spec.phase_step calls p).
Proof.
  revert this p. induction calls as [ | c calls IH]; intros this p H; simpl.
  - exact H.
  - apply IH. now apply step_represents.
Qed.

Lemma run_represents (calls : list call) :
  Spec.represents (run calls) (Spec.phase_after calls).
Proof. apply fold_represents. simpl. auto. Qed.

Lemma getElapsedSeconds_represents (this : t) (p : Spec.phase) (now : Z) :
  Spec.represents this p ->
  fst (getElapsedSeconds now this) = Spec.active_ms now p / 1000.
Proof.
  unfold getElapsedSeconds. destruct p as [ | since active | active]; simpl.
  - intros [Hs _]. now rewrite Hs.
  - intros [s [Hs [Hp Ha]]]. rewrite Hs, Hp. simpl. f_equal. lia.
  - intros [s [p0 [Hs [Hp Ha]]]]. rewrite Hs, Hp. simpl. f_equal. lia.
Qed.

(** The active time never decreases as long as the instants do not go
    back: what the tracker reports is a duration. *)
Lemma active_ms_nonneg (calls : list call) (from : Z) (p : Spec.phase) (now : Z) :
  Spec.monotone from calls ->
  Spec.last_instant from calls <= now ->
  match p with
  | Spec.Unstarted => True
  | Spec.Running since active => since <= from /\ 0 <= active
  | Spec.Paused active => 0 <= active
  end ->
  0 <= Spec.active_ms now (fold_left Spec.phase_step calls p).
Proof.
  revert from p. induction calls as [ | c calls IH]; intros from p Hmono Hlast Hp.
  - simpl in *. destruct p; simpl; lia.
  - destruct c as [t0 | t0 | t0 | ]; simpl in Hmono, Hlast |- *.
    + apply (IH t0); [tauto | exact Hlast | simpl; lia].
    + apply (IH t0); [tauto | exact Hlast | destruct p; simpl; try tauto; lia].
    + apply (IH t0); [tauto | exact Hlast | destruct p; simpl; try tauto; lia].
    + apply (IH from); [exact Hmono | exact Hlast | exact I].
Qed.

(** C7. What [getElapsedSeconds] returns and that it leaves the
    tracker as it was; after any sequence of calls the result is the
    active (not paused) time of the specification's accumulator,
    floored to seconds, so that a query in the middle of a pause does
    not depend on the instant of the query; a second [pause()] in a
    row changes nothing; [resume()] of a tracker that is not paused
    changes nothing. *)
Theorem getElapsedSeconds_spec :
  (forall this now, startTime this = None -> getElapsedSeconds now this = (0, this))
  /\ (forall this now s,
        startTime this = Some s ->
        getElapsedSeconds now this =
          (((now - s) - pausedTime this
            - match lastPauseStart this with
              | Some p => now - p
              | None => 0
              end) / 1000,
           this))
  /\ (forall calls now,
        fst (getElapsedSeconds now (run calls))
        = Spec.active_ms now (Spec.phase_after calls) / 1000)
  /\ (forall calls now,
        Spec.monotone 0 calls -> Spec.last_instant 0 calls <= now ->
        0 <= fst (getElapsedSeconds now (run calls)))
  /\ (forall calls now now',
        lastPauseStart (run calls) <> None ->
        fst (getElapsedSeconds now (run calls))
        = fst (getElapsedSeconds now' (run calls)))
  /\ (forall this now now', pause now' (pause now this) = pause now this)
  /\ (forall this now, lastPauseStart this = None -> resume now this = this).
Proof.
  repeat split.
  - intros this now H. unfold getElapsedSeconds. now rewrite H.
  - intros this now s H. unfold getElapsedSeconds. now rewrite H.
  - intros calls now. apply getElapsedSeconds_represents, run_represents.
  - intros calls now Hmono Hlast.
    rewrite (getElapsedSeconds_represents _ _ now (run_represents calls)).
    apply Z.div_pos; [ | lia].
    apply (active_ms_nonneg calls 0); [exact Hmono | exact Hlast | exact I].
  - intros calls now now' Hpaused.
    pose proof (run_represents calls) as Hr.
    rewrite (getElapsedSeconds_represents _ _ now Hr).
    rewrite (getElapsedSeconds_represents _ _ now' Hr).
    destruct (Spec.phase_after calls) as [ | since active | active]; simpl in *.
    + reflexivity.
    + destruct Hr as [s [_ [Hp _]]]. congruence.
    + reflexivity.
  - intros this now now'. unfold pause.
    destruct (startTime this) eqn:Hs; [ | now rewrite Hs].
    destruct (lastPauseStart this) eqn:Hp; [now rewrite Hs, Hp | ].
    reflexivity.
  - intros this now H. unfold resume. now rewrite H.
Qed.

(** Five seconds after [start()]; a query in the middle of a pause;
    a run with two [pause()] in a row; a [resume()] without pause. *)
Lemma getElapsedSeconds_spec_witness :
  getElapsedSeconds 5000 (run [Start 0]) = (5, run [Start 0])
  /\ fst (getElapsedSeconds 20000 (run [Start 0; Pause 3000]))
     = fst (getElapsedSeconds 3000 (run [Start 0; Pause 3000]))
  /\ 0 <= fst (getElapsedSeconds 16000
                 (run [Start 0; Pause 3000; Pause 4000; Resume 13000]))
  /\ resume 7000 (run [Start 0]) = run [Start 0].
Proof.
  destruct getElapsedSeconds_spec as [_ [Hstarted [_ [Hpos [Hpaused [_ Hresume]]]]]].
  split; [ | split; [ | split]].
  - apply (Hstarted (run [Start 0]) 5000 0). reflexivity.
  - apply (Hpaused [Start 0; Pause 3000] 20000 3000). discriminate.
  - apply (Hpos [Start 0; Pause 3000; Pause 4000; Resume 13000] 16000).
    + simpl. lia.
    + simpl. lia.
  - apply (Hresume (run [Start 0]) 7000). reflexivity.
Defined.

(** Three seconds of play, ten seconds of pause with a second
    [pause()] in the middle, three more seconds of play: six seconds;
    and [reset()] then [start()] forgets them. *)
Example tracker_pause_is_not_counted :
  fst (getElapsedSeconds 16000 (run [Start 0; Pause 3000; Pause 4000; Resume 13000])) = 6
  /\ fst (getElapsedSeconds 8000 (run [Start 0; Pause 3000])) = 3
  /\ fst (getElapsedSeconds 999 (run [Start 0])) = 0
  /\ fst (getElapsedSeconds 21000
            (run [Start 0; Pause 3000; Resume 13000; Reset; Start 20000])) = 1.
Proof. repeat split. Qed.

End TrackerProperties.

(* ================================================================== *)
(** * The retry policy *)
(* ================================================================== *)

Section RetryProperties.
Import JS ErrorHandler.

Context {W T : Type}.
Variable sleep : Z -> W -> W.
Variable fn : W -> outcome T * W.

Lemma rethrow_test (e : thrown) :
  negb (GameErrorCode_eqb (classifyApiError e) NETWORK_ERROR)
  && negb (GameErrorCode_eqb (classifyApiError e) SERVER_ERROR)
  = negb (isRecoverableError e).
Proof. unfold isRecoverableError. now rewrite negb_orb. Qed.

(** The loop test fails before the fuel is looked at, so the fuel
    [Z.to_nat maxRetries] is never used up. *)
Lemma retry_loop_total (maxRetries initialDelay : Z) (fuel : nat) :
  forall attempt lastError w trace,
    (Z.to_nat (maxRetries - attempt) <= fuel)%nat ->
    exists r, retry_loop sleep fuel fn maxRetries initialDelay attempt lastError w trace
              = Some r.
Proof.
  induction fuel as [ | fuel IH]; intros attempt lastError w trace Hfuel; simpl.
  - destruct (Z.ltb_spec attempt maxRetries); [lia | eauto].
  - destruct (Z.ltb_spec attempt maxRetries); [ | eauto].
    destruct (fn w) as [[v | e] w1]; [eauto | ].
    destruct (_ && _); [eauto | ].
    destruct (attempt <? maxRetries - 1); apply IH; lia.
Qed.

Lemma retryWithBackoff_total (maxRetries initialDelay : Z) (w : W) :
  exists r, retryWithBackoff sleep fn maxRetries initialDelay w = Some r.
Proof. apply retry_loop_total. lia. Qed.


Lemma invocations_schedule (initialDelay attempt : Z) (k : nat) :
  Spec.invocations (Spec.schedule initialDelay attempt k) = Z.of_nat k + 1.
Proof.
  unfold Spec.invocations. revert attempt.
  induction k as [ | k IH]; intros attempt; [reflexivity | ].
  cbn [Spec.schedule filter length]. specialize (IH (attempt + 1)). lia.
Qed.





(** C10. With [maxRetries <= 0] the loop body never runs: the
    operation is not invoked, nothing is waited for, and the call
    rejects with the initial value of [lastError], [undefined]. *)
Theorem retryWithBackoff_no_attempt (maxRetries initialDelay : Z) (w : W) :
  maxRetries <= 0 ->
  retryWithBackoff sleep fn maxRetries initialDelay w
  = Some (Rejected (Other VUndefined), w, []).
Proof.
  intros Hmax. unfold retryWithBackoff.
  destruct (Z.to_nat maxRetries); simpl;
    destruct (Z.ltb_spec 0 maxRetries); try lia; reflexivity.
Qed.

(** No world is lost: whatever relation the operation and the waits
    keep, the whole call keeps, and when at least one attempt is
    allowed the operation has run once before anything else. *)
Section Invariant.

Variable R : W -> W -> Prop.
Hypothesis R_refl : forall w, R w w.
Hypothesis R_trans : forall a b c, R a b -> R b c -> R a c.
Hypothesis fn_R : forall w, R w (snd (fn w)).
Hypothesis sleep_R : forall delay w, R w (sleep delay w).

Lemma retry_loop_keeps (maxRetries initialDelay : Z) (fuel : nat) :
  forall attempt lastError w trace r w' trace',
    retry_loop sleep fuel fn maxRetries initialDelay attempt lastError w trace
    = Some (r, w', trace') ->
    R w w'.
Proof.
  induction fuel as [ | fuel IH]; intros attempt lastError w trace r w' trace' H;
    simpl in H.
  - destruct (attempt <? maxRetries); [discriminate | ].
    injection H as _ <- _. apply R_refl.
  - destruct (attempt <? maxRetries); [ | injection H as _ <- _; apply R_refl].
    pose proof (fn_R w) as Hfn.
    destruct (fn w) as [[v | e] w1]; simpl in Hfn.
    + injection H as _ <- _. exact Hfn.
    + destruct (_ && _); [injection H as _ <- _; exact Hfn | ].
      destruct (attempt <? maxRetries - 1); apply IH in H.
      * eapply R_trans; [exact Hfn | ]. eapply R_trans; [apply sleep_R | exact H].
      * eapply R_trans; [exact Hfn | exact H].
Qed.

Lemma retryWithBackoff_runs_first (maxRetries initialDelay : Z) (w : W) r w' trace :
  1 <= maxRetries ->
  retryWithBackoff sleep fn maxRetries initialDelay w = Some (r, w', trace) ->
  R (snd (fn w)) w'.
Proof.
  intros Hmax H. unfold retryWithBackoff in H.
  destruct (Z.to_nat maxRetries) as [ | fuel] eqn:Hfuel; [lia | ].
  simpl in H. destruct (Z.ltb_spec 0 maxRetries); [ | lia].
  destruct (fn w) as [[v | e] w1]; simpl.
  - injection H as _ <- _. apply R_refl.
  - destruct (_ && _); [injection H as _ <- _; apply R_refl | ].
    destruct (0 <? maxRetries - 1); apply retry_loop_keeps in H.
    + eapply R_trans; [apply sleep_R | exact H].
    + exact H.
Qed.

End Invariant.

End RetryProperties.

Section RetryWitnesses.
Import JS ErrorHandler.

(** A network failure followed by a success: the value is returned,
    the operation was invoked twice, with one wait of 1000 ms. *)
Example retry_flaky_then_success :
  retryWithBackoff Examples.clock_sleep Examples.flaky 3 1000 0
  = Some (Resolved 7, 1000, [Invoked 0; Waited 1000; Invoked 1]).
Proof. reflexivity. Qed.

(** An authentication failure is not retried. *)
Example retry_unauthorized_once :
  retryWithBackoff Examples.clock_sleep Examples.unauthorized 3 1000 0
  = Some (Rejected (ApiError "Unauthorized" (Some 401)), 0, [Invoked 0]).
Proof. reflexivity. Qed.


(** No attempt allowed: nothing happens. *)
Lemma retryWithBackoff_no_attempt_witness :
  retryWithBackoff Examples.clock_sleep Examples.always_down 0 1000 0
  = Some (Rejected (Other VUndefined), 0, []).
Proof.
  apply (retryWithBackoff_no_attempt Examples.clock_sleep Examples.always_down 0 1000 0).
  lia.
Defined.

End RetryWitnesses.

(* ================================================================== *)
(** * The session progression engine *)
(* ================================================================== *)

Section EngineProperties.
Import JS ErrorHandler UseGameState.

Variable backend : Backend.
Variable accessToken : option string.

(** Scenario A: creating the game gives the hook and the world of
    [Examples.hook_two_scenes]. *)
Lemma scenario_A_created :
  createNewGame Examples.backend_two_scenes Examples.token Examples.brave_fantasy
    initialHook Examples.world0
  = Some (Resolved tt, Examples.hook_two_scenes, Examples.world_two_scenes).
Proof. reflexivity. Qed.

(** C3. When the transport call of [createGame] (at the first attempt
    or at a retry) resolves with a response whose [sessions] is
    missing or empty, [createNewGame] rejects with the missing-session
    error, the three identifiers are what they were and [isLoading] is
    false; whenever [createNewGame] rejects, the three identifiers are
    what they were; and [createNewGame] always settles. *)
Theorem createNewGame_failure_keeps_identifiers
    (data : CreateGameRequest.t) (h : Hook) (w : World) :
  (forall token response w1 trace,
      usable_token accessToken = Some token ->
      retryWithBackoff sleep (createGame backend data token) 3 1000 w
      = Some (Resolved response, w1, trace) ->
      CreateGameResponse.sessions response = None
      \/ CreateGameResponse.sessions response = Some [] ->
      exists h',
        createNewGame backend accessToken data h w
        = Some (Rejected createMissingSessionError, h', w1)
        /\ gameId (gameState h') = gameId (gameState h)
        /\ sessionId (gameState h') = sessionId (gameState h)
        /\ currentSceneId (gameState h') = currentSceneId (gameState h)
        /\ isLoading (gameState h') = false)
  /\ (forall e h' w',
        createNewGame backend accessToken data h w = Some (Rejected e, h', w') ->
        gameId (gameState h') = gameId (gameState h)
        /\ sessionId (gameState h') = sessionId (gameState h)
        /\ currentSceneId (gameState h') = currentSceneId (gameState h))
  /\ (exists r, createNewGame backend accessToken data h w = Some r).
Proof.
  split; [ | split].
  - intros token response w1 trace Htoken Hcall Hsessions.
    unfold createNewGame. rewrite Htoken, Hcall.
    unfold initial_state_of.
    destruct Hsessions as [-> | ->]; eexists; repeat split.
  - intros e h' w'. unfold createNewGame.
    destruct (usable_token accessToken) as [token | ].
    + destruct (retryWithBackoff sleep (createGame backend data token) 3 1000 w)
        as [[[settled w1] trace] | ]; [ | discriminate].
      destruct (match settled with
                | Resolved response => initial_state_of response
                | Rejected error => Rejected error
                end) as [state | error]; [discriminate | ].
      intros H. injection H as _ <- _. repeat split.
    + intros H. injection H as _ <- _. repeat split.
  - unfold createNewGame.
    destruct (usable_token accessToken) as [token | ]; [ | eauto].
    destruct (retryWithBackoff_total sleep (createGame backend data token) 3 1000 w)
      as [[[settled w1] trace] Hr].
    rewrite Hr.
    destruct (match settled with
              | Resolved response => initial_state_of response
              | Rejected error => Rejected error
              end); eauto.
Qed.

End EngineProperties.

Section EngineWitnesses.
Import JS ErrorHandler UseGameState.

(** Scenario D: [sessions: []] on the first game; [gameId] stays
    [null]. *)
Lemma createNewGame_failure_keeps_identifiers_witness :
  exists h',
    createNewGame Examples.backend_no_sessions Examples.token Examples.brave_fantasy
      initialHook Examples.world0
    = Some (Rejected createMissingSessionError, h',
            {| now := 1040;
               requests := [CreateGame Examples.brave_fantasy "test-token"] |})
    /\ gameId (gameState h') = None
    /\ sessionId (gameState h') = None
    /\ currentSceneId (gameState h') = None
    /\ isLoading (gameState h') = false.
Proof.
  apply (proj1 (createNewGame_failure_keeps_identifiers
                  Examples.backend_no_sessions Examples.token
                  Examples.brave_fantasy initialHook Examples.world0)
               "test-token" (Examples.game_with (Some [])) _ [Invoked 0]).
  - reflexivity.
  - reflexivity.
  - right. reflexivity.
Defined.

(** C8. The engine stores [handleApiError(error)], and the classifier
    knows no [GameStateError]: when the game is created with
    [sessions: []], the error thrown is the missing-session error but
    the message stored is the one of [UNKNOWN_ERROR], which is not the
    one of [MISSING_SESSION]; when an advance from the last scene is
    answered with no scene, the error thrown is the invalid-scene
    error and the message stored is again the one of [UNKNOWN_ERROR],
    which is not the one of [INVALID_SCENE]. *)
Theorem missing_session_stores_unknown_message :
  (forall message code,
      handleApiError (GameStateError message code) = getErrorMessage UNKNOWN_ERROR)
  /\ (exists h' w',
        createNewGame Examples.backend_no_sessions Examples.token
          Examples.brave_fantasy initialHook Examples.world0
        = Some (Rejected (GameStateError "Session data is missing or invalid."
                                         MISSING_SESSION), h', w')
        /\ error (gameState h') = Some (getErrorMessage UNKNOWN_ERROR))
  /\ (exists h' w',
        proceedToNextScene Examples.backend_no_scene Examples.token None
          Examples.hook_last_scene Examples.world_two_scenes
        = Some (Rejected (GameStateError "Scene data is invalid or corrupted."
                                         INVALID_SCENE), h', w')
        /\ error (gameState h') = Some (getErrorMessage UNKNOWN_ERROR))
  /\ getErrorMessage UNKNOWN_ERROR <> getErrorMessage MISSING_SESSION
  /\ getErrorMessage UNKNOWN_ERROR <> getErrorMessage INVALID_SCENE.
Proof.
  split; [reflexivity | ]. split; [ | split; [ | split]].
  - eexists. eexists. split; reflexivity.
  - eexists. eexists. split; reflexivity.
  - intros H. vm_compute in H. discriminate H.
  - intros H. vm_compute in H. discriminate H.
Qed.

(** Scenario C: a choice that is not offered is refused before
    anything is sent; a choice that is offered sends one request that
    carries it, with the emotion given and the seconds elapsed. *)
Example scenario_C_choices :
  selectChoice Examples.backend_after_choice Examples.token 99
    (Some Examples.happy_emotion) Examples.hook_choice Examples.world_two_scenes
  = Some (Rejected (GameStateError "Invalid selection ID: 99" INVALID_CHOICE),
          Examples.hook_choice, Examples.world_two_scenes)
  /\ exists h',
       selectChoice Examples.backend_after_choice Examples.token 1
         (Some Examples.happy_emotion) Examples.hook_choice
         {| now := 6040; requests := [] |}
       = Some (Resolved tt, h',
               {| now := 6080;
                  requests :=
                    [GenerateSceneAfterSelection 123 1 5 1
                       {| NextSceneRequest.emotion := Examples.happy_emotion;
                          NextSceneRequest.time := 5 |}
                       "test-token"] |})
       /\ currentSceneId (gameState h') = Some 3
       /\ UseGameState.currentSceneIndex (gameState h') = 0.
Proof. split; [reflexivity | ]. eexists. repeat split. Qed.

End EngineWitnesses.

(* ================================================================== *)
(** * Local advance and network advance *)
(* ================================================================== *)

Section AdvanceProperties.
Import JS ErrorHandler UseGameState GamePage.

Variable backend : Backend.
Variable accessToken : option string.
Variable emotionExpression : option Expression.

(** The requests sent so far are never forgotten. *)
Lemma extends_refl (w : World) : Spec.extends w w.
Proof. exists []. now rewrite app_nil_r. Qed.

Lemma extends_trans (a b c : World) :
  Spec.extends a b -> Spec.extends b c -> Spec.extends a c.
Proof.
  intros [x Hx] [y Hy]. exists (x ++ y). now rewrite Hy, Hx, app_assoc.
Qed.

Lemma extends_sleep (delay : Z) (w : World) : Spec.extends w (sleep delay w).
Proof. exists []. simpl. now rewrite app_nil_r. Qed.

(** [advance_with] settles, and the first thing it sends is the
    request built from the emotion given (or the default one) and the
    elapsed seconds read at the time of the call. *)
Lemma advance_with_sends
    (call : NextSceneRequest.t -> World -> outcome NextSceneResponse.t * World)
    (rq : NextSceneRequest.t -> request)
    (emotion : option EmotionUtils.EmotionData) (h : Hook) (w : World) :
  (forall data w0, snd (call data w0) = send backend (rq data) w0) ->
  exists r h' w' extra,
    advance_with call emotion h w = Some (r, h', w')
    /\ requests w'
       = requests w
         ++ rq {| NextSceneRequest.emotion :=
                    match emotion with
                    | Some e => e
                    | None => EmotionUtils.getDefaultEmotionData
                    end;
                  NextSceneRequest.time :=
                    fst (GameTimeTracker.getElapsedSeconds (now w) (timeTracker h)) |}
         :: extra.
Proof.
  intros Hcall. unfold advance_with.
  set (data := {| NextSceneRequest.emotion := _; NextSceneRequest.time := _ |}).
  destruct (retryWithBackoff_total sleep (call data) 3 1000 w)
    as [[[settled w1] trace] Hr].
  assert (Hext : Spec.extends (snd (call data w)) w1).
  { assert (Hfn : forall w0, Spec.extends w0 (snd (call data w0))).
    { intros w0. rewrite Hcall. exists [rq data]. reflexivity. }
    apply (retryWithBackoff_runs_first sleep (call data) Spec.extends
             extends_refl extends_trans Hfn extends_sleep
             3 1000 w settled w1 trace); [lia | exact Hr]. }
  destruct Hext as [extra Hextra]. rewrite Hcall in Hextra. simpl in Hextra.
  rewrite <- app_assoc in Hextra. simpl in Hextra.
  cbn [setGameState timeTracker] in *. rewrite Hr.
  destruct (match settled with
            | Resolved response => next_state_of response
            | Rejected error => Rejected error
            end); do 4 eexists; (split; [reflexivity | exact Hextra]).
Qed.

(** What [handleNextScene] does when the index of the hook is not at
    the last position: nothing is sent, the hook is as it was, and the
    scene index of the page has moved by one. *)
Lemma handleNextScene_before_last (p : PageState) (h : Hook) (w : World) :
  isLastScene (gameState h) = false ->
  exists p',
    handleNextScene backend accessToken emotionExpression p h w = Some (p', h, w)
    /\ (getCurrentScene (gameState h) <> None ->
        GamePage.currentSceneIndex p' = GamePage.currentSceneIndex p + 1).
Proof.
  intros Hlast. unfold handleNextScene.
  destruct (getCurrentScene (gameState h)) as [scene | ].
  - rewrite Hlast. cbn [negb]. eexists. split; [reflexivity | ].
    intros _. reflexivity.
  - exists p. split; [reflexivity | ]. intros H. now destruct H.
Qed.

(** C1, as stated, fails: with two scenes in the buffer and the index
    at 0, [proceedToNextScene] sends a request; afterwards the index
    is 0 in the new buffer, not 1, and the current scene is the new
    scene 3, not the scene 2 of the old buffer. *)
Lemma proceedToNextScene_sends_before_last :
  isLastScene (gameState Examples.hook_two_scenes) = false
  /\ exists h' w',
       proceedToNextScene Examples.backend_two_scenes Examples.token None
         Examples.hook_two_scenes Examples.world_two_scenes
       = Some (Resolved tt, h', w')
       /\ length (requests w') = S (length (requests Examples.world_two_scenes))
       /\ UseGameState.currentSceneIndex (gameState h')
          <> UseGameState.currentSceneIndex (gameState Examples.hook_two_scenes) + 1
       /\ currentSceneId (gameState h') = Some 3
       /\ option_map SceneData.scene_id
            (nth_error (scenes (gameState Examples.hook_two_scenes)) 1) = Some 2.
Proof.
  split; [reflexivity | ].
  eexists. eexists. split; [reflexivity | ].
  repeat split. discriminate.
Qed.

(** C1, amended. When the index is not at the last position of the
    buffer, the advance of the page, [handleNextScene], is served
    locally: it settles and sends nothing. [proceedToNextScene] itself has
    no local path: whenever it is called with a token, the three
    identifiers, and a current scene that is absent or of dialogue
    type, it sends its request, whatever the position in the buffer.
    Through [handleNextScene] a request is sent only when the current
    scene is at the last position and is of dialogue type. *)
Theorem network_only_from_last_scene :
  (forall p h w,
      isLastScene (gameState h) = false ->
      exists p' h' w',
        handleNextScene backend accessToken emotionExpression p h w = Some (p', h', w')
        /\ requests w' = requests w)
  /\ (forall emotion h w token g s c,
        usable_token accessToken = Some token ->
        gameId (gameState h) = Some g ->
        sessionId (gameState h) = Some s ->
        currentSceneId (gameState h) = Some c ->
        (forall scene, getCurrentScene (gameState h) = Some scene ->
                       SceneData.type scene = "dialogue") ->
        exists r h' w' extra,
          proceedToNextScene backend accessToken emotion h w = Some (r, h', w')
          /\ requests w'
             = requests w
               ++ GenerateNextScene g s c
                    {| NextSceneRequest.emotion :=
                         match emotion with
                         | Some e => e
                         | None => EmotionUtils.getDefaultEmotionData
                         end;
                       NextSceneRequest.time :=
                         fst (GameTimeTracker.getElapsedSeconds (now w) (timeTracker h)) |}
                    token
               :: extra)
  /\ (forall p h w p' h' w',
        handleNextScene backend accessToken emotionExpression p h w = Some (p', h', w') ->
        requests w' <> requests w ->
        isLastScene (gameState h) = true
        /\ exists scene, getCurrentScene (gameState h) = Some scene
                         /\ SceneData.type scene = "dialogue").
Proof.
  split; [ | split].
  - intros p h w Hlast.
    destruct (handleNextScene_before_last p h w Hlast) as [p' [H _]].
    exists p', h, w. split; [exact H | reflexivity].
  - intros emotion h w token g s c Htoken Hg Hs Hc Htype.
    unfold proceedToNextScene. rewrite Htoken, Hg, Hs, Hc.
    destruct (getCurrentScene (gameState h)) as [scene | ].
    + rewrite (Htype scene eq_refl). change ("dialogue" === "dialogue") with true.
      cbn [negb].
      apply (advance_with_sends
               (fun data => generateNextScene backend g s c data token)
               (fun data => GenerateNextScene g s c data token)).
      reflexivity.
    + apply (advance_with_sends
               (fun data => generateNextScene backend g s c data token)
               (fun data => GenerateNextScene g s c data token)).
      reflexivity.
  - intros p h w p' h' w'. unfold handleNextScene.
    destruct (getCurrentScene (gameState h)) as [scene | ].
    + destruct (isLastScene (gameState h)); cbn [negb].
      * destruct (SceneData.type scene === "dialogue") eqn:Htype.
        -- intros _ _. split; [reflexivity | ].
           exists scene. split; [reflexivity | now apply String.eqb_eq].
        -- intros H Hsent. injection H as _ _ <-. now destruct Hsent.
      * intros H Hsent. injection H as _ _ <-. now destruct Hsent.
    + intros H Hsent. injection H as _ _ <-. now destruct Hsent.
Qed.

End AdvanceProperties.

Section AdvanceWitnesses.
Import JS ErrorHandler UseGameState GamePage.

(** Scenario A, after the creation: the page advances locally, and
    [proceedToNextScene] sends its request. *)
Lemma network_only_from_last_scene_witness :
  (exists p' h' w',
      handleNextScene Examples.backend_two_scenes Examples.token None
        Examples.page0 Examples.hook_two_scenes Examples.world_two_scenes
      = Some (p', h', w')
      /\ requests w' = requests Examples.world_two_scenes)
  /\ (exists r h' w' extra,
        proceedToNextScene Examples.backend_two_scenes Examples.token None
          Examples.hook_two_scenes Examples.world_two_scenes = Some (r, h', w')
        /\ requests w'
           = requests Examples.world_two_scenes
             ++ GenerateNextScene 123 1 1
                  {| NextSceneRequest.emotion := EmotionUtils.getDefaultEmotionData;
                     NextSceneRequest.time := 0 |}
                  "test-token"
             :: extra).
Proof.
  destruct (network_only_from_last_scene Examples.backend_two_scenes
              Examples.token None) as [Hlocal [Hsend _]].
  split.
  - apply (Hlocal Examples.page0 Examples.hook_two_scenes Examples.world_two_scenes).
    reflexivity.
  - apply (Hsend None Examples.hook_two_scenes Examples.world_two_scenes
                 "test-token" 123 1 1); try reflexivity.
    intros scene H. injection H as <-. reflexivity.
Defined.

End AdvanceWitnesses.

(* ================================================================== *)
(** * Further properties: the emotion normaliser *)
(* ================================================================== *)

Section NormaliserProperties.
Import JS EmotionUtils ErrorHandler.

Lemma round_of_Z (z : Z) : Qfloor (inject_Z z + (1 # 2)) = z.
Proof.
  unfold Qfloor, Qplus, inject_Z. cbn [Qnum Qden].
  change (Z.pos (1 * 2)) with 2. rewrite Z.mul_1_l.
  symmetry. apply (Z.div_unique _ 2 z 1); lia.
Qed.

Lemma clampEmotionValue_percent (z : Z) :
  0 <= z <= 100 -> clampEmotionValue (of_Z z) = of_Z z.
Proof.
  intros Hz. unfold of_Z. rewrite clampEmotionValue_Fin, round_of_Z.
  unfold of_Z. do 2 f_equal. lia.
Qed.

Lemma clampEmotionValue_idempotent (value : number) :
  clampEmotionValue (clampEmotionValue value) = clampEmotionValue value.
Proof.
  destruct value as [ | | | q]; try reflexivity.
  rewrite clampEmotionValue_Fin. apply clampEmotionValue_percent. lia.
Qed.

Lemma getEmotionValue_clamped (raw : value) (keys : list string) :
  clampEmotionValue (getEmotionValue raw keys) = getEmotionValue raw keys.
Proof.
  induction keys as [ | key keys IH]; simpl; [reflexivity | ].
  destruct (get raw key); auto. apply clampEmotionValue_idempotent.
Qed.

Lemma getEmotionValue_percent (raw : value) (keys : list string) :
  (forall key, get raw key <> VNum NaN) ->
  Spec.percent_integer (getEmotionValue raw keys).
Proof.
  intros Hnan. induction keys as [ | key keys IH]; simpl.
  - exists 0. split; [reflexivity | lia].
  - destruct (get raw key) eqn:Hkey; auto.
    apply clampEmotionValue_agrees. intros ->. now apply (Hnan key).
Qed.

Lemma getEmotionValue_none (raw : value) (keys : list string) :
  (forall key, In key keys -> forall n, get raw key <> VNum n) ->
  getEmotionValue raw keys = of_Z 0.
Proof.
  intros Hnone. induction keys as [ | key keys IH]; simpl; [reflexivity | ].
  destruct (get raw key) eqn:Hkey;
    try (apply IH; intros k Hin; apply Hnone; now right).
  exfalso. apply (Hnone key (or_introl eq_refl) n). exact Hkey.
Qed.

Lemma percent_field_accepted (x : number) :
  Spec.percent_integer x -> emotion_field_rejected (VNum x) = false.
Proof.
  intros [z [-> Hz]]. unfold emotion_field_rejected, gt, lt, of_Z.
  rewrite !Qle_bool_inject_Z.
  destruct (Z.leb_spec 0 z), (Z.leb_spec z 100); try reflexivity; lia.
Qed.

Lemma normalizeEmotionData_not_object (raw : value) :
  Props.is_object raw = false -> normalizeEmotionData raw = getDefaultEmotionData.
Proof.
  intros Hobj. destruct raw as [ | | b | n | s | items | fields];
    try discriminate Hobj; try reflexivity.
  - unfold normalizeEmotionData. destruct (truthy (VBool b)); reflexivity.
  - unfold normalizeEmotionData. destruct (truthy (VNum n)); reflexivity.
  - unfold normalizeEmotionData. destruct (truthy (VStr s)); reflexivity.
Qed.

(** X1. Whatever the input, as long as none of its properties is
    [NaN], every field of the normalised vector is an integer between
    0 and 100, and the vector passes [validateEmotionData]. *)
Theorem normalizeEmotionData_valid (raw : value) :
  (forall key, get raw key <> VNum NaN) ->
  Props.all_fields Spec.percent_integer (normalizeEmotionData raw)
  /\ validateEmotionData (EmotionData_to_value (normalizeEmotionData raw)) = true.
Proof.
  intros Hnan.
  assert (Hall : Props.all_fields Spec.percent_integer (normalizeEmotionData raw)).
  { destruct (Props.is_object raw) eqn:Hobj.
    - destruct raw; try discriminate Hobj; unfold Props.all_fields;
        repeat split; now apply getEmotionValue_percent.
    - rewrite (normalizeEmotionData_not_object raw Hobj).
      repeat split; eexists; (split; [reflexivity | lia]). }
  split; [exact Hall | ].
  destruct Hall as [H1 [H2 [H3 [H4 [H5 [H6 H7]]]]]].
  unfold validateEmotionData, EmotionData_to_value.
  cbn [truthy typeof negb orb]. change ("object" === "object") with true.
  cbn [negb requiredFields forallb get lookup String.eqb Ascii.eqb Bool.eqb].
  now rewrite !percent_field_accepted.
Qed.

(** The input [{ Anger: 15, Angry: 25 }] has no [NaN]. *)
Lemma normalizeEmotionData_valid_witness :
  Props.all_fields Spec.percent_integer (normalizeEmotionData Examples.raw_Anger_Angry)
  /\ validateEmotionData
       (EmotionData_to_value (normalizeEmotionData Examples.raw_Anger_Angry)) = true.
Proof.
  apply (normalizeEmotionData_valid Examples.raw_Anger_Angry).
  intros key. unfold Examples.raw_Anger_Angry, get, lookup.
  destruct ("Anger" === key); [discriminate | ].
  destruct ("Angry" === key); discriminate.
Defined.

(** X2. An input that is not an object ([undefined], [null], a
    boolean, a number, a string) gives the default vector, whose
    [neutral] is 100; an object none of whose alias keys is bound to a
    number, such as [{}] or an array, gives the vector of zeros, whose
    [neutral] is 0. *)
Theorem normalizeEmotionData_without_data :
  (forall raw, Props.is_object raw = false ->
     normalizeEmotionData raw = getDefaultEmotionData)
  /\ (forall raw, Props.is_object raw = true ->
        (forall proj keys key n,
            In (proj, keys) Props.alias_table -> In key keys ->
            get raw key <> VNum n) ->
        normalizeEmotionData raw = Props.zero_vector)
  /\ neutral getDefaultEmotionData = of_Z 100
  /\ neutral (normalizeEmotionData (VObj [])) = of_Z 0.
Proof.
  split; [exact normalizeEmotionData_not_object | ].
  split; [ | split; reflexivity].
  intros raw Hobj Hnone.
  destruct raw; try discriminate Hobj; unfold normalizeEmotionData;
    cbn [truthy typeof negb orb]; change ("object" === "object") with true;
    cbn [negb]; unfold Props.zero_vector;
    f_equal; apply getEmotionValue_none; intros key Hkey n;
    (eapply (Hnone _ _ key n); [ | exact Hkey]); simpl; eauto 10.
Qed.

(** [null], the empty object and an array of numbers. *)
Lemma normalizeEmotionData_without_data_witness :
  normalizeEmotionData VNull = getDefaultEmotionData
  /\ normalizeEmotionData (VObj []) = Props.zero_vector
  /\ normalizeEmotionData (VArr [VNum (of_Z 40); VNum (of_Z 60)]) = Props.zero_vector.
Proof.
  destruct normalizeEmotionData_without_data as [Hdefault [Hzero _]].
  split; [ | split].
  - apply (Hdefault VNull). reflexivity.
  - apply (Hzero (VObj [])); [reflexivity | ]. intros proj keys key n _ _. discriminate.
  - apply (Hzero (VArr [VNum (of_Z 40); VNum (of_Z 60)])); [reflexivity | ].
    intros proj keys key n Htable Hkey. simpl in Htable.
    repeat (destruct Htable as [Htable | Htable];
            [injection Htable as _ <-; simpl in Hkey;
             repeat (destruct Hkey as [<- | Hkey]; [discriminate | ]); destruct Hkey | ]).
    destruct Htable.
Defined.

(** X3. Normalising is idempotent: the object of a normalised vector
    normalises to the same vector. *)
Theorem normalizeEmotionData_idempotent (raw : value) :
  normalizeEmotionData (EmotionData_to_value (normalizeEmotionData raw))
  = normalizeEmotionData raw.
Proof.
  assert (Hshape : forall e,
    normalizeEmotionData (EmotionData_to_value e)
    = {| angry := clampEmotionValue (angry e);
         disgust := clampEmotionValue (disgust e);
         fear := clampEmotionValue (fear e);
         happy := clampEmotionValue (happy e);
         sad := clampEmotionValue (sad e);
         surprise := clampEmotionValue (surprise e);
         neutral := clampEmotionValue (neutral e) |}) by reflexivity.
  rewrite Hshape.
  destruct (Props.is_object raw) eqn:Hobj.
  - destruct raw; try discriminate Hobj; unfold normalizeEmotionData;
      cbn [truthy typeof negb orb]; change ("object" === "object") with true;
      cbn [negb angry disgust fear happy sad surprise neutral];
      now rewrite !getEmotionValue_clamped.
  - now rewrite (normalizeEmotionData_not_object raw Hobj).
Qed.

(** X4. In an object, a field none of whose aliases is bound to a
    number is 0, whatever else the aliases are bound to (a string,
    [null], nothing), and a field is otherwise decided by the first
    of its aliases that is bound to a number. *)
Theorem normalizeEmotionData_field (fields : list (string * value))
    (proj : EmotionData -> number) (keys : list string) :
  In (proj, keys) Props.alias_table ->
  ((forall key, In key keys -> forall n, get (VObj fields) key <> VNum n) ->
   proj (normalizeEmotionData (VObj fields)) = of_Z 0)
  /\ (forall before key after n,
        keys = before ++ key :: after ->
        (forall k, In k before -> forall m, get (VObj fields) k <> VNum m) ->
        get (VObj fields) key = VNum n ->
        proj (normalizeEmotionData (VObj fields)) = clampEmotionValue n).
Proof.
  intros Hin.
  rewrite (normalizeEmotionData_object (VObj fields) eq_refl proj keys Hin).
  split.
  - apply getEmotionValue_none.
  - intros before key after n -> Hbefore Hkey.
    now apply getEmotionValue_first_numeric.
Qed.

(** [{ angry: 'not a number', happy: 50, sad: null }]: [sad] is 0 and
    [happy] is 50. *)
Lemma normalizeEmotionData_field_witness :
  sad (normalizeEmotionData MoreExamples.raw_with_strings) = of_Z 0
  /\ happy (normalizeEmotionData MoreExamples.raw_with_strings)
     = clampEmotionValue (of_Z 50).
Proof.
  split.
  - apply (proj1 (normalizeEmotionData_field _ sad ["sad"; "sadness"; "Sad"; "Sadness"]
                    ltac:(simpl; tauto))).
    intros key [<- | [<- | [<- | [<- | []]]]] n; discriminate.
  - apply (proj2 (normalizeEmotionData_field _ happy
                    ["happy"; "happiness"; "Happy"; "Happiness"]
                    ltac:(simpl; tauto))
                 [] "happy" ["happiness"; "Happy"; "Happiness"] (of_Z 50)).
    + reflexivity.
    + intros k [].
    + reflexivity.
Defined.

(** X5. Clamping is idempotent, and it keeps the order of finite
    numbers: a larger input never gives a smaller result. *)
Theorem clampEmotionValue_monotone :
  (forall value, clampEmotionValue (clampEmotionValue value) = clampEmotionValue value)
  /\ (forall q1 q2 : Q, (q1 <= q2)%Q ->
        exists z1 z2 : Z,
          clampEmotionValue (Fin q1) = of_Z z1
          /\ clampEmotionValue (Fin q2) = of_Z z2
          /\ 0 <= z1 <= z2 /\ z2 <= 100).
Proof.
  split; [exact clampEmotionValue_idempotent | ].
  intros q1 q2 Hle. rewrite !clampEmotionValue_Fin.
  do 2 eexists. split; [reflexivity | split; [reflexivity | ]].
  assert (H : Qfloor (q1 + (1 # 2)) <= Qfloor (q2 + (1 # 2))).
  { apply Qfloor_resp_le. apply Qplus_le_compat; [exact Hle | apply Qle_refl]. }
  lia.
Qed.

(** 50.4 and 50.5 give 50 and 51. *)
Lemma clampEmotionValue_monotone_witness :
  exists z1 z2 : Z,
    clampEmotionValue (Fin (252 # 5)) = of_Z z1
    /\ clampEmotionValue (Fin (101 # 2)) = of_Z z2
    /\ 0 <= z1 <= z2 /\ z2 <= 100.
Proof.
  apply (proj2 clampEmotionValue_monotone (252 # 5) (101 # 2)).
  unfold Qle. simpl. lia.
Defined.

End NormaliserProperties.

(* ================================================================== *)
(** * Further properties: the classifier and the validators *)
(* ================================================================== *)

Section ClassifierMore.
Import JS ErrorHandler.

Lemma isRecoverableError_status (message : string) (z : Z) :
  isRecoverableError (ApiError message (Some z)) = (z =? 0) || (500 <=? z).
Proof.
  destruct (Z.eqb_spec z 0) as [-> | Hz]; [reflexivity | ].
  unfold isRecoverableError. rewrite (classifyApiError_status message z Hz).
  rewrite Z.geb_leb.
  destruct (Z.eqb_spec z 401), (Z.eqb_spec z 403), (Z.eqb_spec z 422),
    (Z.eqb_spec z 400); subst; try reflexivity.
  simpl. now destruct (500 <=? z).
Qed.

Lemma requiresReauth_status (message : string) (z : Z) :
  requiresReauth (ApiError message (Some z)) = (z =? 401) || (z =? 403).
Proof.
  destruct (Z.eqb_spec z 0) as [-> | Hz]; [reflexivity | ].
  unfold requiresReauth. rewrite (classifyApiError_status message z Hz).
  destruct ((z =? 401) || (z =? 403)); [reflexivity | ].
  destruct ((z =? 422) || (z =? 400)); [reflexivity | ].
  now destruct (z >=? 500).
Qed.

(** X6. The failures that are retried: an [ApiError] without status,
    with the status 0 or with a status of 500 or more, and a
    [TypeError] whose message contains ["fetch"]; nothing else, in
    particular no [GameStateError] and no plain [Error]. *)
Theorem isRecoverableError_iff (error : thrown) :
  isRecoverableError error = true
  <-> (exists message, error = ApiError message None)
      \/ (exists message z, error = ApiError message (Some z) /\ (z = 0 \/ 500 <= z))
      \/ (exists message, error = TypeError message /\ includes message "fetch" = true).
Proof.
  destruct error as [m [z | ] | m | m c | m | v].
  - rewrite isRecoverableError_status. split.
    + intros H. right. left. exists m, z. split; [reflexivity | ].
      apply orb_true_iff in H. destruct H as [H | H]; [left | right]; lia.
    + intros [[m' H] | [[m' [z' [H Hz]]] | [m' [H _]]]]; try discriminate H.
      injection H as _ <-. apply orb_true_iff.
      destruct Hz; [left | right]; lia.
  - split; [ | reflexivity]. intros _. left. now exists m.
  - unfold isRecoverableError, classifyApiError. cbn [classify_ApiError_block].
    split.
    + intros H. right. right. exists m. split; [reflexivity | ].
      now destruct (includes m "fetch").
    + intros [[m' H] | [[m' [z' [H _]]] | [m' [H Hf]]]]; try discriminate H.
      injection H as <-. now rewrite Hf.
  - split; [discriminate | ].
    intros [[m' H] | [[m' [z' [H _]]] | [m' [H _]]]]; discriminate H.
  - split; [discriminate | ].
    intros [[m' H] | [[m' [z' [H _]]] | [m' [H _]]]]; discriminate H.
  - split; [discriminate | ].
    intros [[m' H] | [[m' [z' [H _]]] | [m' [H _]]]]; discriminate H.
Qed.

(** A 503 is retried; a 404 is not. *)
Lemma isRecoverableError_iff_witness :
  isRecoverableError (ApiError "Service unavailable" (Some 503)) = true
  /\ isRecoverableError (ApiError "Not found" (Some 404)) = false.
Proof.
  split.
  - apply (proj2 (isRecoverableError_iff (ApiError "Service unavailable" (Some 503)))).
    right. left. exists "Service unavailable", 503. split; [reflexivity | right; lia].
  - destruct (isRecoverableError (ApiError "Not found" (Some 404))) eqn:H;
      [ | reflexivity].
    apply (proj1 (isRecoverableError_iff (ApiError "Not found" (Some 404)))) in H.
    destruct H as [[m H] | [[m [z [H Hz]]] | [m [H _]]]]; try discriminate H.
    injection H as _ <-. lia.
Defined.

(** X7. Re-authentication is asked for exactly after an [ApiError]
    with the status 401 or 403, and such a failure is never one that
    is retried. *)
Theorem requiresReauth_iff (error : thrown) :
  (requiresReauth error = true
   <-> exists message z, error = ApiError message (Some z) /\ (z = 401 \/ z = 403))
  /\ (requiresReauth error = true -> isRecoverableError error = false).
Proof.
  destruct error as [m [z | ] | m | m c | m | v].
  - rewrite requiresReauth_status, isRecoverableError_status. split; [split | ].
    + intros H. exists m, z. split; [reflexivity | ].
      apply orb_true_iff in H. destruct H as [H | H]; [left | right]; lia.
    + intros [m' [z' [H Hz]]]. injection H as _ <-. apply orb_true_iff.
      destruct Hz; [left | right]; lia.
    + intros H. apply orb_true_iff in H. apply orb_false_iff.
      destruct H as [H | H]; split; lia.
  - split; [split | ]; try discriminate. intros [m' [z' [H _]]]. discriminate H.
  - split; [split | ].
    + unfold requiresReauth, classifyApiError. cbn [classify_ApiError_block].
      destruct (includes m "fetch"); discriminate.
    + intros [m' [z' [H _]]]. discriminate H.
    + unfold requiresReauth, classifyApiError. cbn [classify_ApiError_block].
      destruct (includes m "fetch"); discriminate.
  - split; [split | ]; try discriminate. intros [m' [z' [H _]]]. discriminate H.
  - split; [split | ]; try discriminate. intros [m' [z' [H _]]]. discriminate H.
  - split; [split | ]; try discriminate. intros [m' [z' [H _]]]. discriminate H.
Qed.

(** A 403 asks for a new login and is not retried. *)
Lemma requiresReauth_iff_witness :
  requiresReauth (ApiError "Forbidden" (Some 403)) = true
  /\ isRecoverableError (ApiError "Forbidden" (Some 403)) = false.
Proof.
  destruct (requiresReauth_iff (ApiError "Forbidden" (Some 403))) as [Hiff Hexcl].
  assert (H : requiresReauth (ApiError "Forbidden" (Some 403)) = true).
  { apply (proj2 Hiff). exists "Forbidden", 403. split; [reflexivity | right; reflexivity]. }
  split; [exact H | exact (Hexcl H)].
Defined.

(** X8. One fixed message per kind: no message is empty and no two
    kinds share a message, so the message stored tells the kind. *)
Theorem getErrorMessage_injective :
  (forall code, getErrorMessage code <> "")
  /\ (forall a b, getErrorMessage a = getErrorMessage b -> a = b).
Proof.
  split.
  - intros code H. destruct code; vm_compute in H; discriminate H.
  - intros a b H.
    destruct a, b; try reflexivity; vm_compute in H; discriminate H.
Qed.

End ClassifierMore.

Section ValidatorsMore.
Import JS ErrorHandler UseGameState.

Lemma forallb_Forall {A : Type} (f : A -> bool) (l : list A) :
  forallb f l = true <-> Forall (fun x => f x = true) l.
Proof. rewrite forallb_forall, Forall_forall. reflexivity. Qed.

Lemma forallb_of_map {A B : Type} (f : B -> bool) (g : A -> B) (l : list A) :
  forallb f (map g l) = forallb (fun x => f (g x)) l.
Proof. induction l as [ | x l IH]; simpl; [reflexivity | now rewrite IH]. Qed.

(** X9. [validateSessionData] accepts exactly the objects that have a
    number as [session_id] and, as [scenes], an array that is not
    empty and whose elements all pass [validateSceneData]; every other
    value, [null] and [undefined] included, is refused without an
    exception. *)
Theorem validateSessionData_iff (session : value) :
  validateSessionData session = true
  <-> exists fields n scenes,
        session = VObj fields
        /\ lookup "session_id" fields = Some (VNum n)
        /\ lookup "scenes" fields = Some (VArr scenes)
        /\ scenes <> []
        /\ Forall (fun scene => validateSceneData scene = true) scenes.
Proof.
  destruct session as [ | | b | n | s | items | fields];
    try (split; [discriminate | intros [fs [n0 [sc [H _]]]]; discriminate H]).
  - split; [destruct b; discriminate | intros [fs [n0 [sc [H _]]]]; discriminate H].
  - split; [ | intros [fs [n0 [sc [H _]]]]; discriminate H].
    unfold validateSessionData. destruct (truthy (VNum n)); discriminate.
  - split; [ | intros [fs [n0 [sc [H _]]]]; discriminate H].
    unfold validateSessionData. destruct (truthy (VStr s)); discriminate.
  - unfold validateSessionData. cbn [truthy typeof negb orb get].
    change ("object" === "object") with true. cbn [negb].
    split.
    + destruct (lookup "session_id" fields) as [[ | | b | n | s | items | fs] | ]
        eqn:Hid; try discriminate.
      cbn [typeof]. change ("number" === "number") with true. cbn [negb].
      destruct (lookup "scenes" fields) as [[ | | b | n' | s | scenes | fs] | ]
        eqn:Hscenes; try discriminate.
      destruct scenes as [ | scene0 scenes]; [discriminate | ].
      cbn [length Nat.eqb]. intros H. exists fields, n, (scene0 :: scenes).
      split; [reflexivity | ]. split; [exact Hid | ]. split; [exact Hscenes | ].
      split; [discriminate | now apply forallb_Forall].
    + intros [fs [n [scenes [Hobj [Hid [Hscenes [Hne Hall]]]]]]].
      injection Hobj as <-. rewrite Hid, Hscenes.
      cbn [typeof]. change ("number" === "number") with true. cbn [negb].
      destruct scenes as [ | scene0 scenes]; [now destruct Hne | ].
      cbn [length Nat.eqb]. now apply forallb_Forall.
Qed.

(** A session with one dialogue scene. *)
Lemma validateSessionData_iff_witness :
  validateSessionData (SessionData_to_value MoreExamples.one_scene_session) = true.
Proof.
  apply (proj2 (validateSessionData_iff
                  (SessionData_to_value MoreExamples.one_scene_session))).
  do 3 eexists. split; [reflexivity | ]. split; [reflexivity | ].
  split; [reflexivity | ]. split; [discriminate | ].
  repeat constructor.
Defined.

Lemma get_SceneData (scene : SceneData.t) :
  get (SceneData_to_value scene) "scene_id" = VNum (of_Z (SceneData.scene_id scene))
  /\ get (SceneData_to_value scene) "type" = VStr (SceneData.type scene)
  /\ get (SceneData_to_value scene) "dialogue"
     = nullable_string (SceneData.dialogue scene)
  /\ get (SceneData_to_value scene) "character_filename"
     = nullable_string (SceneData.character_filename scene)
  /\ get (SceneData_to_value scene) "selections"
     = match SceneData.selections scene with
       | Some choices => VObj (map (fun kv => (fst kv, VStr (snd kv))) choices)
       | None => VUndefined
       end.
Proof.
  destruct scene as [role id type dialogue [choices | ] file]; repeat split.
Qed.

(** What [validateSceneData] leaves to decide on a scene that has the
    shape of [SceneData]: its type, and its choices. *)
Lemma validateSceneData_typed (scene : SceneData.t) :
  validateSceneData (SceneData_to_value scene)
  = (SceneData.type scene === "dialogue")
    || (is_selection_type (SceneData.type scene)
        && match SceneData.selections scene with
           | Some _ => true
           | None => false
           end).
Proof.
  destruct (get_SceneData scene) as [Hid [Htype [Hdialogue [Hfile Hchoices]]]].
  unfold validateSceneData.
  rewrite Hid, Htype, Hdialogue, Hfile, Hchoices.
  change (truthy (SceneData_to_value scene)) with true.
  change (typeof (SceneData_to_value scene)) with "object".
  cbn [typeof is_string negb orb andb]. unfold is_selection_type.
  change ("object" === "object") with true.
  change ("number" === "number") with true.
  change ("string" === "string") with true. cbn [negb orb andb].
  assert (Hd : neither_absent_nor_string (nullable_string (SceneData.dialogue scene)) = false)
    by now destruct (SceneData.dialogue scene).
  assert (Hf : neither_absent_nor_string
                 (nullable_string (SceneData.character_filename scene)) = false)
    by now destruct (SceneData.character_filename scene).
  rewrite Hd, Hf.
  destruct (String.eqb_spec (SceneData.type scene) "dialogue") as [H1 | H1];
    destruct (String.eqb_spec (SceneData.type scene) "selection") as [H2 | H2];
    destruct (String.eqb_spec (SceneData.type scene) "selections") as [H3 | H3];
    destruct (SceneData.selections scene); try reflexivity; congruence.
Qed.

(** X10. A scene that has the shape of [SceneData] is valid exactly
    when its type is ['dialogue'], or its type is ['selection'] or
    ['selections'] and it has a mapping of choices, possibly empty;
    no other type string is valid. *)
Theorem validateSceneData_SceneData (scene : SceneData.t) :
  validateSceneData (SceneData_to_value scene) = true
  <-> SceneData.type scene = "dialogue"
      \/ ((SceneData.type scene = "selection" \/ SceneData.type scene = "selections")
          /\ SceneData.selections scene <> None).
Proof.
  rewrite validateSceneData_typed. unfold is_selection_type.
  rewrite orb_true_iff, andb_true_iff, orb_true_iff, !String.eqb_eq.
  destruct (SceneData.selections scene); split; intros [H | [H Hs]]; auto;
    try discriminate; try (now destruct Hs).
  right. split; [exact H | discriminate].
Qed.

(** A selection scene with an empty mapping of choices is valid. *)
Lemma validateSceneData_SceneData_witness :
  validateSceneData (SceneData_to_value MoreExamples.empty_choice_scene) = true.
Proof.
  apply (proj2 (validateSceneData_SceneData MoreExamples.empty_choice_scene)).
  right. split; [right; reflexivity | discriminate].
Defined.

(** A session that has the shape of [SessionData] is valid exactly
    when it has a scene and all its scenes are valid. *)
Lemma validateSessionData_typed (session : SessionData.t) :
  validateSessionData (SessionData_to_value session)
  = match SessionData.scenes session with
    | [] => false
    | _ => forallb (fun scene => validateSceneData (SceneData_to_value scene))
                   (SessionData.scenes session)
    end.
Proof.
  destruct session as [id content scenes url].
  unfold validateSessionData, SessionData_to_value.
  cbn [truthy typeof negb orb get lookup String.eqb Ascii.eqb Bool.eqb
       SessionData.session_id SessionData.content SessionData.scenes
       SessionData.background_url].
  change ("object" === "object") with true.
  change ("number" === "number") with true. cbn [negb].
  destruct scenes as [ | scene0 scenes]; [reflexivity | ].
  change (map SceneData_to_value (scene0 :: scenes))
    with (SceneData_to_value scene0 :: map SceneData_to_value scenes).
  cbn [length Nat.eqb forallb]. now rewrite forallb_of_map.
Qed.

End ValidatorsMore.

(* ================================================================== *)
(** * Further properties: the retry policy *)
(* ================================================================== *)

Section RetryMore.
Import JS ErrorHandler.

Context {W T : Type}.
Variable sleep : Z -> W -> W.
Variable fn : W -> outcome T * W.

(** Every run of the loop that starts with an attempt left: the
    attempts before the last one failed recoverably and were followed
    by their waits, and the call settles as the last invocation did. *)
Lemma retry_loop_shape (maxRetries initialDelay : Z) (fuel : nat) :
  forall attempt lastError w trace r w' trace',
    attempt < maxRetries ->
    retry_loop sleep fuel fn maxRetries initialDelay attempt lastError w trace
    = Some (r, w', trace') ->
    exists k : nat,
      attempt + Z.of_nat k < maxRetries
      /\ (forall j, (j < k)%nat ->
            Spec.fails_recoverably
              (fn (Spec.world_before sleep fn initialDelay attempt j w)))
      /\ fn (Spec.world_before sleep fn initialDelay attempt k w) = (r, w')
      /\ trace' = trace ++ Spec.schedule initialDelay attempt k
      /\ (forall e, r = Rejected e -> isRecoverableError e = true ->
                    attempt + Z.of_nat k = maxRetries - 1).
Proof.
  induction fuel as [ | fuel IH];
    intros attempt lastError w trace r w' trace' Hlt H; simpl in H.
  - destruct (Z.ltb_spec attempt maxRetries); [discriminate | lia].
  - destruct (Z.ltb_spec attempt maxRetries); [ | lia].
    destruct (fn w) as [[v | e] w1] eqn:Hfn.
    + injection H as <- <- <-. exists 0%nat. simpl.
      repeat split; auto; try lia. intros e He. discriminate He.
    + rewrite rethrow_test in H.
      destruct (isRecoverableError e) eqn:Hrec; cbn [negb] in H.
      * destruct (Z.ltb_spec attempt (maxRetries - 1)).
        -- apply IH in H; [ | lia].
           destruct H as [k [Hk [Hfail [Hlast [Htrace Hrecov]]]]].
           exists (S k). simpl. rewrite Hfn. simpl.
           split; [lia | ]. split; [ | split; [exact Hlast | split]].
           ++ intros [ | j] Hj; simpl.
              ** rewrite Hfn. now exists e, w1.
              ** rewrite Hfn. simpl. apply Hfail. lia.
           ++ rewrite Htrace, <- !app_assoc. reflexivity.
           ++ intros e' He' Hrec'. specialize (Hrecov e' He' Hrec'). lia.
        -- assert (Hend : retry_loop sleep fuel fn maxRetries initialDelay
                             (attempt + 1) e w1 (trace ++ [Invoked attempt])
                          = Some (Rejected e, w1, trace ++ [Invoked attempt])).
           { destruct fuel; simpl;
               destruct (Z.ltb_spec (attempt + 1) maxRetries); try lia; reflexivity. }
           rewrite Hend in H. injection H as <- <- <-.
           exists 0%nat. simpl. repeat split; auto; try lia.
      * injection H as <- <- <-. exists 0%nat. simpl.
        repeat split; auto; try lia.
        intros e' He' Hrec'. injection He' as <-. congruence.
Qed.

Lemma total_wait_schedule (initialDelay : Z) (k : nat) :
  forall attempt, 0 <= attempt ->
    Props.total_wait (Spec.schedule initialDelay attempt k)
    = initialDelay * 2 ^ attempt * (2 ^ Z.of_nat k - 1).
Proof.
  unfold Props.total_wait.
  induction k as [ | k IH]; intros attempt Ha.
  - simpl. lia.
  - cbn [Spec.schedule Spec.waits fold_right]. rewrite (IH (attempt + 1)) by lia.
    rewrite Nat2Z.inj_succ, Z.pow_succ_r by lia.
    rewrite (Z.pow_add_r 2 attempt 1) by lia. rewrite Z.pow_1_r. ring.
Qed.

(** The form of the shape that the hook uses: three attempts, one
    second. *)
Lemma retryWithBackoff_shape_3 (w : W) (r : outcome T) (w' : W)
    (trace : list retry_event) :
  retryWithBackoff sleep fn 3 1000 w = Some (r, w', trace) ->
  exists k : nat,
    (k < 3)%nat /\ fn (Spec.world_before sleep fn 1000 0 k w) = (r, w').
Proof.
  intros H. unfold retryWithBackoff in H.
  apply retry_loop_shape in H; [ | lia].
  destruct H as [k [Hk [_ [Hlast _]]]]. exists k. split; [lia | exact Hlast].
Qed.

(** X11. With at least one attempt allowed, whatever the operation
    does, the call settles, and it settles exactly as its last
    invocation did, in the world that invocation left; every
    invocation before the last failed recoverably and was followed by
    its wait; and a recoverable failure is rethrown only by the last
    attempt allowed. *)
Theorem retryWithBackoff_last_outcome (maxRetries initialDelay : Z) (w : W) :
  1 <= maxRetries ->
  exists (r : outcome T) (w' : W) (trace : list retry_event) (k : nat),
    retryWithBackoff sleep fn maxRetries initialDelay w = Some (r, w', trace)
    /\ Z.of_nat k < maxRetries
    /\ (forall j, (j < k)%nat ->
          Spec.fails_recoverably
            (fn (Spec.world_before sleep fn initialDelay 0 j w)))
    /\ fn (Spec.world_before sleep fn initialDelay 0 k w) = (r, w')
    /\ trace = Spec.schedule initialDelay 0 k
    /\ (forall e, r = Rejected e -> isRecoverableError e = true ->
                  Z.of_nat k = maxRetries - 1).
Proof.
  intros Hmax.
  destruct (retryWithBackoff_total sleep fn maxRetries initialDelay w)
    as [[[r w'] trace] H].
  exists r, w', trace.
  pose proof H as Hrun. unfold retryWithBackoff in H.
  apply retry_loop_shape in H; [ | lia].
  destruct H as [k [Hk [Hfail [Hlast [Htrace Hrecov]]]]].
  exists k. split; [exact Hrun | ]. split; [lia | ]. split; [exact Hfail | ].
  split; [exact Hlast | ]. split; [exact Htrace | ].
  intros e He Hrec. specialize (Hrecov e He Hrec). lia.
Qed.

(** X12. With at least one attempt allowed, the call settles after
    the operation has been invoked at least once and at most
    [maxRetries] times, and the time spent waiting is
    [initialDelay * (2 ^ (n - 1) - 1)] for [n] invocations: nothing
    for one, at most [initialDelay * (2 ^ (maxRetries - 1) - 1)] when
    the delay is not negative. *)
Theorem retryWithBackoff_bounds (maxRetries initialDelay : Z) (w : W) :
  1 <= maxRetries ->
  exists (r : outcome T) (w' : W) (trace : list retry_event),
    retryWithBackoff sleep fn maxRetries initialDelay w = Some (r, w', trace)
    /\ 1 <= Spec.invocations trace <= maxRetries
    /\ Props.total_wait trace
       = initialDelay * (2 ^ (Spec.invocations trace - 1) - 1)
    /\ (0 <= initialDelay ->
        Props.total_wait trace <= initialDelay * (2 ^ (maxRetries - 1) - 1)).
Proof.
  intros Hmax.
  destruct (retryWithBackoff_total sleep fn maxRetries initialDelay w)
    as [[[r w'] trace] H].
  exists r, w', trace. split; [exact H | ].
  unfold retryWithBackoff in H.
  apply retry_loop_shape in H; [ | lia].
  destruct H as [k [Hk [_ [_ [Htrace _]]]]]. simpl in Htrace. subst trace.
  rewrite invocations_schedule, total_wait_schedule by lia.
  replace (Z.of_nat k + 1 - 1) with (Z.of_nat k) by lia.
  rewrite Z.pow_0_r, Z.mul_1_r.
  split; [lia | ]. split; [reflexivity | ].
  intros Hd. apply Z.mul_le_mono_nonneg_l; [exact Hd | ].
  assert (2 ^ Z.of_nat k <= 2 ^ (maxRetries - 1)) by (apply Z.pow_le_mono_r; lia).
  lia.
Qed.

End RetryMore.

Section RetryMoreWitnesses.
Import JS ErrorHandler.

(** The operation that fails once and then succeeds. *)
Lemma retryWithBackoff_last_outcome_witness :
  exists (r : outcome Z) (w' : Z) (trace : list retry_event) (k : nat),
    retryWithBackoff Examples.clock_sleep Examples.flaky 3 1000 0 = Some (r, w', trace)
    /\ Z.of_nat k < 3
    /\ (forall j, (j < k)%nat ->
          Spec.fails_recoverably
            (Examples.flaky
               (Spec.world_before Examples.clock_sleep Examples.flaky 1000 0 j 0)))
    /\ Examples.flaky (Spec.world_before Examples.clock_sleep Examples.flaky 1000 0 k 0)
       = (r, w')
    /\ trace = Spec.schedule 1000 0 k
    /\ (forall e, r = Rejected e -> isRecoverableError e = true ->
                  Z.of_nat k = 3 - 1).
Proof.
  apply (retryWithBackoff_last_outcome Examples.clock_sleep Examples.flaky 3 1000 0).
  lia.
Defined.

(** Three attempts on a server that is down. *)
Lemma retryWithBackoff_bounds_witness :
  exists (r : outcome unit) (w' : Z) (trace : list retry_event),
    retryWithBackoff Examples.clock_sleep Examples.always_down 3 1000 0
    = Some (r, w', trace)
    /\ 1 <= Spec.invocations trace <= 3
    /\ Props.total_wait trace = 1000 * (2 ^ (Spec.invocations trace - 1) - 1)
    /\ (0 <= 1000 -> Props.total_wait trace <= 1000 * (2 ^ (3 - 1) - 1)).
Proof.
  apply (retryWithBackoff_bounds Examples.clock_sleep Examples.always_down 3 1000 0).
  lia.
Defined.

End RetryMoreWitnesses.

(* ================================================================== *)
(** * Further properties: the elapsed-time accumulator *)
(* ================================================================== *)

Section TrackerMore.
Import GameTimeTracker.

Lemma step_in_time (this : t) (from : Z) (c : call) :
  Props.in_time from this ->
  Spec.monotone from [c] ->
  Props.in_time (Spec.last_instant from [c]) (step this c).
Proof.
  unfold Props.in_time.
  destruct c as [now | now | now | ]; simpl; intros H Hm.
  - lia.
  - unfold pause. destruct (startTime this) as [s | ] eqn:Hs; [ | now rewrite Hs].
    destruct (lastPauseStart this) as [p | ] eqn:Hp.
    + rewrite Hs, Hp. lia.
    + simpl. lia.
  - unfold resume. destruct (lastPauseStart this) as [p | ] eqn:Hp.
    + simpl. destruct (startTime this); [lia | exact I].
    + destruct (startTime this); [rewrite Hp; lia | exact I].
  - exact I.
Qed.

Lemma fold_in_time (calls : list call) :
  forall this from,
    Props.in_time from this ->
    Spec.monotone from calls ->
    Props.in_time (Spec.last_instant from calls) (fold_left step calls this).
Proof.
  induction calls as [ | c calls IH]; intros this from Hin Hm; [exact Hin | ].
  destruct c as [now | now | now | ]; simpl in Hm |- *.
  - apply IH; [ | tauto]. apply (step_in_time this from (Start now) Hin). simpl. tauto.
  - apply IH; [ | tauto]. apply (step_in_time this from (Pause now) Hin). simpl. tauto.
  - apply IH; [ | tauto]. apply (step_in_time this from (Resume now) Hin). simpl. tauto.
  - apply IH; [ | exact Hm]. exact I.
Qed.

Lemma getElapsedSeconds_in_time (this : t) (upto now : Z) :
  Props.in_time upto this -> upto <= now ->
  match startTime this with
  | Some s => 0 <= fst (getElapsedSeconds now this) <= (now - s) / 1000
  | None => fst (getElapsedSeconds now this) = 0
  end.
Proof.
  unfold Props.in_time, getElapsedSeconds.
  destruct (startTime this) as [s | ]; [ | reflexivity].
  intros H Hnow. cbn [fst]. split.
  - apply Z.div_pos; [ | lia]. destruct (lastPauseStart this); lia.
  - apply Z.div_le_mono; [lia | ]. destruct (lastPauseStart this); lia.
Qed.

(** X13. After any sequence of calls whose instants do not go back,
    and queried not before the last of them, the seconds reported are
    never negative and never more than the seconds since the last
    [start()]; and for any tracker, a later query never reports
    less. *)
Theorem getElapsedSeconds_bounds :
  (forall calls from now,
      Spec.monotone from calls ->
      Spec.last_instant from calls <= now ->
      match startTime (run calls) with
      | Some s => 0 <= fst (getElapsedSeconds now (run calls)) <= (now - s) / 1000
      | None => fst (getElapsedSeconds now (run calls)) = 0
      end)
  /\ (forall this now now',
        now <= now' ->
        fst (getElapsedSeconds now this) <= fst (getElapsedSeconds now' this)).
Proof.
  split.
  - intros calls from now Hm Hlast.
    apply (getElapsedSeconds_in_time _ (Spec.last_instant from calls)); [ | exact Hlast].
    apply fold_in_time; [exact I | exact Hm].
  - intros this now now' Hle. unfold getElapsedSeconds.
    destruct (startTime this) as [s | ]; [ | simpl; lia].
    cbn [fst]. apply Z.div_le_mono; [lia | ].
    destruct (lastPauseStart this); lia.
Qed.

(** Three seconds of play, a pause of ten seconds, three more seconds
    of play, asked at 16 s and at 20 s. *)
Lemma getElapsedSeconds_bounds_witness :
  0 <= fst (getElapsedSeconds 16000 (run [Start 0; Pause 3000; Resume 13000]))
    <= (16000 - 0) / 1000
  /\ fst (getElapsedSeconds 16000 (run [Start 0; Pause 3000; Resume 13000]))
     <= fst (getElapsedSeconds 20000 (run [Start 0; Pause 3000; Resume 13000])).
Proof.
  destruct getElapsedSeconds_bounds as [Hbounds Hlater]. split.
  - apply (Hbounds [Start 0; Pause 3000; Resume 13000] 0 16000); simpl; lia.
  - apply (Hlater (run [Start 0; Pause 3000; Resume 13000]) 16000 20000). lia.
Defined.

End TrackerMore.

(* ================================================================== *)
(** * Further properties: creating a game *)
(* ================================================================== *)

Section CreateMore.
Import JS ErrorHandler UseGameState.

Variable backend : Backend.
Variable accessToken : option string.

(** The checks after the response of [createGame]: they pass exactly
    on a first session that is valid, and the only error they raise
    is the missing-session error, because a valid session has a valid
    first scene. *)
Lemma initial_state_of_cases (response : CreateGameResponse.t) :
  (exists firstSession others scene0 more,
      CreateGameResponse.sessions response = Some (firstSession :: others)
      /\ SessionData.scenes firstSession = scene0 :: more
      /\ Forall (fun scene => validateSceneData (SceneData_to_value scene) = true)
                (scene0 :: more)
      /\ initial_state_of response
         = Resolved
             {| gameId := Some (CreateGameResponse.game_id response);
                sessionId := Some (SessionData.session_id firstSession);
                currentSceneId := Some (SceneData.scene_id scene0);
                scenes := scene0 :: more;
                currentSceneIndex := 0;
                backgroundUrl := SessionData.background_url firstSession;
                isLoading := false;
                error := None |})
  \/ initial_state_of response = Rejected createMissingSessionError.
Proof.
  unfold initial_state_of.
  destruct (CreateGameResponse.sessions response) as [[ | firstSession others] | ];
    auto.
  rewrite validateSessionData_typed.
  destruct (SessionData.scenes firstSession) as [ | scene0 more] eqn:Hscenes; auto.
  destruct (forallb _ (scene0 :: more)) eqn:Hall; cbn [negb]; auto.
  left. exists firstSession, others, scene0, more.
  assert (Hfirst : validateSceneData (SceneData_to_value scene0) = true).
  { simpl in Hall. now apply andb_true_iff in Hall. }
  rewrite Hfirst. cbn [negb].
  split; [reflexivity | ]. split; [exact Hscenes | ].
  split; [ | reflexivity].
  now apply (forallb_Forall (fun scene => validateSceneData (SceneData_to_value scene))).
Qed.

(** X14. When [createNewGame] resolves, the state is built from the
    first session of the response alone: the three identifiers, the
    buffer with the index at 0, the background, no loading and no
    error; every scene of the buffer is valid; and the tracker is
    restarted at the instant of the response, so that no second has
    elapsed. *)
Theorem createNewGame_resolved (data : CreateGameRequest.t) (h h' : Hook) (w w' : World) :
  createNewGame backend accessToken data h w = Some (Resolved tt, h', w') ->
  exists token response trace firstSession others scene0 more,
    usable_token accessToken = Some token
    /\ retryWithBackoff sleep (createGame backend data token) 3 1000 w
       = Some (Resolved response, w', trace)
    /\ CreateGameResponse.sessions response = Some (firstSession :: others)
    /\ SessionData.scenes firstSession = scene0 :: more
    /\ gameState h'
       = {| gameId := Some (CreateGameResponse.game_id response);
            sessionId := Some (SessionData.session_id firstSession);
            currentSceneId := Some (SceneData.scene_id scene0);
            scenes := scene0 :: more;
            currentSceneIndex := 0;
            backgroundUrl := SessionData.background_url firstSession;
            isLoading := false;
            error := None |}
    /\ getCurrentScene (gameState h') = Some scene0
    /\ Forall (fun scene => validateSceneData (SceneData_to_value scene) = true)
              (scenes (gameState h'))
    /\ timeTracker h' = GameTimeTracker.start (now w') GameTimeTracker.new
    /\ fst (GameTimeTracker.getElapsedSeconds (now w') (timeTracker h')) = 0.
Proof.
  unfold createNewGame.
  destruct (usable_token accessToken) as [token | ] eqn:Htoken; [ | discriminate].
  destruct (retryWithBackoff sleep (createGame backend data token) 3 1000 w)
    as [[[settled w1] trace] | ] eqn:Hretry; [ | discriminate].
  destruct settled as [response | e]; [ | discriminate].
  destruct (initial_state_of_cases response)
    as [[firstSession [others [scene0 [more [Hs [Hsc [Hall Hinit]]]]]]] | Hinit];
    rewrite Hinit; [ | discriminate].
  intros H. injection H as <- <-.
  exists token, response, trace, firstSession, others, scene0, more.
  cbn [gameState timeTracker scenes].
  split; [reflexivity | ]. split; [exact Hretry | ].
  split; [exact Hs | ]. split; [exact Hsc | ].
  split; [reflexivity | ]. split; [reflexivity | ].
  split; [exact Hall | ]. split; [reflexivity | ].
  unfold GameTimeTracker.getElapsedSeconds. cbn. now rewrite !Z.sub_diag.
Qed.

(** What the checks after the response of [createGame] throw: the
    missing-session error, for a response without a first session
    that passes [validateSessionData]. *)
Lemma initial_state_of_rejected (response : CreateGameResponse.t) (e : thrown) :
  initial_state_of response = Rejected e ->
  e = createMissingSessionError
  /\ (CreateGameResponse.sessions response = None
      \/ CreateGameResponse.sessions response = Some []
      \/ exists firstSession others,
           CreateGameResponse.sessions response = Some (firstSession :: others)
           /\ validateSessionData (SessionData_to_value firstSession) = false).
Proof.
  unfold initial_state_of.
  destruct (CreateGameResponse.sessions response) as [[ | firstSession others] | ].
  - intros H. injection H as <-. split; [reflexivity | ]. right. now left.
  - destruct (validateSessionData (SessionData_to_value firstSession)) eqn:Hvalid;
      cbn [negb].
    + rewrite validateSessionData_typed in Hvalid.
      destruct (SessionData.scenes firstSession) as [ | scene0 more];
        [discriminate Hvalid | ].
      simpl in Hvalid. apply andb_true_iff in Hvalid. destruct Hvalid as [Hfirst _].
      rewrite Hfirst. cbn [negb]. discriminate.
    + intros H. injection H as <-. split; [reflexivity | ]. right. right.
      now exists firstSession, others.
  - intros H. injection H as <-. split; [reflexivity | ]. now left.
Qed.

(** X15. How [createNewGame] rejects. Without a usable token it throws
    the authentication error and leaves the hook and the world as
    they were. Otherwise the request has gone through the retry
    policy; nothing is loading any more, the message stored is
    [handleApiError] of what is thrown, and the identifiers, the
    buffer, the index, the background and the tracker are what they
    were. When the transport failed, what is thrown is its failure.
    When the transport answered with a response object, what is
    thrown is the missing-session error and the response has no first
    session that passes [validateSessionData]; the invalid-scene check
    that follows is then never the one that throws. *)
Theorem createNewGame_rejected (data : CreateGameRequest.t) (h h' : Hook) (w w' : World)
    (e : thrown) :
  createNewGame backend accessToken data h w = Some (Rejected e, h', w') ->
  (usable_token accessToken = None /\ e = auth_required /\ h' = h /\ w' = w)
  \/ (exists token settled trace,
        usable_token accessToken = Some token
        /\ retryWithBackoff sleep (createGame backend data token) 3 1000 w
           = Some (settled, w', trace)
        /\ isLoading (gameState h') = false
        /\ error (gameState h') = Some (handleApiError e)
        /\ Props.same_progress (gameState h') (gameState h)
        /\ timeTracker h' = timeTracker h
        /\ (forall e0, settled = Rejected e0 -> e = e0)
        /\ (forall response, settled = Resolved response ->
              e = createMissingSessionError
              /\ (CreateGameResponse.sessions response = None
                  \/ CreateGameResponse.sessions response = Some []
                  \/ exists firstSession others,
                       CreateGameResponse.sessions response
                       = Some (firstSession :: others)
                       /\ validateSessionData (SessionData_to_value firstSession)
                          = false))).
Proof.
  unfold createNewGame.
  destruct (usable_token accessToken) as [token | ] eqn:Htoken.
  - destruct (retryWithBackoff sleep (createGame backend data token) 3 1000 w)
      as [[[settled w1] trace] | ] eqn:Hretry; [ | discriminate].
    destruct (match settled with
              | Resolved response => initial_state_of response
              | Rejected error => Rejected error
              end) as [state | error] eqn:Htried; [discriminate | ].
    intros H. injection H as <- <- <-. right. exists token, settled, trace.
    split; [reflexivity | ]. split; [exact Hretry | ]. split; [reflexivity | ].
    split; [reflexivity | ]. split; [repeat split | ]. split; [reflexivity | ].
    split.
    + intros e0 ->. now injection Htried as <-.
    + intros response ->. now apply initial_state_of_rejected.
  - intros H. injection H as <- <- <-. left. repeat split.
Qed.

End CreateMore.

Section CreateMoreWitnesses.
Import JS ErrorHandler UseGameState.

(** Scenario A. *)
Lemma createNewGame_resolved_witness :
  exists token response trace firstSession others scene0 more,
    usable_token Examples.token = Some token
    /\ retryWithBackoff sleep
         (createGame Examples.backend_two_scenes Examples.brave_fantasy token)
         3 1000 Examples.world0
       = Some (Resolved response, Examples.world_two_scenes, trace)
    /\ CreateGameResponse.sessions response = Some (firstSession :: others)
    /\ SessionData.scenes firstSession = scene0 :: more
    /\ gameState Examples.hook_two_scenes
       = {| gameId := Some (CreateGameResponse.game_id response);
            sessionId := Some (SessionData.session_id firstSession);
            currentSceneId := Some (SceneData.scene_id scene0);
            scenes := scene0 :: more;
            currentSceneIndex := 0;
            backgroundUrl := SessionData.background_url firstSession;
            isLoading := false;
            error := None |}
    /\ getCurrentScene (gameState Examples.hook_two_scenes) = Some scene0
    /\ Forall (fun scene => validateSceneData (SceneData_to_value scene) = true)
              (scenes (gameState Examples.hook_two_scenes))
    /\ timeTracker Examples.hook_two_scenes
       = GameTimeTracker.start (now Examples.world_two_scenes) GameTimeTracker.new
    /\ fst (GameTimeTracker.getElapsedSeconds (now Examples.world_two_scenes)
              (timeTracker Examples.hook_two_scenes)) = 0.
Proof.
  apply (createNewGame_resolved Examples.backend_two_scenes Examples.token
           Examples.brave_fantasy initialHook Examples.hook_two_scenes
           Examples.world0 Examples.world_two_scenes).
  reflexivity.
Defined.

(** A first session whose second scene has an unknown type: the
    missing-session error, not the invalid-scene error. *)
Lemma createNewGame_rejected_witness :
  (usable_token Examples.token = None
   /\ createMissingSessionError = auth_required
   /\ MoreExamples.hook_after_bad_session = initialHook
   /\ MoreExamples.world_after_one_request = Examples.world0)
  \/ (exists token settled trace,
        usable_token Examples.token = Some token
        /\ retryWithBackoff sleep
             (createGame MoreExamples.backend_bad_session Examples.brave_fantasy token)
             3 1000 Examples.world0
           = Some (settled, MoreExamples.world_after_one_request, trace)
        /\ isLoading (gameState MoreExamples.hook_after_bad_session) = false
        /\ error (gameState MoreExamples.hook_after_bad_session)
           = Some (handleApiError createMissingSessionError)
        /\ Props.same_progress (gameState MoreExamples.hook_after_bad_session)
                               (gameState initialHook)
        /\ timeTracker MoreExamples.hook_after_bad_session = timeTracker initialHook
        /\ (forall e0, settled = Rejected e0 -> createMissingSessionError = e0)
        /\ (forall response, settled = Resolved response ->
              createMissingSessionError = createMissingSessionError
              /\ (CreateGameResponse.sessions response = None
                  \/ CreateGameResponse.sessions response = Some []
                  \/ exists firstSession others,
                       CreateGameResponse.sessions response
                       = Some (firstSession :: others)
                       /\ validateSessionData (SessionData_to_value firstSession)
                          = false))).
Proof.
  apply (createNewGame_rejected MoreExamples.backend_bad_session Examples.token
           Examples.brave_fantasy initialHook MoreExamples.hook_after_bad_session
           Examples.world0 MoreExamples.world_after_one_request
           createMissingSessionError).
  reflexivity.
Defined.

End CreateMoreWitnesses.

(* ================================================================== *)
(** * Further properties: advancing *)
(* ================================================================== *)

Section AdvanceMore.
Import JS ErrorHandler UseGameState.

Variable backend : Backend.
Variable accessToken : option string.

Lemma next_state_of_cases (response : NextSceneResponse.t) :
  (exists scene0 rest,
      NextSceneResponse.scenes response = Some (scene0 :: rest)
      /\ validateSceneData (SceneData_to_value scene0) = true
      /\ next_state_of response
         = Resolved (scenes_replaced response (scene0 :: rest) scene0))
  \/ next_state_of response = Rejected createInvalidSceneError.
Proof.
  unfold next_state_of.
  destruct (NextSceneResponse.scenes response) as [[ | scene0 rest] | ]; auto.
  destruct (validateSceneData (SceneData_to_value scene0)) eqn:Hvalid; cbn [negb]; auto.
  left. now exists scene0, rest.
Qed.

(** The world before the attempt [k] of a transport call that is
    being retried has [k] more copies of its request. *)
Lemma world_before_requests
    (call : World -> outcome NextSceneResponse.t * World) (rq : request)
    (initialDelay : Z) (k : nat) :
  (forall w0, snd (call w0) = send backend rq w0) ->
  forall attempt w,
    requests (Spec.world_before sleep call initialDelay attempt k w)
    = requests w ++ repeat rq k.
Proof.
  intros Hcall. induction k as [ | k IH]; intros attempt w; simpl.
  - now rewrite app_nil_r.
  - rewrite IH, Hcall. simpl. now rewrite <- app_assoc.
Qed.

(** [advance_with] settles after one to three copies of one request. *)
Lemma advance_with_requests
    (call : NextSceneRequest.t -> World -> outcome NextSceneResponse.t * World)
    (rq : NextSceneRequest.t -> request)
    (emotion : option EmotionUtils.EmotionData) (h : Hook) (w : World) :
  (forall data w0, snd (call data w0) = send backend (rq data) w0) ->
  exists r h' w' n,
    advance_with call emotion h w = Some (r, h', w')
    /\ (1 <= n <= 3)%nat
    /\ requests w' = requests w ++ repeat (rq (Props.request_data emotion h w)) n.
Proof.
  intros Hcall. unfold advance_with.
  change {| NextSceneRequest.emotion := _; NextSceneRequest.time := _ |}
    with (Props.request_data emotion h w).
  set (data := Props.request_data emotion h w).
  destruct (retryWithBackoff_total sleep (call data) 3 1000 w)
    as [[[settled w1] trace] Hr].
  rewrite Hr.
  destruct (retryWithBackoff_shape_3 _ _ _ _ _ _ Hr) as [k [Hk Hlast]].
  assert (Hreq : requests w1 = requests w ++ repeat (rq data) (S k)).
  { replace w1 with (snd (call data (Spec.world_before sleep (call data) 1000 0 k w)))
      by now rewrite Hlast.
    rewrite Hcall. simpl.
    rewrite (world_before_requests (call data) (rq data) 1000 k (Hcall data)).
    rewrite <- app_assoc. f_equal. symmetry. apply repeat_cons. }
  destruct (match settled with
            | Resolved response => next_state_of response
            | Rejected error => Rejected error
            end); do 3 eexists; exists (S k);
    (split; [reflexivity | split; [lia | exact Hreq]]).
Qed.

Lemma advance_with_resolved
    (call : NextSceneRequest.t -> World -> outcome NextSceneResponse.t * World)
    (emotion : option EmotionUtils.EmotionData) (h h' : Hook) (w w' : World) :
  advance_with call emotion h w = Some (Resolved tt, h', w') ->
  exists response scene0 rest,
    NextSceneResponse.scenes response = Some (scene0 :: rest)
    /\ validateSceneData (SceneData_to_value scene0) = true
    /\ h' = setGameState (scenes_replaced response (scene0 :: rest) scene0)
                         (setGameState loading_started h).
Proof.
  unfold advance_with.
  destruct (retryWithBackoff _ _ _ _ _) as [[[settled w1] trace] | ]; [ | discriminate].
  destruct settled as [response | e]; [ | discriminate].
  destruct (next_state_of_cases response) as [[scene0 [rest [Hs [Hv Hn]]]] | Hn];
    rewrite Hn; [ | discriminate].
  intros H. injection H as <- <-. now exists response, scene0, rest.
Qed.

Lemma advance_with_rejected
    (call : NextSceneRequest.t -> World -> outcome NextSceneResponse.t * World)
    (emotion : option EmotionUtils.EmotionData) (h h' : Hook) (w w' : World)
    (e : thrown) :
  advance_with call emotion h w = Some (Rejected e, h', w') ->
  h' = setGameState (loading_failed (handleApiError e)) (setGameState loading_started h).
Proof.
  unfold advance_with.
  destruct (retryWithBackoff _ _ _ _ _) as [[[settled w1] trace] | ]; [ | discriminate].
  destruct (match settled with
            | Resolved response => next_state_of response
            | Rejected error => Rejected error
            end) as [update | error]; [discriminate | ].
  intros H. now injection H as <- <- <-.
Qed.

(** The guards of [proceedToNextScene], one after the other, and what
    it is when they all pass. *)
Lemma proceedToNextScene_cases
    (emotion : option EmotionUtils.EmotionData) (h : Hook) (w : World) :
  (usable_token accessToken = None
   /\ proceedToNextScene backend accessToken emotion h w
      = Some (Rejected auth_required, h, w))
  \/ (usable_token accessToken <> None
      /\ (gameId (gameState h) = None \/ sessionId (gameState h) = None
          \/ currentSceneId (gameState h) = None)
      /\ proceedToNextScene backend accessToken emotion h w
         = Some (Rejected createInvalidSceneError, h, w))
  \/ (exists scene,
        getCurrentScene (gameState h) = Some scene
        /\ SceneData.type scene <> "dialogue"
        /\ proceedToNextScene backend accessToken emotion h w
           = Some (Rejected (createInvalidSceneTypeError (SceneData.type scene)), h, w))
  \/ (exists token g s c,
        usable_token accessToken = Some token
        /\ gameId (gameState h) = Some g
        /\ sessionId (gameState h) = Some s
        /\ currentSceneId (gameState h) = Some c
        /\ (forall scene, getCurrentScene (gameState h) = Some scene ->
                          SceneData.type scene = "dialogue")
        /\ proceedToNextScene backend accessToken emotion h w
           = advance_with (fun data => generateNextScene backend g s c data token)
                          emotion h w).
Proof.
  unfold proceedToNextScene.
  destruct (usable_token accessToken) as [token | ]; [ | now left].
  right.
  destruct (gameId (gameState h)) as [g | ];
    [ | left; split; [discriminate | split; [now left | reflexivity]]].
  destruct (sessionId (gameState h)) as [s | ];
    [ | left; split; [discriminate | split; [now right; left | reflexivity]]].
  destruct (currentSceneId (gameState h)) as [c | ];
    [ | left; split; [discriminate | split; [now right; right | reflexivity]]].
  right.
  destruct (getCurrentScene (gameState h)) as [scene | ].
  - destruct (String.eqb_spec (SceneData.type scene) "dialogue") as [Hd | Hd];
      cbn [negb].
    + right. exists token, g, s, c. repeat split.
      intros scene' H. now injection H as <-.
    + left. exists scene. now repeat split.
  - right. exists token, g, s, c. repeat split. discriminate.
Qed.

Lemma offered_iff (scene : SceneData.t) (selectionId : Z) :
  match SceneData.selections scene with
  | Some choices => existsb (fun kv => fst kv === toString selectionId) choices
  | None => false
  end = true
  <-> Props.offers scene selectionId.
Proof.
  unfold Props.offers. destruct (SceneData.selections scene) as [choices | ].
  - rewrite existsb_exists. split.
    + intros [[key text] [Hin Hkey]]. apply String.eqb_eq in Hkey. simpl in Hkey.
      subst key. exists choices. split; [reflexivity | now exists text].
    + intros [choices' [Hc [text Hin]]]. injection Hc as <-.
      exists (toString selectionId, text). split; [exact Hin | apply String.eqb_refl].
  - split; [discriminate | ]. intros [choices [Hc _]]. discriminate Hc.
Qed.

Lemma selectChoice_cases (selectionId : Z)
    (emotion : option EmotionUtils.EmotionData) (h : Hook) (w : World) :
  (usable_token accessToken = None
   /\ selectChoice backend accessToken selectionId emotion h w
      = Some (Rejected auth_required, h, w))
  \/ (usable_token accessToken <> None
      /\ (gameId (gameState h) = None \/ sessionId (gameState h) = None
          \/ currentSceneId (gameState h) = None
          \/ getCurrentScene (gameState h) = None)
      /\ selectChoice backend accessToken selectionId emotion h w
         = Some (Rejected createInvalidSceneError, h, w))
  \/ (exists scene,
        getCurrentScene (gameState h) = Some scene
        /\ is_selection_type (SceneData.type scene) = false
        /\ selectChoice backend accessToken selectionId emotion h w
           = Some (Rejected (createInvalidSceneTypeError (SceneData.type scene)), h, w))
  \/ (exists scene,
        getCurrentScene (gameState h) = Some scene
        /\ is_selection_type (SceneData.type scene) = true
        /\ ~ Props.offers scene selectionId
        /\ selectChoice backend accessToken selectionId emotion h w
           = Some (Rejected (createInvalidChoiceError selectionId), h, w))
  \/ (exists token g s c scene,
        usable_token accessToken = Some token
        /\ gameId (gameState h) = Some g
        /\ sessionId (gameState h) = Some s
        /\ currentSceneId (gameState h) = Some c
        /\ getCurrentScene (gameState h) = Some scene
        /\ is_selection_type (SceneData.type scene) = true
        /\ Props.offers scene selectionId
        /\ selectChoice backend accessToken selectionId emotion h w
           = advance_with
               (fun data =>
                  generateSceneAfterSelection backend g s c selectionId data token)
               emotion h w).
Proof.
  unfold selectChoice.
  destruct (usable_token accessToken) as [token | ]; [ | now left].
  right.
  destruct (gameId (gameState h)) as [g | ];
    [ | left; split; [discriminate | split; [now left | reflexivity]]].
  destruct (sessionId (gameState h)) as [s | ];
    [ | left; split; [discriminate | split; [now right; left | reflexivity]]].
  destruct (currentSceneId (gameState h)) as [c | ];
    [ | left; split; [discriminate | split; [now right; right; left | reflexivity]]].
  destruct (getCurrentScene (gameState h)) as [scene | ];
    [ | left; split; [discriminate | split; [now right; right; right | reflexivity]]].
  right.
  destruct (is_selection_type (SceneData.type scene)) eqn:Htype; cbn [negb].
  - right.
    pose proof (offered_iff scene selectionId) as Hoff.
    destruct (match SceneData.selections scene with
              | Some choices => existsb (fun kv => fst kv === toString selectionId) choices
              | None => false
              end); cbn [negb].
    + right. exists token, g, s, c, scene. repeat split; auto. now apply Hoff.
    + left. exists scene. repeat split; auto.
      intros H. apply Hoff in H. discriminate H.
  - left. exists scene. now repeat split.
Qed.



(** X17. [selectChoice] refuses, before anything is sent and without
    touching the hook: a call without a usable token, with the
    authentication error; a call without identifiers or without a
    current scene, with the invalid-scene error; a current scene that
    is not of selection type, with the error that carries its type; a
    choice whose identifier is not a key of the choices of the current
    scene, with the error that carries the identifier. A request is
    sent only when all these guards pass. The two statements about the
    keys are for an identifier that is a safe integer, which
    [toString()] writes in plain decimal. *)
Theorem selectChoice_guards (selectionId : Z)
    (emotion : option EmotionUtils.EmotionData) (h : Hook) (w : World) :
  (usable_token accessToken = None ->
   selectChoice backend accessToken selectionId emotion h w
   = Some (Rejected auth_required, h, w))
  /\ (usable_token accessToken <> None ->
      gameId (gameState h) = None \/ sessionId (gameState h) = None
      \/ currentSceneId (gameState h) = None \/ getCurrentScene (gameState h) = None ->
      selectChoice backend accessToken selectionId emotion h w
      = Some (Rejected createInvalidSceneError, h, w))
  /\ (forall scene,
        usable_token accessToken <> None ->
        gameId (gameState h) <> None -> sessionId (gameState h) <> None ->
        currentSceneId (gameState h) <> None ->
        getCurrentScene (gameState h) = Some scene ->
        (is_selection_type (SceneData.type scene) = false ->
         selectChoice backend accessToken selectionId emotion h w
         = Some (Rejected (createInvalidSceneTypeError (SceneData.type scene)), h, w))
        /\ (Props.safe_integer selectionId ->
            is_selection_type (SceneData.type scene) = true ->
            ~ Props.offers scene selectionId ->
            selectChoice backend accessToken selectionId emotion h w
            = Some (Rejected (createInvalidChoiceError selectionId), h, w)))
  /\ (forall r h' w',
        Props.safe_integer selectionId ->
        selectChoice backend accessToken selectionId emotion h w = Some (r, h', w') ->
        requests w' <> requests w ->
        exists scene,
          usable_token accessToken <> None
          /\ gameId (gameState h) <> None /\ sessionId (gameState h) <> None
          /\ currentSceneId (gameState h) <> None
          /\ getCurrentScene (gameState h) = Some scene
          /\ is_selection_type (SceneData.type scene) = true
          /\ Props.offers scene selectionId).
Proof.
  destruct (selectChoice_cases selectionId emotion h w)
    as [[Ht Hp] | [[Ht [Hid Hp]] | [[scene [Hs [Hty Hp]]] | [[scene [Hs [Hty [Hoff Hp]]]] | [token [g [s [c [scene [Ht [Hg [Hss [Hc [Hs [Hty [Hoff Hp]]]]]]]]]]]]]]]].
  - split; [intros _; exact Hp | ]. split; [intros H; now destruct H | ].
    split; [intros scene H; now destruct H | ].
    intros r h' w' _ H. rewrite Hp in H. injection H as _ _ <-. intros H. now destruct H.
  - split; [intros H; now destruct Ht | ]. split; [intros _ _; exact Hp | ].
    split.
    + intros scene _ Hg Hss Hc Hs.
      destruct Hid as [H | [H | [H | H]]]; congruence.
    + intros r h' w' _ H. rewrite Hp in H. injection H as _ _ <-. intros H. now destruct H.
  - unfold selectChoice in Hp |- *.
    destruct (usable_token accessToken) as [token | ] eqn:Ht.
    + split; [discriminate | ]. split.
      * intros _ [H | [H | [H | H]]]; rewrite H; try reflexivity.
        -- destruct (gameId (gameState h)); reflexivity.
        -- destruct (gameId (gameState h)), (sessionId (gameState h)); reflexivity.
        -- congruence.
      * split.
        -- intros scene' _ Hg Hss Hc Hs'. rewrite Hs in Hs'. injection Hs' as <-.
           split; [intros _; exact Hp | ]. intros _ H. congruence.
        -- intros r h' w' _ H. rewrite Hp in H. injection H as _ _ <-.
           intros H. now destruct H.
    + split; [reflexivity | ]. split; [intros H; now destruct H | ].
      split; [intros scene' H; now destruct H | ].
      intros r h' w' _ H. injection H as _ _ <-. intros H. now destruct H.
  - unfold selectChoice in Hp |- *.
    destruct (usable_token accessToken) as [token | ] eqn:Ht.
    + split; [discriminate | ]. split.
      * intros _ [H | [H | [H | H]]]; rewrite H; try reflexivity.
        -- destruct (gameId (gameState h)); reflexivity.
        -- destruct (gameId (gameState h)), (sessionId (gameState h)); reflexivity.
        -- congruence.
      * split.
        -- intros scene' _ Hg Hss Hc Hs'. rewrite Hs in Hs'. injection Hs' as <-.
           split; [intros H; congruence | intros _ _ _; exact Hp].
        -- intros r h' w' _ H. rewrite Hp in H. injection H as _ _ <-.
           intros H. now destruct H.
    + split; [reflexivity | ]. split; [intros H; now destruct H | ].
      split; [intros scene' H; now destruct H | ].
      intros r h' w' _ H. injection H as _ _ <-. intros H. now destruct H.
  - split; [intros H; congruence | ]. split.
    + intros _ [H | [H | [H | H]]]; congruence.
    + split.
      * intros scene' _ _ _ _ Hs'. rewrite Hs in Hs'. injection Hs' as <-.
        split; [intros H; congruence | intros _ _ H; now destruct H].
      * intros r h' w' _ _ _. exists scene.
        repeat split; auto; congruence.
Qed.

(** X18. [proceedToNextScene] refuses, before anything is sent and
    without touching the hook: a call without a usable token, with
    the authentication error; a call without identifiers, with the
    invalid-scene error; a current scene that is not of dialogue type,
    with the error that carries its type. A request is sent only when
    these guards pass; an empty buffer passes them. *)
Theorem proceedToNextScene_guards
    (emotion : option EmotionUtils.EmotionData) (h : Hook) (w : World) :
  (usable_token accessToken = None ->
   proceedToNextScene backend accessToken emotion h w
   = Some (Rejected auth_required, h, w))
  /\ (usable_token accessToken <> None ->
      gameId (gameState h) = None \/ sessionId (gameState h) = None
      \/ currentSceneId (gameState h) = None ->
      proceedToNextScene backend accessToken emotion h w
      = Some (Rejected createInvalidSceneError, h, w))
  /\ (forall scene,
        usable_token accessToken <> None ->
        gameId (gameState h) <> None -> sessionId (gameState h) <> None ->
        currentSceneId (gameState h) <> None ->
        getCurrentScene (gameState h) = Some scene ->
        SceneData.type scene <> "dialogue" ->
        proceedToNextScene backend accessToken emotion h w
        = Some (Rejected (createInvalidSceneTypeError (SceneData.type scene)), h, w))
  /\ (forall r h' w',
        proceedToNextScene backend accessToken emotion h w = Some (r, h', w') ->
        requests w' <> requests w ->
        usable_token accessToken <> None
        /\ gameId (gameState h) <> None /\ sessionId (gameState h) <> None
        /\ currentSceneId (gameState h) <> None
        /\ forall scene, getCurrentScene (gameState h) = Some scene ->
                         SceneData.type scene = "dialogue").
Proof.
  destruct (proceedToNextScene_cases emotion h w)
    as [[Ht Hp] | [[Ht [Hid Hp]] | [[scene [Hs [Hty Hp]]] | [token [g [s [c [Ht [Hg [Hss [Hc [Hty Hp]]]]]]]]]]]].
  - split; [intros _; exact Hp | ]. split; [intros H; now destruct H | ].
    split; [intros scene H; now destruct H | ].
    intros r h' w' H. rewrite Hp in H. injection H as _ _ <-. intros H. now destruct H.
  - split; [intros H; now destruct Ht | ]. split; [intros _ _; exact Hp | ].
    split.
    + intros scene _ Hg Hss Hc. destruct Hid as [H | [H | H]]; congruence.
    + intros r h' w' H. rewrite Hp in H. injection H as _ _ <-. intros H. now destruct H.
  - unfold proceedToNextScene in Hp |- *.
    destruct (usable_token accessToken) as [token | ] eqn:Ht.
    + split; [discriminate | ]. split.
      * intros _ [H | [H | H]]; rewrite H; try reflexivity.
        -- destruct (gameId (gameState h)); reflexivity.
        -- destruct (gameId (gameState h)), (sessionId (gameState h)); reflexivity.
      * split.
        -- intros scene' _ Hg Hss Hc Hs' _. rewrite Hs in Hs'. injection Hs' as <-.
           exact Hp.
        -- intros r h' w' H. rewrite Hp in H. injection H as _ _ <-.
           intros H. now destruct H.
    + split; [reflexivity | ]. split; [intros H; now destruct H | ].
      split; [intros scene' H; now destruct H | ].
      intros r h' w' H. injection H as _ _ <-. intros H. now destruct H.
  - split; [intros H; congruence | ]. split.
    + intros _ [H | [H | H]]; congruence.
    + split.
      * intros scene _ _ _ _ Hs Hnd. now destruct (Hnd (Hty scene Hs)).
      * intros r h' w' _ _. repeat split; auto; congruence.
Qed.

(** X19. When the guards pass, an advance sends its request one to
    three times and nothing else: every copy is the request built
    when the call was made, with the emotion given (or the default
    one) and the seconds elapsed at that moment; a retry does not read
    the clock again. For [selectChoice] the identifier of the choice is
    a safe integer, which [toString()] writes in plain decimal. *)
Theorem advance_sends_copies (selectionId : Z)
    (emotion : option EmotionUtils.EmotionData) (h : Hook) (w : World)
    (token : string) (g s c : Z) :
  usable_token accessToken = Some token ->
  gameId (gameState h) = Some g ->
  sessionId (gameState h) = Some s ->
  currentSceneId (gameState h) = Some c ->
  ((forall scene, getCurrentScene (gameState h) = Some scene ->
                  SceneData.type scene = "dialogue") ->
   exists r h' w' n,
     proceedToNextScene backend accessToken emotion h w = Some (r, h', w')
     /\ (1 <= n <= 3)%nat
     /\ requests w'
        = requests w
          ++ repeat (GenerateNextScene g s c (Props.request_data emotion h w) token) n)
  /\ (forall scene,
        Props.safe_integer selectionId ->
        getCurrentScene (gameState h) = Some scene ->
        is_selection_type (SceneData.type scene) = true ->
        Props.offers scene selectionId ->
        exists r h' w' n,
          selectChoice backend accessToken selectionId emotion h w = Some (r, h', w')
          /\ (1 <= n <= 3)%nat
          /\ requests w'
             = requests w
               ++ repeat (GenerateSceneAfterSelection g s c selectionId
                            (Props.request_data emotion h w) token) n).
Proof.
  intros Ht Hg Hs Hc. split.
  - intros Hty.
    destruct (proceedToNextScene_cases emotion h w)
      as [[Ht' _] | [[_ [Hid _]] | [[scene [Hsc [Hnd _]]] | [token' [g' [s' [c' [Ht' [Hg' [Hs' [Hc' [_ Hp]]]]]]]]]]]].
    + congruence.
    + destruct Hid as [H | [H | H]]; congruence.
    + now destruct (Hnd (Hty scene Hsc)).
    + rewrite Hp.
      assert (token' = token) by congruence. assert (g' = g) by congruence.
      assert (s' = s) by congruence. assert (c' = c) by congruence. subst.
      apply (advance_with_requests
               (fun data => generateNextScene backend g s c data token)
               (fun data => GenerateNextScene g s c data token)).
      reflexivity.
  - intros scene _ Hsc Hty Hoff.
    destruct (selectChoice_cases selectionId emotion h w)
      as [[Ht' _] | [[_ [Hid _]] | [[scene' [Hsc' [Hty' _]]] | [[scene' [Hsc' [_ [Hoff' _]]]] | [token' [g' [s' [c' [scene' [Ht' [Hg' [Hs' [Hc' [_ [_ [_ Hp]]]]]]]]]]]]]]]].
    + congruence.
    + destruct Hid as [H | [H | [H | H]]]; congruence.
    + congruence.
    + assert (scene' = scene) by congruence. subst. now destruct Hoff'.
    + rewrite Hp.
      assert (token' = token) by congruence. assert (g' = g) by congruence.
      assert (s' = s) by congruence. assert (c' = c) by congruence. subst.
      apply (advance_with_requests
               (fun data => generateSceneAfterSelection backend g s c selectionId data token)
               (fun data => GenerateSceneAfterSelection g s c selectionId data token)).
      reflexivity.
Qed.

(** A resolved advance is the answer of the transport taken over. *)
Lemma advance_with_resolved_by
    (call : NextSceneRequest.t -> World -> outcome NextSceneResponse.t * World)
    (emotion : option EmotionUtils.EmotionData) (h h' : Hook) (w w' : World) :
  advance_with call emotion h w = Some (Resolved tt, h', w') ->
  exists response trace,
    retryWithBackoff sleep (call (Props.request_data emotion h w)) 3 1000 w
    = Some (Resolved response, w', trace)
    /\ Props.advanced_to response h h'.
Proof.
  unfold advance_with.
  change {| NextSceneRequest.emotion := _; NextSceneRequest.time := _ |}
    with (Props.request_data emotion h w).
  destruct (retryWithBackoff sleep (call (Props.request_data emotion h w)) 3 1000 w)
    as [[[settled w1] trace] | ] eqn:Hretry; [ | discriminate].
  destruct settled as [response | e]; [ | discriminate].
  destruct (next_state_of_cases response) as [[scene0 [rest [Hs [Hv Hn]]]] | Hn];
    rewrite Hn; [ | discriminate].
  intros H. injection H as <- <-. exists response, trace.
  split; [reflexivity | ]. exists scene0, rest.
  split; [exact Hs | ]. split; [exact Hv | ]. repeat split.
Qed.

(** X20. When [proceedToNextScene] or [selectChoice] resolves, the
    guards have passed and the retried request, built when the call
    was made, has been answered with a response; the hook is advanced
    to that response: the buffer is its scenes, the index is 0, the
    current scene is the first of them, which is valid, the session is
    the one of the response, the game is the same, the background is
    the one of the response or else the previous one, nothing is
    loading and no error is stored; the tracker is not touched, so the
    time keeps running from one buffer to the next. *)
Theorem advance_resolved (selectionId : Z)
    (emotion : option EmotionUtils.EmotionData) (h h' : Hook) (w w' : World) :
  (proceedToNextScene backend accessToken emotion h w = Some (Resolved tt, h', w') ->
   exists token g s c response trace,
     usable_token accessToken = Some token
     /\ gameId (gameState h) = Some g
     /\ sessionId (gameState h) = Some s
     /\ currentSceneId (gameState h) = Some c
     /\ retryWithBackoff sleep
          (generateNextScene backend g s c (Props.request_data emotion h w) token)
          3 1000 w
        = Some (Resolved response, w', trace)
     /\ Props.advanced_to response h h')
  /\ (selectChoice backend accessToken selectionId emotion h w
      = Some (Resolved tt, h', w') ->
      exists token g s c response trace,
        usable_token accessToken = Some token
        /\ gameId (gameState h) = Some g
        /\ sessionId (gameState h) = Some s
        /\ currentSceneId (gameState h) = Some c
        /\ retryWithBackoff sleep
             (generateSceneAfterSelection backend g s c selectionId
                (Props.request_data emotion h w) token)
             3 1000 w
           = Some (Resolved response, w', trace)
        /\ Props.advanced_to response h h').
Proof.
  split; intros H.
  - destruct (proceedToNextScene_cases emotion h w)
      as [[_ Hp] | [[_ [_ Hp]] | [[scene [_ [_ Hp]]] | [token [g [s [c [Ht [Hg [Hs [Hc [_ Hp]]]]]]]]]]]];
      try (rewrite Hp in H; discriminate H).
    rewrite Hp in H. apply advance_with_resolved_by in H.
    destruct H as [response [trace [Hr Ha]]].
    exists token, g, s, c, response, trace. repeat split; assumption.
  - destruct (selectChoice_cases selectionId emotion h w)
      as [[_ Hp] | [[_ [_ Hp]] | [[scene [_ [_ Hp]]] | [[scene [_ [_ [_ Hp]]]] | [token [g [s [c [scene [Ht [Hg [Hs [Hc [_ [_ [_ Hp]]]]]]]]]]]]]]]];
      try (rewrite Hp in H; discriminate H).
    rewrite Hp in H. apply advance_with_resolved_by in H.
    destruct H as [response [trace [Hr Ha]]].
    exists token, g, s, c, response, trace. repeat split; assumption.
Qed.

End AdvanceMore.

Section AdvanceMoreWitnesses.
Import JS ErrorHandler UseGameState.


(** Scenario C: the choice 99 is not offered. *)
Lemma selectChoice_guards_witness :
  selectChoice Examples.backend_after_choice Examples.token 99 None
    Examples.hook_choice Examples.world_two_scenes
  = Some (Rejected (createInvalidChoiceError 99), Examples.hook_choice,
          Examples.world_two_scenes).
Proof.
  destruct (selectChoice_guards Examples.backend_after_choice Examples.token 99 None
              Examples.hook_choice Examples.world_two_scenes)
    as [_ [_ [Hscene _]]].
  apply (Hscene Examples.choice_scene); try discriminate; try reflexivity.
  intros [choices [Hc [text Hin]]]. injection Hc as <-.
  destruct Hin as [H | [H | []]]; vm_compute in H; discriminate H.
Defined.

(** A selection scene cannot be advanced as a dialogue. *)
Lemma proceedToNextScene_guards_witness :
  proceedToNextScene Examples.backend_after_choice Examples.token None
    Examples.hook_choice Examples.world_two_scenes
  = Some (Rejected (createInvalidSceneTypeError "selections"), Examples.hook_choice,
          Examples.world_two_scenes).
Proof.
  destruct (proceedToNextScene_guards Examples.backend_after_choice Examples.token None
              Examples.hook_choice Examples.world_two_scenes)
    as [_ [_ [Hscene _]]].
  apply (Hscene Examples.choice_scene); try discriminate; reflexivity.
Defined.

(** Scenario A after the creation, and scenario C with the choice 1. *)
Lemma advance_sends_copies_witness :
  (exists r h' w' n,
      proceedToNextScene Examples.backend_two_scenes Examples.token None
        Examples.hook_two_scenes Examples.world_two_scenes = Some (r, h', w')
      /\ (1 <= n <= 3)%nat
      /\ requests w'
         = requests Examples.world_two_scenes
           ++ repeat (GenerateNextScene 123 1 1
                        (Props.request_data None Examples.hook_two_scenes
                           Examples.world_two_scenes) "test-token") n)
  /\ (exists r h' w' n,
        selectChoice Examples.backend_after_choice Examples.token 1 None
          Examples.hook_choice Examples.world_two_scenes = Some (r, h', w')
        /\ (1 <= n <= 3)%nat
        /\ requests w'
           = requests Examples.world_two_scenes
             ++ repeat (GenerateSceneAfterSelection 123 1 5 1
                          (Props.request_data None Examples.hook_choice
                             Examples.world_two_scenes) "test-token") n).
Proof.
  split.
  - apply (proj1 (advance_sends_copies Examples.backend_two_scenes Examples.token 0 None
                    Examples.hook_two_scenes Examples.world_two_scenes
                    "test-token" 123 1 1 eq_refl eq_refl eq_refl eq_refl)).
    intros scene H. injection H as <-. reflexivity.
  - apply (proj2 (advance_sends_copies Examples.backend_after_choice Examples.token 1 None
                    Examples.hook_choice Examples.world_two_scenes
                    "test-token" 123 1 5 eq_refl eq_refl eq_refl eq_refl)
                 Examples.choice_scene); try reflexivity.
    + unfold Props.safe_integer. vm_compute. discriminate.
    + exists [("1", "Go left"); ("2", "Go right")]. split; [reflexivity | ].
      exists "Go left". left. reflexivity.
Defined.

(** Scenario A after the creation: the advance resolves. *)
Lemma advance_resolved_witness :
  exists token g s c response trace,
    usable_token Examples.token = Some token
    /\ gameId (gameState Examples.hook_two_scenes) = Some g
    /\ sessionId (gameState Examples.hook_two_scenes) = Some s
    /\ currentSceneId (gameState Examples.hook_two_scenes) = Some c
    /\ retryWithBackoff sleep
         (generateNextScene Examples.backend_two_scenes g s c
            (Props.request_data None Examples.hook_two_scenes Examples.world_two_scenes)
            token)
         3 1000 Examples.world_two_scenes
       = Some (Resolved response, snd MoreExamples.after_advance, trace)
    /\ Props.advanced_to response Examples.hook_two_scenes
                         (fst MoreExamples.after_advance).
Proof.
  apply (proj1 (advance_resolved Examples.backend_two_scenes Examples.token 0 None
                  Examples.hook_two_scenes (fst MoreExamples.after_advance)
                  Examples.world_two_scenes (snd MoreExamples.after_advance))).
  reflexivity.
Defined.

End AdvanceMoreWitnesses.

(* ================================================================== *)
(** * Further properties: what the hook keeps *)
(* ================================================================== *)

Section HookInvariant.
Import JS ErrorHandler UseGameState.

Lemma well_formed_failed (message : string) (state : GameState) :
  Props.well_formed state ->
  Props.well_formed (loading_failed message (loading_started state)).
Proof.
  unfold Props.well_formed. intros [Hi [_ Hs]]. cbn. split; [exact Hi | ].
  split; [reflexivity | exact Hs].
Qed.

Lemma createNewGame_well_formed (backend : Backend) (accessToken : option string)
    (data : CreateGameRequest.t) (h : Hook) (w : World) :
  Props.well_formed (gameState h) ->
  exists r h' w',
    createNewGame backend accessToken data h w = Some (r, h', w')
    /\ Props.well_formed (gameState h').
Proof.
  intros Hwf. unfold createNewGame.
  destruct (usable_token accessToken) as [token | ]; [ | now do 3 eexists].
  destruct (retryWithBackoff_total sleep (createGame backend data token) 3 1000 w)
    as [[[settled w1] trace] Hr].
  rewrite Hr.
  destruct settled as [response | e].
  - destruct (initial_state_of_cases response)
      as [[firstSession [others [scene0 [more [Hs [Hsc [Hall Hinit]]]]]]] | Hinit];
      rewrite Hinit; do 3 eexists; (split; [reflexivity | ]).
    + cbn. unfold Props.well_formed. cbn.
      repeat split; try discriminate. now inversion Hall.
    + now apply well_formed_failed.
  - do 3 eexists. split; [reflexivity | ]. now apply well_formed_failed.
Qed.

Lemma advance_with_well_formed (backend : Backend)
    (call : NextSceneRequest.t -> World -> outcome NextSceneResponse.t * World)
    (rq : NextSceneRequest.t -> request)
    (emotion : option EmotionUtils.EmotionData) (h : Hook) (w : World) :
  (forall data w0, snd (call data w0) = send backend (rq data) w0) ->
  gameId (gameState h) <> None ->
  Props.well_formed (gameState h) ->
  exists r h' w',
    advance_with call emotion h w = Some (r, h', w')
    /\ Props.well_formed (gameState h').
Proof.
  intros Hcall Hg Hwf.
  destruct (advance_with_requests backend call rq emotion h w Hcall)
    as [r [h' [w' [n [Hadv _]]]]].
  exists r, h', w'. split; [exact Hadv | ].
  destruct r as [[] | e].
  - apply advance_with_resolved in Hadv.
    destruct Hadv as [response [scene0 [rest [Hs [Hv ->]]]]].
    unfold Props.well_formed. cbn. repeat split; try discriminate; auto.
  - apply advance_with_rejected in Hadv. subst h'. now apply well_formed_failed.
Qed.

Lemma after_call_well_formed (c : Props.hook_call) (h : Hook) (w : World) :
  Props.well_formed (gameState h) ->
  exists h' w',
    Props.after_call c h w = Some (h', w') /\ Props.well_formed (gameState h').
Proof.
  intros Hwf. destruct c as [backend token data | backend token emotion
                            | backend token selectionId emotion | ]; simpl.
  - destruct (createNewGame_well_formed backend token data h w Hwf)
      as [r [h' [w' [Hc Hwf']]]].
    rewrite Hc. now exists h', w'.
  - destruct (proceedToNextScene_cases backend token emotion h w)
      as [[_ Hp] | [[_ [_ Hp]] | [[scene [_ [_ Hp]]] | [tk [g [s [c [_ [Hg [_ [_ [_ Hp]]]]]]]]]]]]; rewrite Hp;
      try (now exists h, w).
    destruct (advance_with_well_formed backend
                (fun data => generateNextScene backend g s c data tk)
                (fun data => GenerateNextScene g s c data tk)
                emotion h w ltac:(reflexivity) ltac:(congruence) Hwf)
      as [r [h' [w' [Ha Hwf']]]].
    rewrite Ha. now exists h', w'.
  - destruct (selectChoice_cases backend token selectionId emotion h w)
      as [[_ Hp] | [[_ [_ Hp]] | [[scene [_ [_ Hp]]] | [[scene [_ [_ [_ Hp]]]] | [tk [g [s [c [scene [_ [Hg [_ [_ [_ [_ [_ Hp]]]]]]]]]]]]]]]]; rewrite Hp;
      try (now exists h, w).
    destruct (advance_with_well_formed backend
                (fun data => generateSceneAfterSelection backend g s c selectionId data tk)
                (fun data => GenerateSceneAfterSelection g s c selectionId data tk)
                emotion h w ltac:(reflexivity) ltac:(congruence) Hwf)
      as [r [h' [w' [Ha Hwf']]]].
    rewrite Ha. now exists h', w'.
  - exists (resetGame h), w. split; [reflexivity | ].
    unfold Props.well_formed. cbn. repeat split.
Qed.

Lemma after_calls_well_formed (calls : list (Props.hook_call * Z)) :
  forall h w,
    Props.well_formed (gameState h) ->
    exists h' w',
      Props.after_calls calls h w = Some (h', w') /\ Props.well_formed (gameState h').
Proof.
  induction calls as [ | [c idle] calls IH]; intros h w Hwf; simpl.
  - now exists h, w.
  - destruct (after_call_well_formed c h (sleep idle w) Hwf) as [h1 [w1 [Hc Hwf1]]].
    rewrite Hc. now apply IH.
Qed.

(** X21. Whatever calls are made on a fresh hook, one after the
    other, with whatever backend, token and arguments, each call
    settles, and between two calls the hook is well formed: the index
    is 0 and the current scene is the first of the buffer, valid, with
    its identifier as [currentSceneId]; nothing is loading; there are
    game and session identifiers exactly when the buffer is not
    empty. In particular the index of the hook never moves, and
    [isLastScene()] is true exactly when the buffer has at most one
    scene. *)
Theorem hook_stays_well_formed (calls : list (Props.hook_call * Z)) (w0 : World) :
  exists h w,
    Props.after_calls calls initialHook w0 = Some (h, w)
    /\ Props.well_formed (gameState h)
    /\ getCurrentScene (gameState h) = hd_error (scenes (gameState h))
    /\ currentSceneId (gameState h)
       = option_map SceneData.scene_id (getCurrentScene (gameState h))
    /\ (isLastScene (gameState h) = true
        <-> (length (scenes (gameState h)) <= 1)%nat).
Proof.
  destruct (after_calls_well_formed calls initialHook w0) as [h [w [Hc Hwf]]].
  { unfold Props.well_formed. cbn. repeat split. }
  exists h, w. split; [exact Hc | ]. split; [exact Hwf | ].
  destruct Hwf as [Hi [_ Hs]].
  assert (Hcur : getCurrentScene (gameState h) = hd_error (scenes (gameState h))).
  { unfold getCurrentScene. rewrite Hi. now destruct (scenes (gameState h)). }
  split; [exact Hcur | ]. split.
  - rewrite Hcur. destruct (scenes (gameState h)); cbn; tauto.
  - unfold isLastScene. rewrite Hi.
    destruct (Z.geb_spec 0 (Z.of_nat (length (scenes (gameState h))) - 1));
      split; intros; try lia; auto; discriminate.
Qed.

End HookInvariant.

(* ================================================================== *)
(** * The page: [handleNextScene], [getCurrentEmotionData],
      [handleCreateGame] *)
(* ================================================================== *)

Section PageMore.
Import JS ErrorHandler UseGameState GamePage.

Variable backend : Backend.
Variable accessToken : option string.
Variable emotionExpression : option Expression.

(** X22. While the hook is not at its last scene, [handleNextScene]
    never gets further: however often it is called, nothing is sent
    and the hook is as it was, so the current scene is the same at
    every call; the scene index of the page grows by one per call, the
    error of the page is kept, and a current scene with a line is
    logged again at every call. *)
Theorem handleNextScene_stays (times : nat) (p : PageState) (h : Hook) (w : World)
    (scene : SceneData.t) :
  isLastScene (gameState h) = false ->
  getCurrentScene (gameState h) = Some scene ->
  exists p',
    Props.handleNextScene_times backend accessToken emotionExpression times p h w
    = Some (p', h, w)
    /\ GamePage.currentSceneIndex p' = GamePage.currentSceneIndex p + Z.of_nat times
    /\ GamePage.error p' = GamePage.error p
    /\ (SceneData.dialogue scene = None \/ SceneData.dialogue scene = Some "" ->
        dialogueLog p' = dialogueLog p)
    /\ (forall line,
          SceneData.dialogue scene = Some line -> line <> "" ->
          dialogueLog p'
          = dialogueLog p
            ++ repeat {| characterName := or_else (SceneData.role scene) "캐릭터";
                         text := line |} times).
Proof.
  intros Hlast Hscene. revert p.
  induction times as [ | times IH]; intros p.
  - exists p. cbn [Props.handleNextScene_times repeat].
    split; [reflexivity | ]. split; [lia | ]. split; [reflexivity | ].
    split; [reflexivity | ]. intros line _ _. now rewrite app_nil_r.
  - cbn [Props.handleNextScene_times]. unfold handleNextScene.
    rewrite Hscene, Hlast. cbn [negb].
    match goal with
    | |- context [Props.handleNextScene_times _ _ _ _ ?q _ _] =>
        destruct (IH q) as [p' [Hrun [Hi [He [Hnone Hline]]]]]
    end.
    exists p'. split; [exact Hrun | ].
    cbn [GamePage.currentSceneIndex GamePage.error dialogueLog] in Hi, He, Hnone, Hline.
    split; [lia | ]. split; [exact He | ]. split.
    + intros Hd. rewrite (Hnone Hd).
      destruct Hd as [Hd | Hd]; rewrite Hd; reflexivity.
    + intros line Hd Hne. rewrite (Hline line Hd Hne), Hd.
      assert (Hl : (line === "") = false) by now apply String.eqb_neq.
      rewrite Hl. unfold or_else at 2. rewrite Hl.
      rewrite <- app_assoc. reflexivity.
Qed.

(** X23. [getCurrentEmotionData] knows the seven labels of
    [EXPRESSION_LABEL]: for each it gives 100 in the field of that
    expression and 0 in the six others, whatever the confidence is.
    Without an expression, and for any other label, it gives the
    default, neutral 100; the label [__proto__] is left out, which
    JavaScript does not look up among the entries of the table. Both
    the vectors of the table and the default pass
    [validateEmotionData]. *)
Theorem getCurrentEmotionData_table :
  (forall key confidence,
      getCurrentEmotionData
        (Some {| label := EmotionDetection.EXPRESSION_LABEL key;
                 confidence := confidence |})
      = Props.one_hot key)
  /\ (forall expression,
        label expression <> "__proto__" ->
        (forall key, label expression <> EmotionDetection.EXPRESSION_LABEL key) ->
        getCurrentEmotionData (Some expression) = EmotionUtils.getDefaultEmotionData)
  /\ getCurrentEmotionData None = EmotionUtils.getDefaultEmotionData
  /\ (forall key,
        validateEmotionData (EmotionUtils.EmotionData_to_value (Props.one_hot key)) = true)
  /\ validateEmotionData
       (EmotionUtils.EmotionData_to_value EmotionUtils.getDefaultEmotionData)
     = true.
Proof.
  assert (Htable : forall key confidence,
             getCurrentEmotionData
               (Some {| label := EmotionDetection.EXPRESSION_LABEL key;
                        confidence := confidence |})
             = Props.one_hot key).
  { intros key confidence. destruct key; vm_compute; reflexivity. }
  assert (Hother : forall expression,
             label expression <> "__proto__" ->
             (forall key, label expression <> EmotionDetection.EXPRESSION_LABEL key) ->
             getCurrentEmotionData (Some expression) = EmotionUtils.getDefaultEmotionData).
  { intros [l c] _ Hl. cbn [label] in Hl.
    unfold getCurrentEmotionData, emotionMap. cbn [label lookup].
    pose proof (Hl EmotionDetection.neutral) as H1.
    pose proof (Hl EmotionDetection.happy) as H2.
    pose proof (Hl EmotionDetection.sad) as H3.
    pose proof (Hl EmotionDetection.angry) as H4.
    pose proof (Hl EmotionDetection.fearful) as H5.
    pose proof (Hl EmotionDetection.disgusted) as H6.
    pose proof (Hl EmotionDetection.surprised) as H7.
    cbn [EmotionDetection.EXPRESSION_LABEL] in H1, H2, H3, H4, H5, H6, H7.
    apply String.eqb_neq in H1, H2, H3, H4, H5, H6, H7.
    rewrite ?(String.eqb_sym _ l).
    rewrite H1, H2, H3, H4, H5, H6, H7. reflexivity. }
  split; [exact Htable | ]. split; [exact Hother | ]. split; [reflexivity | ].
  split; [intros key; destruct key | ]; vm_compute; reflexivity.
Qed.

End PageMore.

Section SetupMore.
Import JS ErrorHandler UseGameState GamePageSetup.

Variable backend : Backend.
Variable accessToken : option string.

(** [createNewGame] always settles. *)
Lemma createNewGame_settles (data : CreateGameRequest.t) (h : Hook) (w : World) :
  exists r h' w', createNewGame backend accessToken data h w = Some (r, h', w').
Proof.
  unfold createNewGame.
  destruct (usable_token accessToken) as [token | ]; [ | now do 3 eexists].
  destruct (retryWithBackoff_total sleep (createGame backend data token) 3 1000 w)
    as [[[settled w1] trace] Hr].
  rewrite Hr.
  destruct settled as [response | e]; [ | now do 3 eexists].
  destruct (initial_state_of response); now do 3 eexists.
Qed.

(** X24. [handleCreateGame] always settles. A form whose personality or
    genre is nothing but white space, or whose play time is not
    between 5 and 100, is refused before anything is sent: the hook,
    the world and the two flags are as they were, and the error is the
    message of the first check that fails. With a valid form
    [createNewGame] is called once and the creating flag is false
    afterwards; the error is cleared and the confirmation is shown
    when it resolves, and the error is the message of what it throws,
    with the confirmation untouched, when it rejects. *)
Theorem handleCreateGame_settles (gameForm : CreateGameRequest.t) (p : SetupState)
    (h : Hook) (w : World) :
  exists p' h' w',
    handleCreateGame backend accessToken gameForm p h w = Some (p', h', w')
    /\ (is_blank (CreateGameRequest.personality gameForm) = true
        \/ is_blank (CreateGameRequest.genre gameForm) = true
        \/ CreateGameRequest.playtime gameForm < 5
        \/ 100 < CreateGameRequest.playtime gameForm ->
        h' = h /\ w' = w
        /\ isCreatingGame p' = isCreatingGame p
        /\ showStartConfirm p' = showStartConfirm p
        /\ error p'
           = Some (if is_blank (CreateGameRequest.personality gameForm)
                   then "성격 유형을 입력해주세요."
                   else if is_blank (CreateGameRequest.genre gameForm)
                   then "장르를 입력해주세요."
                   else "플레이 시간은 5분에서 100분 사이로 설정해주세요."))
    /\ (is_blank (CreateGameRequest.personality gameForm) = false ->
        is_blank (CreateGameRequest.genre gameForm) = false ->
        5 <= CreateGameRequest.playtime gameForm <= 100 ->
        isCreatingGame p' = false
        /\ exists r,
             createNewGame backend accessToken gameForm h w = Some (r, h', w')
             /\ match r with
                | Resolved _ => error p' = None /\ showStartConfirm p' = true
                | Rejected err =>
                    error p' = Some (message_or err "게임 생성에 실패했습니다.")
                    /\ showStartConfirm p' = showStartConfirm p
                end).
Proof.
  unfold handleCreateGame.
  destruct (is_blank (CreateGameRequest.personality gameForm)) eqn:Hp.
  { do 3 eexists. split; [reflexivity | ]. split; [ | discriminate].
    intros _. repeat split. }
  destruct (is_blank (CreateGameRequest.genre gameForm)) eqn:Hg.
  { do 3 eexists. split; [reflexivity | ]. split; [ | discriminate].
    intros _. repeat split. }
  destruct ((CreateGameRequest.playtime gameForm <? 5)
            || (CreateGameRequest.playtime gameForm >? 100)) eqn:Ht.
  { do 3 eexists. split; [reflexivity | ]. split.
    - intros _. repeat split.
    - intros _ _ Hrange. apply orb_true_iff in Ht.
      destruct Ht as [Ht | Ht]; [apply Z.ltb_lt in Ht | rewrite Z.gtb_ltb in Ht; apply Z.ltb_lt in Ht]; lia. }
  apply orb_false_iff in Ht. destruct Ht as [Ht1 Ht2].
  apply Z.ltb_ge in Ht1. rewrite Z.gtb_ltb in Ht2. apply Z.ltb_ge in Ht2.
  destruct (createNewGame_settles gameForm h w) as [r [h' [w' Hc]]].
  rewrite Hc.
  destruct r as [u | err]; do 3 eexists; (split; [reflexivity | ]);
    (split; [intros [H | [H | [H | H]]]; try discriminate H; lia | ]);
    intros _ _ _; (split; [reflexivity | ]); eexists; (split; [reflexivity | ]);
    cbn; split; reflexivity.
Qed.

End SetupMore.

Section TimerMore.
Import GameTimer.

Lemma tick_max (remainingSeconds : Z) :
  0 <= remainingSeconds -> tick remainingSeconds = Z.max 0 (remainingSeconds - 1).
Proof.
  intros H. unfold tick. destruct (Z.leb_spec remainingSeconds 1); lia.
Qed.

(** X25. The countdown of [GameTimer]: started at a duration that is
    not negative, after any number of ticks it shows the seconds that
    are left, never less than 0; the time is up exactly from the tick
    at which the duration has passed; the warning is on exactly in the
    last 60 seconds; and the minutes and seconds displayed are the
    remaining time, the seconds below 60. *)
Theorem countdown (durationMinutes : Z) (ticks : nat) :
  0 <= durationMinutes ->
  let remainingSeconds := after_ticks ticks (initial durationMinutes) in
  remainingSeconds = Z.max 0 (60 * durationMinutes - Z.of_nat ticks)
  /\ (time_is_up remainingSeconds = true <-> 60 * durationMinutes <= Z.of_nat ticks)
  /\ (isWarning remainingSeconds = true <-> 60 * durationMinutes - Z.of_nat ticks <= 60)
  /\ 0 <= minutes remainingSeconds <= durationMinutes
  /\ 0 <= seconds remainingSeconds < 60
  /\ 60 * minutes remainingSeconds + seconds remainingSeconds = remainingSeconds.
Proof.
  intros Hd remainingSeconds.
  assert (Hrun : forall k r, 0 <= r -> after_ticks k r = Z.max 0 (r - Z.of_nat k)).
  { induction k as [ | k IH]; intros r Hr.
    - cbn [after_ticks]. lia.
    - cbn [after_ticks]. rewrite IH by (rewrite tick_max by exact Hr; lia).
      rewrite tick_max by exact Hr. lia. }
  assert (Hrem : remainingSeconds = Z.max 0 (60 * durationMinutes - Z.of_nat ticks)).
  { unfold remainingSeconds, initial. rewrite Hrun by lia. f_equal. lia. }
  assert (H0 : 0 <= remainingSeconds <= 60 * durationMinutes) by lia.
  split; [exact Hrem | ]. split.
  { unfold time_is_up. rewrite Z.leb_le. lia. }
  split.
  { unfold isWarning. rewrite Z.leb_le. lia. }
  unfold minutes, seconds. rewrite Z.rem_mod_nonneg by lia.
  pose proof (Z.div_mod remainingSeconds 60 ltac:(lia)) as Hdm.
  pose proof (Z.mod_pos_bound remainingSeconds 60 ltac:(lia)) as Hmod.
  split; [ | split; [exact Hmod | lia]].
  split; [apply Z.div_pos; lia | ].
  apply Z.div_le_upper_bound; lia.
Qed.

End TimerMore.

Section PageMoreWitnesses.
Import JS ErrorHandler UseGameState GamePage GamePageSetup GameTimer.

(** Scenario B: three calls with two scenes in the buffer. *)
Lemma handleNextScene_stays_witness :
  exists p',
    Props.handleNextScene_times Examples.backend_two_scenes Examples.token None 3
      Examples.page0 Examples.hook_two_scenes Examples.world_two_scenes
    = Some (p', Examples.hook_two_scenes, Examples.world_two_scenes)
    /\ GamePage.currentSceneIndex p' = 3
    /\ length (dialogueLog p') = 3%nat.
Proof.
  destruct (getCurrentScene (gameState Examples.hook_two_scenes)) as [scene | ] eqn:Hs;
    [ | discriminate Hs].
  destruct (handleNextScene_stays Examples.backend_two_scenes Examples.token None 3
              Examples.page0 Examples.hook_two_scenes Examples.world_two_scenes scene
              eq_refl Hs)
    as [p' [Hrun [Hi [_ [_ Hline]]]]].
  exists p'. split; [exact Hrun | ]. split; [exact Hi | ].
  injection Hs as <-.
  rewrite (Hline _ eq_refl); [reflexivity | discriminate].
Defined.

(** A label that is not in the table. *)
Lemma getCurrentEmotionData_table_witness :
  getCurrentEmotionData (Some {| label := "happy"; confidence := of_Z 93 |})
  = EmotionUtils.getDefaultEmotionData.
Proof.
  destruct getCurrentEmotionData_table as [_ [Hother _]].
  apply Hother; [discriminate | ]. intros key. destruct key; discriminate.
Defined.

(** A personality of white space only. *)
Lemma handleCreateGame_settles_witness :
  exists p',
    handleCreateGame Examples.backend_two_scenes Examples.token MoreExamples.blank_form
      MoreExamples.setup0 initialHook Examples.world0
    = Some (p', initialHook, Examples.world0)
    /\ GamePageSetup.error p' = Some "성격 유형을 입력해주세요.".
Proof.
  destruct (handleCreateGame_settles Examples.backend_two_scenes Examples.token
              MoreExamples.blank_form MoreExamples.setup0 initialHook Examples.world0)
    as [p' [h' [w' [Hrun [Hbad _]]]]].
  destruct (Hbad (or_introl eq_refl)) as [Hh [Hw [_ [_ He]]]].
  subst h' w'. exists p'. split; [exact Hrun | exact He].
Defined.

(** The timer of the page, seven minutes, after 400 ticks. *)
Lemma countdown_witness :
  after_ticks 400 (initial 7) = 20
  /\ time_is_up (after_ticks 400 (initial 7)) = false
  /\ isWarning (after_ticks 400 (initial 7)) = true.
Proof.
  assert (H : 0 <= 7) by lia.
  destruct (countdown 7 400 H) as [Hrem _].
  cbv zeta in Hrem. rewrite Hrem. vm_compute. repeat split.
Defined.

End PageMoreWitnesses.
